(** * Rebalancing signal engine of rbc-to-csv: model and checked properties

    The repository holds three revisions of the Google-Sheets rebalancing
    script.  Each is embedded in a module of its own:

    - [V1]: [src/unnamed/part_000], the first "enhanced" script
      (scorers take an explicit [config]);
    - [V2]: [src/googleSheetsHelper.v2.js];
    - [V3]: [src/unnamed/part_001] ([CACHE_VERSION = 'v3']), which repeats
      V2 except for allocation loading and the metadata check.

    Numbers.  A JavaScript number is modelled as an exact rational or one of
    the IEEE special values [+Infinity], [-Infinity], [NaN].  Arithmetic on
    finite values is exact: rounding, overflow and the sign of zero are not
    modelled.  Everything that the scripts fetch over HTTP or read from the
    spreadsheet is an argument of the model. *)

From Stdlib Require Import QArith Qabs Qround Lqa ZArith Lia.
From Stdlib Require Import String Ascii List DecimalString.
From stdpp Require Import gmap strings list fin_maps.

Local Open Scope Q_scope.

(* ===================================================================== *)
(** ** JavaScript numbers and the built-ins the scripts call *)
(* ===================================================================== *)

Module JS.

Inductive num : Type :=
  | Fin (q : Q)
  | PInf
  | NInf
  | NaN.

Definition Qltb (a b : Q) : bool := negb (Qle_bool b a).

Definition is_fin (a : num) : Prop :=
  match a with Fin _ => True | _ => False end.

(** Equality of numbers as values: rationals up to [==]. *)
Definition num_eq (a b : num) : Prop :=
  match a, b with
  | Fin x, Fin y => x == y
  | PInf, PInf | NInf, NInf | NaN, NaN => True
  | _, _ => False
  end.

Definition neg (a : num) : num :=
  match a with
  | Fin x => Fin (- x)
  | PInf => NInf
  | NInf => PInf
  | NaN => NaN
  end.

Definition add (a b : num) : num :=
  match a, b with
  | NaN, _ | _, NaN => NaN
  | Fin x, Fin y => Fin (x + y)
  | PInf, NInf | NInf, PInf => NaN
  | PInf, _ | _, PInf => PInf
  | NInf, _ | _, NInf => NInf
  end.

Definition sub (a b : num) : num := add a (neg b).

(** Infinity times a finite value takes the sign of the product; times
    zero it is NaN. *)
Definition inf_times (positive : bool) (x : Q) : num :=
  match x ?= 0 with
  | Gt => if positive then PInf else NInf
  | Lt => if positive then NInf else PInf
  | Eq => NaN
  end.

Definition mul (a b : num) : num :=
  match a, b with
  | NaN, _ | _, NaN => NaN
  | Fin x, Fin y => Fin (x * y)
  | Fin x, PInf | PInf, Fin x => inf_times true x
  | Fin x, NInf | NInf, Fin x => inf_times false x
  | PInf, PInf | NInf, NInf => PInf
  | PInf, NInf | NInf, PInf => NInf
  end.

(** Division: a finite non-zero value over zero is an infinity of the
    dividend's sign (zero is taken as [+0]), zero over zero is NaN. *)
Definition div (a b : num) : num :=
  match a, b with
  | NaN, _ | _, NaN => NaN
  | Fin x, Fin y =>
      if Qeq_bool y 0 then inf_times true x else Fin (x / y)
  | Fin _, PInf | Fin _, NInf => Fin 0
  | PInf, Fin y => if Qltb y 0 then NInf else PInf
  | NInf, Fin y => if Qltb y 0 then PInf else NInf
  | _, _ => NaN
  end.

(** Ordering; [None] when an operand is NaN, so that every comparison
    with NaN is false. *)
Definition cmp (a b : num) : option comparison :=
  match a, b with
  | NaN, _ | _, NaN => None
  | Fin x, Fin y => Some (x ?= y)
  | PInf, PInf | NInf, NInf => Some Eq
  | NInf, _ | _, PInf => Some Lt
  | PInf, _ | _, NInf => Some Gt
  end.

Definition ltb (a b : num) : bool :=
  match cmp a b with Some Lt => true | _ => false end.
Definition gtb (a b : num) : bool :=
  match cmp a b with Some Gt => true | _ => false end.
Definition leb (a b : num) : bool :=
  match cmp a b with Some Lt | Some Eq => true | _ => false end.
Definition geb (a b : num) : bool :=
  match cmp a b with Some Gt | Some Eq => true | _ => false end.
(** [a !== b] on numbers. *)
Definition neqb (a b : num) : bool :=
  match cmp a b with Some Eq => false | _ => true end.

Definition isNaN (a : num) : bool :=
  match a with NaN => true | _ => false end.

(** ToBoolean of a number: false for zero and NaN. *)
Definition truthy (a : num) : bool :=
  match a with
  | Fin x => negb (Qeq_bool x 0)
  | PInf | NInf => true
  | NaN => false
  end.

(** [a || b] on numbers. *)
Definition or_else (a b : num) : num := if truthy a then a else b.

Definition Math_abs (a : num) : num :=
  match a with
  | Fin x => Fin (Qabs x)
  | PInf | NInf => PInf
  | NaN => NaN
  end.

Definition Math_max (a b : num) : num :=
  match cmp a b with
  | None => NaN
  | Some Lt => b
  | Some _ => a
  end.

Definition Math_min (a b : num) : num :=
  match cmp a b with
  | None => NaN
  | Some Gt => b
  | Some _ => a
  end.

Definition Math_sign (a : num) : num :=
  match a with
  | Fin x => match x ?= 0 with Gt => Fin 1 | Lt => Fin (-1) | Eq => Fin 0 end
  | PInf => Fin 1
  | NInf => Fin (-1)
  | NaN => NaN
  end.

(** *** Arrays *)

(** [arr.slice(start, end)] with JavaScript's treatment of negative and
    out-of-range indices. *)
Definition clampIndex (len i : Z) : Z :=
  if (i <? 0)%Z then Z.max (len + i) 0 else Z.min i len.

Definition slice {A} (arr : list A) (start stop : Z) : list A :=
  let len := Z.of_nat (length arr) in
  let k := clampIndex len start in
  let final := clampIndex len stop in
  take (Z.to_nat (final - k)) (drop (Z.to_nat k) arr).

(** [arr.slice(start)]. *)
Definition sliceFrom {A} (arr : list A) (start : Z) : list A :=
  slice arr start (Z.of_nat (length arr)).

(** [arr.reduce((a,b) => a+b, 0)]. *)
Definition sum (arr : list num) : num := foldl add (Fin 0) arr.

Definition lengthN {A} (arr : list A) : num :=
  Fin (inject_Z (Z.of_nat (length arr))).

(** *** Strings *)

Local Open Scope char_scope.

Definition isDigit (c : ascii) : bool :=
  (48 <=? nat_of_ascii c)%nat && (nat_of_ascii c <=? 57)%nat.

Definition isWhite (c : ascii) : bool :=
  match nat_of_ascii c with
  | 9%nat | 10%nat | 11%nat | 12%nat | 13%nat | 32%nat => true
  | _ => false
  end.

Definition digitVal (c : ascii) : Z := Z.of_nat (nat_of_ascii c - 48).

Fixpoint dropWhite (l : list ascii) : list ascii :=
  match l with
  | c :: r => if isWhite c then dropWhite r else l
  | [] => []
  end.

Fixpoint spanDigits (l : list ascii) : list ascii * list ascii :=
  match l with
  | c :: r =>
      if isDigit c then let '(ds, rest) := spanDigits r in (c :: ds, rest)
      else ([], l)
  | [] => ([], [])
  end.

Fixpoint prefixb (p l : list ascii) : bool :=
  match p, l with
  | [], _ => true
  | _ :: _, [] => false
  | a :: p', b :: l' => Ascii.eqb a b && prefixb p' l'
  end.

Definition digitsVal (ds : list ascii) : Z :=
  foldl (fun acc c => (acc * 10 + digitVal c)%Z) 0%Z ds.

(** An optional sign: [(negative, rest)]. *)
Definition takeSign (l : list ascii) : bool * list ascii :=
  match l with
  | c :: r =>
      if Ascii.eqb c "-" then (true, r)
      else if Ascii.eqb c "+" then (false, r)
      else (false, l)
  | [] => (false, [])
  end.

(** The digits after a decimal point, when there is one. *)
Definition takeFraction (l : list ascii) : list ascii * list ascii :=
  match l with
  | c :: r => if Ascii.eqb c "." then spanDigits r else ([], l)
  | [] => ([], [])
  end.

(** The value of an exponent part [e±ddd]; 0 when there is none or when it
    has no digit (the prefix before it is then the literal). *)
Definition takeExponent (l : list ascii) : Z :=
  match l with
  | c :: r =>
      if Ascii.eqb c "e" || Ascii.eqb c "E" then
        let '(negative, r') := takeSign r in
        match fst (spanDigits r') with
        | [] => 0%Z
        | ds => if negative then (- digitsVal ds)%Z else digitsVal ds
        end
      else 0%Z
  | [] => 0%Z
  end.

Definition parseFloatChars (l : list ascii) : num :=
  let '(negative, l0) := takeSign (dropWhite l) in
  if prefixb (list_ascii_of_string "Infinity") l0 then
    (if negative then NInf else PInf)
  else
    let '(ip, l1) := spanDigits l0 in
    let '(fp, l2) := takeFraction l1 in
    match ip, fp with
    | [], [] => NaN
    | _, _ =>
        let mant :=
          inject_Z (digitsVal ip)
          + inject_Z (digitsVal fp) / 10 ^ Z.of_nat (length fp) in
        let v := mant * 10 ^ takeExponent l2 in
        Fin (if negative then - v else v)
    end.

(** [parseFloat(s)]: the longest prefix of [s], after leading white space,
    that is a decimal literal; [NaN] when there is none. *)
Definition parseFloat (s : string) : num :=
  parseFloatChars (list_ascii_of_string s).

(** [s.replace('%', '')]: the first occurrence only. *)
Fixpoint replacePercent (s : string) : string :=
  match s with
  | EmptyString => EmptyString
  | String c r => if Ascii.eqb c "%" then r else String c (replacePercent r)
  end.

(** [s.trim()]. *)
Definition trim (s : string) : string :=
  string_of_list_ascii
    (rev (dropWhite (rev (dropWhite (list_ascii_of_string s))))).

(** [s.endsWith("%")]. *)
Definition endsWithPercent (s : string) : bool :=
  match rev (list_ascii_of_string s) with
  | c :: _ => Ascii.eqb c "%"
  | [] => false
  end.

Definition lowerChar (c : ascii) : ascii :=
  let n := nat_of_ascii c in
  if (65 <=? n)%nat && (n <=? 90)%nat then ascii_of_nat (n + 32) else c.

Fixpoint toLowerCase (s : string) : string :=
  match s with
  | EmptyString => EmptyString
  | String c r => String (lowerChar c) (toLowerCase r)
  end.

(** [s.includes(w)]. *)
Fixpoint includesChars (s w : list ascii) : bool :=
  prefixb w s
  || match s with
     | [] => false
     | _ :: r => includesChars r w
     end.

Definition includes (s w : string) : bool :=
  includesChars (list_ascii_of_string s) (list_ascii_of_string w).

(** [x.toFixed(d)] for [|x| < 1e21] (above that JavaScript switches to
    exponent notation, which is not modelled): the nearest multiple of
    [10^-d], ties to the larger one, and the sign of [x] in front. *)
Definition padDigits (d : nat) (s : string) : string :=
  String.append
    (string_of_list_ascii (repeat "0" (S d - String.length s))) s.

Definition toFixed (d : nat) (x : num) : string :=
  match x with
  | NaN => "NaN"%string
  | PInf => "Infinity"%string
  | NInf => "-Infinity"%string
  | Fin q =>
      let n := Qfloor (Qabs q * 10 ^ Z.of_nat d + (1 # 2)) in
      let ds := padDigits d (NilZero.string_of_uint (N.to_uint (Z.to_N n))) in
      let k := (String.length ds - d)%nat in
      let body :=
        match d with
        | O => ds
        | _ => String.append (String.substring 0 k ds)
                 (String "." (String.substring k d ds))
        end in
      if Qltb q 0 then String "-" body else body
  end.

(** [Math.round(x)]: the nearest integer, ties towards [+Infinity]. *)
Definition Math_round (x : num) : num :=
  match x with
  | Fin q => Fin (inject_Z (Qfloor (q + (1 # 2))))
  | _ => x
  end.

End JS.

Import JS.
Local Open Scope string_scope.

(* ===================================================================== *)
(** ** Data shared by the three revisions *)
(* ===================================================================== *)

Module Data.

(** A spreadsheet cell as [getValues()] returns it: a number or a text;
    an empty cell is the empty text. *)
Inductive cell : Type :=
  | CNum (x : num)
  | CStr (s : string).

(** ToBoolean of a cell value. *)
Definition truthyCell (c : cell) : bool :=
  match c with
  | CNum x => truthy x
  | CStr s => negb (String.eqb s "")
  end.

(** [c === 'text']. *)
Definition cellIs (c : option cell) (s : string) : bool :=
  match c with
  | Some (CStr s') => String.eqb s' s
  | _ => false
  end.

(** [parseFloat(c)] and [parseFloat((''+c).replace('%',''))] on a cell.
    The decimal text of a number holds no ['%'] and parses back to the
    number, so for a numeric cell both are the number itself. *)
Definition parseFloatCell (c : cell) : num :=
  match c with
  | CNum x => x
  | CStr s => parseFloat s
  end.

Definition parseFloatNoPercent (c : cell) : num :=
  match c with
  | CNum x => x
  | CStr s => parseFloat (replacePercent s)
  end.

(** [m[t]] read as a number: a missing key is [undefined], or the
    function that the object inherits under that name; the arithmetic
    operators turn either into [NaN]. *)
Definition getN (m : gmap string num) (t : string) : num :=
  default NaN (m !! t).

(** The seven indicators, in the order the scripts list them. *)
Inductive indicator : Type :=
  | unemployment | usCPI | canCPI | canGDP | vix | yieldCurve | creditSpread.

Definition indicators : list indicator :=
  [unemployment; usCPI; canCPI; canGDP; vix; yieldCurve; creditSpread].

(** Descriptions are built by string concatenation around the current
    value; the value's own decimal text is kept symbolic ([Num]). *)
Inductive frag : Type :=
  | Txt (s : string)
  | Num (x : num).

(** [d += s] *)
Definition addText (d : list frag) (s : string) : list frag :=
  (d ++ [Txt s])%list.

(** The object a scorer returns.  The scripts write the text under the key
    [desc] or [description]; a key the object literal does not have reads
    as [undefined] ([None]). *)
Record ScoreObj : Type := {
  score : num;
  desc : option (list frag);
  description : option (list frag)
}.

Record UnemploymentThresholds : Type :=
  { u_veryLow : num; u_low : num; u_high : num; u_veryHigh : num }.
Record CpiThresholds : Type :=
  { cpi_veryLow : num; cpi_target : num; cpi_tolerance : num; cpi_high : num }.
Record VixThresholds : Type :=
  { vix_low : num; vix_normal : num; vix_elevated : num; vix_high : num }.
Record Thresholds : Type := {
  th_unemployment : UnemploymentThresholds;
  th_cpi : CpiThresholds;
  th_vix : VixThresholds
}.
Record Rebalancing : Type := {
  minThreshold : num;
  maxSingleMove : num;
  volatilityAdjustment : bool;
  balanceConstraint : bool
}.

(** [CONFIG] of V2/V3 ([THRESHOLDS], [WEIGHTS], [TREND_PERIODS],
    [REBALANCING]) and [config] of V1 ([thresholds], [weights],
    [trendPeriods], [rebalancing]).  A weight may be missing. *)
Record Config : Type := {
  THRESHOLDS : Thresholds;
  WEIGHTS : indicator -> option num;
  TREND_PERIODS : Z;
  REBALANCING : Rebalancing
}.

Definition weight (cfg : Config) (k : indicator) : num :=
  default NaN (WEIGHTS cfg k).

(** The two sheets [GET_REBALANCE_SIGNAL] reads: rows [A:B] of
    'Asset Allocations' and rows [A:D] of 'Asset Metadata'.  The first
    column holds the ticker as text.  The scripts keep their tables in
    plain objects keyed by ticker, modelled as finite maps of the
    objects' own entries. *)
Record Sheets : Type := {
  allocData : list (string * cell);
  meta : list (string * cell * cell * cell)
}.

(** What a call does: return a value, or throw an error with a
    message. *)
Inductive outcome (A : Type) : Type :=
  | Returns (a : A)
  | Throws (msg : string).
Arguments Returns {A} a.
Arguments Throws {A} msg.

(** The members that every plain object inherits from
    [Object.prototype]. *)
Definition inheritedNames : list string :=
  ["constructor"; "__defineGetter__"; "__defineSetter__"; "hasOwnProperty";
   "__lookupGetter__"; "__lookupSetter__"; "isPrototypeOf";
   "propertyIsEnumerable"; "toString"; "valueOf"; "__proto__";
   "toLocaleString"].

Definition inherited (t : string) : bool :=
  existsb (String.eqb t) inheritedNames.

(** [t in m]: the object has an entry of its own for [t], or inherits a
    member of that name. *)
Definition hasProperty {A} (m : gmap string A) (t : string) : bool :=
  bool_decide (is_Some (m !! t)) || inherited t.

(** [classMap], [regionMap] and [sensMap] after the metadata loop. *)
Record Metadata : Type := {
  classMap : gmap string cell;
  regionMap : gmap string cell;
  sensMap : gmap string num
}.

(** The final steps shared by all revisions: renormalise and format. *)
Definition proposed (allocMap rawDelta : gmap string num) (t : string) : num :=
  Math_max (Fin 0) (mul (getN allocMap t) (add (Fin 1) (getN rawDelta t))).

Definition formatSignal (minThr finalD : num) : string :=
  if ltb (Math_abs finalD) minThr then "Hold"
  else if gtb finalD (Fin 0) then
    "Increase " ++ toFixed 2 (mul finalD (Fin 100)) ++ "%"
  else
    "Decrease " ++ toFixed 2 (mul (Math_abs finalD) (Fin 100)) ++ "%".

(** The requested ticker has no allocation, or an allocation of zero. *)
Definition zeroOrAbsent (allocMap : gmap string num) (t : string) : Prop :=
  allocMap !! t = None
  \/ exists q, allocMap !! t = Some (Fin q) /\ (q == 0)%Q.

(** [Σ delta[t] * allocation[t]] and [Σ allocation[t]] over a list of
    tickers, summed from 0 in list order as the scripts do. *)
Definition netMove (allocMap rawDelta : gmap string num) (l : list string)
    : num :=
  foldl (fun n t => add n (mul (getN rawDelta t) (getN allocMap t))) (Fin 0) l.

Definition totalAlloc (allocMap : gmap string num) (l : list string) : num :=
  foldl (fun a t => add a (getN allocMap t)) (Fin 0) l.

(** Every ticker of [l] has a finite entry in [m]. *)
Definition finiteOn (m : gmap string num) (l : list string) : Prop :=
  forall t, In t l -> exists q, m !! t = Some (Fin q).

(** What the balance step achieves on the tickers [l]: the net move
    [n0] of the raw deltas [rd] becomes exactly 0 when it exceeded 0.001
    in absolute value, and otherwise the deltas are left as they are; the
    net move [n] of the result [rd'] is within 0.001 of zero either way. *)
Definition reconciled (allocMap rd rd' : gmap string num) (l : list string)
    : Prop :=
  exists n0 n,
    netMove allocMap rd l = Fin n0
    /\ netMove allocMap rd' l = Fin n
    /\ (Qabs n <= 0.001)%Q
    /\ ((0.001 < Qabs n0)%Q -> (n == 0)%Q)
    /\ ((Qabs n0 <= 0.001)%Q -> rd' = rd).

(** [x] is a finite number between [lo] and [hi]. *)
Definition inRange (lo hi : Q) (x : num) : Prop :=
  exists q, x = Fin q /\ (lo <= q <= hi)%Q.

End Data.

Import Data.

(* ===================================================================== *)
(** ** V2: src/googleSheetsHelper.v2.js *)
(* ===================================================================== *)

Module V2.

Definition CONFIG : Config := {|
  THRESHOLDS := {|
    th_unemployment :=
      {| u_veryLow := Fin 3.5; u_low := Fin 4.5;
         u_high := Fin 5.5; u_veryHigh := Fin 6.5 |};
    th_cpi :=
      {| cpi_veryLow := Fin 1.0; cpi_target := Fin 2.0;
         cpi_tolerance := Fin 0.5; cpi_high := Fin 4.0 |};
    th_vix :=
      {| vix_low := Fin 15; vix_normal := Fin 20;
         vix_elevated := Fin 25; vix_high := Fin 30 |}
  |};
  WEIGHTS := fun k =>
    Some (match k with
          | unemployment => Fin 1.2
          | usCPI => Fin 1.2
          | canCPI => Fin 0.8
          | canGDP => Fin 1.0
          | vix => Fin 1.5
          | yieldCurve => Fin 1.7
          | creditSpread => Fin 1.4
          end);
  TREND_PERIODS := 3;
  REBALANCING :=
    {| minThreshold := Fin 0.005; maxSingleMove := Fin 0.15;
       volatilityAdjustment := true; balanceConstraint := true |}
|}.

(** [arr => arr.reduce((a,b) => a+b,0)/arr.length] *)
Definition avg (arr : list num) : num := div (sum arr) (lengthN arr).

(** [historical.slice(0, historical.length - periods)] and
    [historical.slice(-periods)] *)
Definition olderOf (historical : list num) (periods : Z) : list num :=
  slice historical 0 (Z.of_nat (length historical) - periods).
Definition recentOf (historical : list num) (periods : Z) : list num :=
  sliceFrom historical (- periods).

(** [historical] is always an array here (the fetched series, or [[]]),
    so [!historical] is false. *)
Definition calculateTrend (historical : list num) (periods : Z) : num :=
  if (Z.of_nat (length historical) <? periods + 1)%Z then Fin 0
  else
    let older := olderOf historical periods in
    let recent := recentOf historical periods in
    if (length older =? 0)%nat then Fin 0
    else
      let change := div (sub (avg recent) (avg older)) (avg older) in
      Math_max (Fin (-1)) (Math_min (Fin 1) (mul change (Fin 10))).

Definition noData : ScoreObj :=
  {| score := Fin 0; desc := Some [Txt "No data"]; description := None |}.

Definition result (base : num) (d : list frag) : ScoreObj :=
  {| score := Math_max (Fin (-2)) (Math_min (Fin 2) base);
     desc := None; description := Some d |}.

Definition calculateUnemploymentScore
    (cfg : Config) (curr : option num) (hist : list num) : ScoreObj :=
  match curr with
  | None => noData
  | Some curr =>
      let t := th_unemployment (THRESHOLDS cfg) in
      let d := [Num curr; Txt "%"] in
      let '(base, d) :=
        if ltb curr (u_veryLow t) then (Fin 2, addText d " (Very Low)")
        else if ltb curr (u_low t) then (Fin 1, addText d " (Low)")
        else if gtb curr (u_veryHigh t) then (Fin (-2), addText d " (Very High)")
        else if gtb curr (u_high t) then (Fin (-1), addText d " (High)")
        else (Fin 0, addText d " (Normal)") in
      let adj := calculateTrend hist (TREND_PERIODS cfg) in
      let '(base, d) :=
        if truthy adj then
          (sub base (mul adj (Fin 0.5)),
           addText d (if gtb adj (Fin 0) then " Rising" else " Falling"))
        else (base, d) in
      result base d
  end.

Definition calculateCPIScore
    (cfg : Config) (curr : option num) (hist : list num) (region : string)
    : ScoreObj :=
  match curr with
  | None => noData
  | Some curr =>
      let t := th_cpi (THRESHOLDS cfg) in
      let d := [Num curr; Txt "%"] in
      let '(base, d) :=
        if ltb curr (cpi_veryLow t) then (Fin (-1), addText d " (Deflation Risk)")
        else if leb (Math_abs (sub curr (cpi_target t))) (cpi_tolerance t)
          then (Fin 1, addText d " (On Target)")
        else if gtb curr (cpi_high t) then (Fin (-2), addText d " (High Inflation)")
        else if gtb curr (add (cpi_target t) (cpi_tolerance t))
          then (Fin (-1), addText d " (Above Target)")
        else (Fin 0, addText d " (Below Target)") in
      let adj := calculateTrend hist (TREND_PERIODS cfg) in
      let '(base, d) :=
        if truthy adj then
          (sub base (mul (Math_sign adj) (Fin 0.3)),
           addText d (if gtb adj (Fin 0) then " Rising" else " Falling"))
        else (base, d) in
      result base d
  end.

Definition calculateVIXScore
    (cfg : Config) (curr : option num) (hist : list num) : ScoreObj :=
  match curr with
  | None => noData
  | Some curr =>
      let t := th_vix (THRESHOLDS cfg) in
      let d := [Num curr] in
      let '(base, d) :=
        if ltb curr (vix_low t) then (Fin 1, addText d " (Low Vol)")
        else if ltb curr (vix_normal t) then (Fin 0.5, addText d " (Normal)")
        else if ltb curr (vix_elevated t) then (Fin (-0.5), addText d " (Elevated)")
        else if ltb curr (vix_high t) then (Fin (-1), addText d " (High)")
        else (Fin (-2), addText d " (Very High)") in
      let adj := calculateTrend hist (TREND_PERIODS cfg) in
      let '(base, d) :=
        if truthy adj then
          (sub base (mul adj (Fin 0.4)),
           addText d (if gtb adj (Fin 0) then " Rising" else " Falling"))
        else (base, d) in
      result base d
  end.

Definition up : list string :=
  ["rising"; "positive"; "increasing"; "expanding"].
Definition down : list string :=
  ["falling"; "negative"; "decreasing"; "contracting"].

(** [curr] is whatever the feed delivers.  The decimal text of a number
    (digits, sign, point, exponent, or [Infinity]) includes none of the
    keywords, so a numeric value scores 0. *)
Definition calculateGDPScore (curr : option cell) : ScoreObj :=
  match curr with
  | None => noData
  | Some c =>
      if negb (truthyCell c) then noData
      else
        match c with
        | CStr s =>
            let txt := toLowerCase s in
            let base :=
              if existsb (fun w => includes txt w) up then Fin 1
              else if existsb (fun w => includes txt w) down then Fin (-1)
              else Fin 0 in
            {| score := base; desc := None; description := Some [Txt s] |}
        | CNum x =>
            {| score := Fin 0; desc := None; description := Some [Num x] |}
        end
  end.

Definition calculateYieldScore
    (cfg : Config) (curr : option num) (hist : list num) : ScoreObj :=
  match curr with
  | None => noData
  | Some curr =>
      let d := [Num curr; Txt "%"] in
      let '(base, d) :=
        if gtb curr (Fin 0.5) then (Fin 1, addText d " (Positive)")
        else if gtb curr (Fin (-0.5)) then (Fin 0, addText d " (Flat)")
        else if gtb curr (Fin (-1.0)) then (Fin (-1), addText d " (Inverted)")
        else (Fin (-2), addText d " (Deep Inversion)") in
      let adj := calculateTrend hist (TREND_PERIODS cfg) in
      let '(base, d) :=
        if truthy adj then
          (add base (mul adj (Fin 0.3)),
           addText d (if gtb adj (Fin 0) then " Steepening" else " Flattening"))
        else (base, d) in
      result base d
  end.

Definition calculateCreditScore
    (cfg : Config) (curr : option num) (hist : list num) : ScoreObj :=
  match curr with
  | None => noData
  | Some curr =>
      let d := [Num curr; Txt "%"] in
      let '(base, d) :=
        if ltb curr (Fin 1.0) then (Fin 1, addText d " (Low)")
        else if ltb curr (Fin 2.0) then (Fin 0, addText d " (Normal)")
        else if ltb curr (Fin 3.0) then (Fin (-1), addText d " (Elevated)")
        else (Fin (-2), addText d " (High)") in
      let adj := calculateTrend hist (TREND_PERIODS cfg) in
      let '(base, d) :=
        if truthy adj then
          (sub base (mul adj (Fin 0.4)),
           addText d (if gtb adj (Fin 0) then " Widening" else " Tightening"))
        else (base, d) in
      result base d
  end.

(** [getEnhancedMarketData().scores]: [ind k] is the fetched
    [ind[k].value] ([None] for [null]) and [hist k] the fetched series. *)
Definition getEnhancedMarketData (cfg : Config)
    (ind : indicator -> option num) (hist : indicator -> list num)
    : indicator -> num :=
  fun k =>
    match k with
    | unemployment =>
        score (calculateUnemploymentScore cfg (ind unemployment) (hist unemployment))
    | usCPI => score (calculateCPIScore cfg (ind usCPI) (hist usCPI) "US")
    | canCPI => score (calculateCPIScore cfg (ind canCPI) (hist canCPI) "CA")
    | canGDP => score (calculateGDPScore (CNum <$> ind canGDP))
    | vix => score (calculateVIXScore cfg (ind vix) (hist vix))
    | yieldCurve =>
        score (calculateYieldScore cfg (ind yieldCurve) (hist yieldCurve))
    | creditSpread =>
        score (calculateCreditScore cfg (ind creditSpread) (hist creditSpread))
    end.

(** The allocation loop: [allocMap] and [tickers] after [forEach]. *)
Definition parseAllocation (raw : cell) : num :=
  div (parseFloatNoPercent raw) (Fin 100).

Definition loadAllocations (rows : list (string * cell))
    : gmap string num * list string :=
  foldl (fun '(allocMap, tickers) '(t, raw) =>
           let a := parseAllocation raw in
           if negb (String.eqb t "") && negb (isNaN a)
           then (<[t := a]> allocMap, (tickers ++ [t])%list)
           else (allocMap, tickers))
        (∅, []) rows.

(** The metadata loop. *)
Definition loadMetadata (rows : list (string * cell * cell * cell)) : Metadata :=
  foldl (fun md '(r0, r1, r2, r3) =>
           {| classMap := <[r0 := r1]> (classMap md);
              regionMap := <[r0 := r2]> (regionMap md);
              sensMap := <[r0 := or_else (parseFloatCell r3) (Fin 1)]> (sensMap md) |})
        {| classMap := ∅; regionMap := ∅; sensMap := ∅ |} rows.

(** [regionMap[t] || 'Global'] *)
Definition regionOf (md : Metadata) (t : string) : cell :=
  match regionMap md !! t with
  | Some c => if truthyCell c then c else CStr "Global"
  | None => CStr "Global"
  end.

Definition boosted (cfg : Config) (scores : indicator -> num)
    (l : list (indicator * num)) : num * num :=
  foldl (fun '(total, wsum) '(k, m) =>
           (add total (mul (mul (scores k) (weight cfg k)) m),
            add wsum (mul (weight cfg k) m)))
        (Fin 0, Fin 0) l.

Definition getRegionalScore (cfg : Config) (scores : indicator -> num)
    (md : Metadata) (t : string) : num :=
  let region := regionOf md t in
  let '(total, wsum) :=
    if cellIs (Some region) "U.S." then
      boosted cfg scores
        [(unemployment, Fin 1.5); (usCPI, Fin 1.3); (vix, Fin 1.2);
         (yieldCurve, Fin 1.1); (creditSpread, Fin 1.1)]
    else if cellIs (Some region) "Canada" then
      boosted cfg scores
        [(canCPI, Fin 1.5); (canGDP, Fin 1.4); (unemployment, Fin 0.7);
         (vix, Fin 0.8)]
    else
      foldl (fun '(total, wsum) k =>
               match WEIGHTS cfg k with
               | Some w => (add total (mul (scores k) w), add wsum w)
               | None => (total, wsum)
               end)
            (Fin 0, Fin 0) indicators in
  if truthy wsum then div total wsum else Fin 0.

(** The seven-bucket step function. *)
Definition baseShift (regionScore : num) : num :=
  if geb regionScore (Fin 1.5) then Fin 0.08
  else if geb regionScore (Fin 0.75) then Fin 0.05
  else if geb regionScore (Fin 0.25) then Fin 0.025
  else if geb regionScore (Fin (-0.25)) then Fin 0
  else if geb regionScore (Fin (-0.75)) then Fin (-0.025)
  else if geb regionScore (Fin (-1.5)) then Fin (-0.05)
  else Fin (-0.08).

(** [shift] as [calcDelta] holds it just before its [return]. *)
Definition scaledShift (cfg : Config) (scores : indicator -> num)
    (md : Metadata) (t : string) : num :=
  let regionScore := getRegionalScore cfg scores md t in
  let shift := baseShift regionScore in
  let shift := mul shift (getN (sensMap md) t) in
  if volatilityAdjustment (REBALANCING cfg) then
    let vixScore := scores vix in
    if ltb vixScore (Fin (-1)) then mul shift (Fin 0.7) else shift
  else shift.

Definition calcDelta (cfg : Config) (scores : indicator -> num)
    (md : Metadata) (t : string) : num :=
  let shift := scaledShift cfg scores md t in
  if cellIs (classMap md !! t) "Defensive" then neg shift else shift.

(** The raw shifts: [rawDelta], [defList] and [eqList] after [forEach]. *)
Definition rawShifts (cfg : Config) (scores : indicator -> num)
    (md : Metadata) (tickers : list string)
    : gmap string num * list string * list string :=
  foldl (fun '(rawDelta, defList, eqList) t =>
           let rawDelta := <[t := calcDelta cfg scores md t]> rawDelta in
           if cellIs (classMap md !! t) "Defensive"
           then (rawDelta, (defList ++ [t])%list, eqList)
           else (rawDelta, defList, (eqList ++ [t])%list))
        (∅, [], []) tickers.

(** One pass of [list.forEach(t => { net += rawDelta[t]*allocMap[t];
    alloc += allocMap[t]; })]. *)
Definition tally (allocMap rawDelta : gmap string num)
    (acc : num * num) (l : list string) : num * num :=
  foldl (fun '(net, alloc) t =>
           (add net (mul (getN rawDelta t) (getN allocMap t)),
            add alloc (getN allocMap t)))
        acc l.

(** [list.forEach(t => rawDelta[t] += c)] *)
Definition bump (rawDelta : gmap string num) (l : list string) (c : num)
    : gmap string num :=
  foldl (fun rd t => <[t := add (getN rd t) c]> rd) rawDelta l.

(** The balance offsets. *)
Definition balance (cfg : Config) (allocMap rawDelta : gmap string num)
    (defList eqList : list string) : gmap string num :=
  if balanceConstraint (REBALANCING cfg) then
    let '(net, defAlloc) := tally allocMap rawDelta (Fin 0, Fin 0) defList in
    let '(net, eqAlloc) := tally allocMap rawDelta (net, Fin 0) eqList in
    if gtb (Math_abs net) (Fin 0.001) then
      let adj := div (neg net) (Fin 2) in
      let rawDelta :=
        if truthy defAlloc then bump rawDelta defList (div adj defAlloc)
        else rawDelta in
      if truthy eqAlloc then bump rawDelta eqList (div adj eqAlloc)
      else rawDelta
    else rawDelta
  else rawDelta.

(** Normalise, take the final change of the requested ticker and format. *)
Definition finalDelta (allocMap rawDelta : gmap string num)
    (tickers : list string) (assetTicker : string) : num :=
  let sumNew :=
    foldl (fun s t => add s (proposed allocMap rawDelta t)) (Fin 0) tickers in
  let oldA := getN allocMap assetTicker in
  let newA := div (proposed allocMap rawDelta assetTicker) sumNew in
  sub (div newA oldA) (Fin 1).

(** Everything after the metadata has been loaded and checked. *)
Definition signalFor (cfg : Config) (allocMap : gmap string num)
    (tickers : list string) (md : Metadata)
    (ind : indicator -> option num) (hist : indicator -> list num)
    (assetTicker : string) : string :=
  let scores := getEnhancedMarketData cfg ind hist in
  let '(rawDelta, defList, eqList) := rawShifts cfg scores md tickers in
  let rawDelta := balance cfg allocMap rawDelta defList eqList in
  let finalD := finalDelta allocMap rawDelta tickers assetTicker in
  formatSignal (minThreshold (REBALANCING cfg)) finalD.

Definition GET_REBALANCE_SIGNAL (cfg : Config) (ss : Sheets)
    (ind : indicator -> option num) (hist : indicator -> list num)
    (assetTicker : string) : outcome string :=
  let '(allocMap, tickers) := loadAllocations (allocData ss) in
  let md := loadMetadata (meta ss) in
  if negb (hasProperty (classMap md) assetTicker) then
    Throws ("No metadata for " ++ assetTicker)
  else
    Returns (signalFor cfg allocMap tickers md ind hist assetTicker).

End V2.

(* ===================================================================== *)
(** ** V3: src/unnamed/part_001 *)
(* ===================================================================== *)

(** The scorers, [getRegionalScore], [calcDelta], the balance offsets and
    the final steps are those of V2, repeated verbatim.  The allocation
    loop differs and the metadata check is gone. *)
Module V3.

Definition parseAllocation (raw : cell) : num :=
  let a := parseFloatNoPercent raw in
  if gtb a (Fin 1) then div a (Fin 100) else a.

Definition loadAllocations (rows : list (string * cell))
    : gmap string num * list string :=
  foldl (fun '(allocMap, tickers) '(t, raw) =>
           if String.eqb t "" || cellIs (Some raw) "" then (allocMap, tickers)
           else (<[t := parseAllocation raw]> allocMap, (tickers ++ [t])%list))
        (∅, []) rows.

Definition GET_REBALANCE_SIGNAL (cfg : Config) (ss : Sheets)
    (ind : indicator -> option num) (hist : indicator -> list num)
    (assetTicker : string) : outcome string :=
  let '(allocMap, tickers) := loadAllocations (allocData ss) in
  let md := V2.loadMetadata (meta ss) in
  Returns (V2.signalFor cfg allocMap tickers md ind hist assetTicker).

End V3.

(* ===================================================================== *)
(** ** V1: src/unnamed/part_000 *)
(* ===================================================================== *)

Module V1.

(** [getConfigData] with the [rebalancing] block that
    [getRebalanceConfig] adds. *)
Definition defaultConfig : Config := {|
  THRESHOLDS := {|
    th_unemployment :=
      {| u_veryLow := Fin 3.5; u_low := Fin 4.5;
         u_high := Fin 5.5; u_veryHigh := Fin 6.5 |};
    th_cpi :=
      {| cpi_veryLow := Fin 1.0; cpi_target := Fin 2.0;
         cpi_tolerance := Fin 0.5; cpi_high := Fin 4.0 |};
    th_vix :=
      {| vix_low := Fin 15; vix_normal := Fin 20;
         vix_elevated := Fin 25; vix_high := Fin 30 |}
  |};
  WEIGHTS := fun k =>
    Some (match k with
          | unemployment => Fin 1.5
          | usCPI => Fin 1.2
          | canCPI => Fin 0.8
          | canGDP => Fin 1.0
          | vix => Fin 1.3
          | yieldCurve => Fin 1.4
          | creditSpread => Fin 1.1
          end);
  TREND_PERIODS := 3;
  REBALANCING :=
    {| minThreshold := Fin 0.005; maxSingleMove := Fin 0.15;
       volatilityAdjustment := true; balanceConstraint := true |}
|}.

(** [historicalData] is an array, or [null]/[undefined] ([None]). *)
Definition calculateTrend (historicalData : option (list num)) (periods : Z)
    : num :=
  match historicalData with
  | None => Fin 0
  | Some historicalData =>
      let len := Z.of_nat (length historicalData) in
      if (len <? 2)%Z then Fin 0
      else
        let recentPeriods := Z.min periods len in
        let recent := sliceFrom historicalData (- recentPeriods) in
        let older := slice historicalData 0 (- recentPeriods) in
        if (length older =? 0)%nat then Fin 0
        else
          let recentAvg := div (sum recent) (lengthN recent) in
          let olderAvg := div (sum older) (lengthN older) in
          let percentChange := div (sub recentAvg olderAvg) olderAvg in
          Math_max (Fin (-1)) (Math_min (Fin 1) (mul percentChange (Fin 10)))
  end.

Definition noData : ScoreObj :=
  {| score := Fin 0; desc := None; description := Some [Txt "No data"] |}.

Definition result (baseScore : num) (d : list frag) : ScoreObj :=
  {| score := Math_max (Fin (-2)) (Math_min (Fin 2) baseScore);
     desc := None; description := Some d |}.

Definition calculateUnemploymentScore (current : option num)
    (historical : option (list num)) (config : Config) : ScoreObj :=
  match current with
  | None => noData
  | Some current =>
      let t := th_unemployment (THRESHOLDS config) in
      let d := [Num current; Txt "%"] in
      let '(baseScore, d) :=
        if ltb current (u_veryLow t) then (Fin 2, addText d " (Very Low)")
        else if ltb current (u_low t) then (Fin 1, addText d " (Low)")
        else if gtb current (u_veryHigh t) then (Fin (-2), addText d " (Very High)")
        else if gtb current (u_high t) then (Fin (-1), addText d " (High)")
        else (Fin 0, addText d " (Normal)") in
      let trendAdjustment := calculateTrend historical (TREND_PERIODS config) in
      let '(baseScore, d) :=
        if neqb trendAdjustment (Fin 0) then
          (sub baseScore (mul trendAdjustment (Fin 0.5)),
           addText d (if gtb trendAdjustment (Fin 0) then " Rising" else " Falling"))
        else (baseScore, d) in
      result baseScore d
  end.

Definition calculateCPIScore (current : option num)
    (historical : option (list num)) (config : Config) (region : string)
    : ScoreObj :=
  match current with
  | None => noData
  | Some current =>
      let target := cpi_target (th_cpi (THRESHOLDS config)) in
      let tolerance := cpi_tolerance (th_cpi (THRESHOLDS config)) in
      let d := [Num current; Txt "%"] in
      let '(baseScore, d) :=
        if ltb current (cpi_veryLow (th_cpi (THRESHOLDS config)))
          then (Fin (-1), addText d " (Deflation Risk)")
        else if leb (Math_abs (sub current target)) tolerance
          then (Fin 1, addText d " (On Target)")
        else if gtb current (cpi_high (th_cpi (THRESHOLDS config)))
          then (Fin (-2), addText d " (High Inflation)")
        else if gtb current (add target tolerance)
          then (Fin (-1), addText d " (Above Target)")
        else (Fin 0, addText d " (Below Target)") in
      let trendAdjustment := calculateTrend historical (TREND_PERIODS config) in
      let '(baseScore, d) :=
        if neqb trendAdjustment (Fin 0) then
          ((if gtb current (cpi_veryLow (th_cpi (THRESHOLDS config)))
            then sub baseScore (mul trendAdjustment (Fin 0.3))
            else baseScore),
           addText d (if gtb trendAdjustment (Fin 0) then " Rising" else " Falling"))
        else (baseScore, d) in
      result baseScore d
  end.

Definition calculateVIXScore (current : option num)
    (historical : option (list num)) (config : Config) : ScoreObj :=
  match current with
  | None => noData
  | Some current =>
      let t := th_vix (THRESHOLDS config) in
      let d := [Txt (toFixed 1 current)] in
      let '(baseScore, d) :=
        if ltb current (vix_low t) then (Fin 1, addText d " (Low Vol)")
        else if ltb current (vix_normal t) then (Fin 0.5, addText d " (Normal)")
        else if ltb current (vix_elevated t) then (Fin (-0.5), addText d " (Elevated)")
        else if ltb current (vix_high t) then (Fin (-1), addText d " (High)")
        else (Fin (-2), addText d " (Very High)") in
      let trendAdjustment := calculateTrend historical (TREND_PERIODS config) in
      let '(baseScore, d) :=
        if neqb trendAdjustment (Fin 0) then
          (sub baseScore (mul trendAdjustment (Fin 0.4)),
           addText d (if gtb trendAdjustment (Fin 0) then " Rising" else " Falling"))
        else (baseScore, d) in
      result baseScore d
  end.

Definition growthTerms : list string :=
  ["rising"; "growing"; "increasing"; "up"; "positive"; "expanding"].
Definition declineTerms : list string :=
  ["falling"; "declining"; "decreasing"; "down"; "negative"; "contracting"].

(** [current] is the 'Can GDP' cell as [getIndicatorData] passes it on,
    or [null].  A number has no [toLowerCase]: on a number other than 0
    and NaN the call [current.toLowerCase()] throws a TypeError. *)
Definition calculateGDPScore (current : option cell)
    (historical : option (list num)) (config : Config) : outcome ScoreObj :=
  match current with
  | None => Returns noData
  | Some (CNum x) =>
      if negb (truthy x) then Returns noData
      else Throws "current.toLowerCase is not a function"
  | Some (CStr current) =>
      if String.eqb current "" then Returns noData
      else
        let currentLower := toLowerCase current in
        let score :=
          if existsb (fun term => includes currentLower term) growthTerms
            then Fin 1
          else if existsb (fun term => includes currentLower term) declineTerms
            then Fin (-1)
          else Fin 0 in
        Returns {| score := score; desc := None;
                   description := Some [Txt current] |}
  end.

Definition calculateYieldScore (current : option num)
    (historical : option (list num)) (config : Config) : ScoreObj :=
  match current with
  | None => noData
  | Some current =>
      let d := [Txt (toFixed 2 current); Txt "%"] in
      let '(baseScore, d) :=
        if gtb current (Fin 0.5) then (Fin 1, addText d " (Positive)")
        else if gtb current (Fin (-0.5)) then (Fin 0, addText d " (Flat)")
        else if gtb current (Fin (-1.0)) then (Fin (-1), addText d " (Inverted)")
        else (Fin (-2), addText d " (Deep Inversion)") in
      let trendAdjustment := calculateTrend historical (TREND_PERIODS config) in
      let '(baseScore, d) :=
        if neqb trendAdjustment (Fin 0) then
          (add baseScore (mul trendAdjustment (Fin 0.3)),
           addText d (if gtb trendAdjustment (Fin 0) then " Steepening" else " Flattening"))
        else (baseScore, d) in
      result baseScore d
  end.

Definition calculateCreditScore (current : option num)
    (historical : option (list num)) (config : Config) : ScoreObj :=
  match current with
  | None => noData
  | Some current =>
      let d := [Txt (toFixed 2 current); Txt "%"] in
      let '(baseScore, d) :=
        if ltb current (Fin 1.0) then (Fin 1, addText d " (Low)")
        else if ltb current (Fin 2.0) then (Fin 0, addText d " (Normal)")
        else if ltb current (Fin 3.0) then (Fin (-1), addText d " (Elevated)")
        else (Fin (-2), addText d " (High)") in
      let trendAdjustment := calculateTrend historical (TREND_PERIODS config) in
      let '(baseScore, d) :=
        if neqb trendAdjustment (Fin 0) then
          (sub baseScore (mul trendAdjustment (Fin 0.4)),
           addText d (if gtb trendAdjustment (Fin 0) then " Widening" else " Tightening"))
        else (baseScore, d) in
      result baseScore d
  end.

(** [getEnhancedMarketData(ss).scores].  [ind k] is the numeric reading
    of [getIndicatorData] ([None] for [null]), [gdp] its [canGDP] field,
    the 'Can GDP' cell or [null], [historical] the result of
    [getHistoricalDataFromFRED]: [null], or an object whose missing keys
    read as [undefined].  The call throws when the GDP scorer does. *)
Definition getEnhancedMarketData (config : Config)
    (ind : indicator -> option num) (gdp : option cell)
    (historical : option (indicator -> option (list num)))
    : outcome (indicator -> num) :=
  let h k := match historical with Some hm => hm k | None => None end in
  match calculateGDPScore gdp (h canGDP) config with
  | Throws msg => Throws msg
  | Returns gdpScore =>
      Returns (fun k =>
        match k with
        | unemployment =>
            score (calculateUnemploymentScore (ind unemployment)
                     (h unemployment) config)
        | usCPI => score (calculateCPIScore (ind usCPI) (h usCPI) config "US")
        | canCPI =>
            score (calculateCPIScore (ind canCPI) (h canCPI) config "CAN")
        | canGDP => score gdpScore
        | vix => score (calculateVIXScore (ind vix) (h vix) config)
        | yieldCurve =>
            score (calculateYieldScore (ind yieldCurve) (h yieldCurve) config)
        | creditSpread =>
            score (calculateCreditScore (ind creditSpread)
                     (h creditSpread) config)
        end)
  end.

Definition parseAllocation (raw : cell) : num :=
  match raw with
  | CStr s =>
      if endsWithPercent (trim s) then div (parseFloat s) (Fin 100)
      else parseFloat s
  | CNum _ => parseFloatCell raw
  end.

Definition loadAllocations (rows : list (string * cell))
    : gmap string num * list string :=
  foldl (fun '(allocMap, tickers) '(t, raw) =>
           let a := parseAllocation raw in
           if negb (String.eqb t "") && negb (isNaN a)
           then (<[t := a]> allocMap, (tickers ++ [t])%list)
           else (allocMap, tickers))
        (∅, []) rows.

Definition loadMetadata (rows : list (string * cell * cell * cell)) : Metadata :=
  foldl (fun md '(asset, r1, r2, r3) =>
           {| classMap := <[asset := r1]> (classMap md);
              regionMap := <[asset := r2]> (regionMap md);
              sensMap := <[asset := or_else (parseFloatCell r3) (Fin 1.0)]> (sensMap md) |})
        {| classMap := ∅; regionMap := ∅; sensMap := ∅ |} rows.

Definition regionOf (md : Metadata) (ticker : string) : cell :=
  match regionMap md !! ticker with
  | Some c => if truthyCell c then c else CStr "Global"
  | None => CStr "Global"
  end.

Definition weighted (config : Config) (scores : indicator -> num)
    (l : list (indicator * num)) : num * num :=
  foldl (fun '(totalScore, totalWeight) '(k, m) =>
           (add totalScore (mul (mul (scores k) (weight config k)) m),
            add totalWeight (mul (weight config k) m)))
        (Fin 0, Fin 0) l.

Definition getRegionalScore (config : Config) (scores : indicator -> num)
    (md : Metadata) (ticker : string) : num :=
  let region := regionOf md ticker in
  let '(totalScore, totalWeight) :=
    if cellIs (Some region) "U.S." then
      weighted config scores
        [(unemployment, Fin 1.5); (usCPI, Fin 1.3); (vix, Fin 1.2);
         (yieldCurve, Fin 1.1); (creditSpread, Fin 1.1)]
    else if cellIs (Some region) "Canada" then
      weighted config scores
        [(canCPI, Fin 1.5); (canGDP, Fin 1.4); (unemployment, Fin 0.7);
         (vix, Fin 0.8)]
    else
      foldl (fun '(totalScore, totalWeight) key =>
               if truthy (weight config key)
               then (add totalScore (mul (scores key) (weight config key)),
                     add totalWeight (weight config key))
               else (totalScore, totalWeight))
            (Fin 0, Fin 0) indicators in
  if gtb totalWeight (Fin 0) then div totalScore totalWeight else Fin 0.

(** [sensitivityMap[ticker] || 1.0]: without an entry of its own the
    ticker reads as [undefined] and gets 1, unless it names an inherited
    member: that is a function, which [||] keeps and the product turns
    into NaN. *)
Definition sensitivityOf (md : Metadata) (ticker : string) : num :=
  match sensMap md !! ticker with
  | Some s => or_else s (Fin 1.0)
  | None => if inherited ticker then NaN else Fin 1.0
  end.

Definition calculateEnhancedDelta (config : Config) (scores : indicator -> num)
    (md : Metadata) (ticker : string) : num :=
  let regionalScore := getRegionalScore config scores md ticker in
  let sensitivity := sensitivityOf md ticker in
  let assetClass := classMap md !! ticker in
  let baseShift := V2.baseShift regionalScore in
  let baseShift := mul baseShift sensitivity in
  let vixScore := or_else (scores vix) (Fin 0) in
  let baseShift :=
    if ltb vixScore (Fin (-1)) then mul baseShift (Fin 0.7) else baseShift in
  if cellIs assetClass "Defensive" then
    (if gtb regionalScore (Fin 0) then neg baseShift else baseShift)
  else
    (if gtb regionalScore (Fin 0) then baseShift else neg baseShift).

Definition defList (md : Metadata) (tickers : list string) : list string :=
  List.filter (fun t => cellIs (classMap md !! t) "Defensive") tickers.
Definition eqList (md : Metadata) (tickers : list string) : list string :=
  List.filter (fun t => cellIs (classMap md !! t) "Equity") tickers.

Definition rawDeltas (config : Config) (scores : indicator -> num)
    (md : Metadata) (tickers : list string) : gmap string num :=
  foldl (fun rawDelta t =>
           <[t := calculateEnhancedDelta config scores md t]> rawDelta)
        ∅ tickers.

(** One pass of [list.forEach(function(t) { move += rawDelta[t] *
    allocMap[t]; alloc += allocMap[t]; })]. *)
Definition totals (allocMap rawDelta : gmap string num) (l : list string)
    : num * num :=
  foldl (fun '(move, alloc) t =>
           (add move (mul (getN rawDelta t) (getN allocMap t)),
            add alloc (getN allocMap t)))
        (Fin 0, Fin 0) l.

(** The portfolio balance constraint. *)
Definition balance (allocMap rawDelta : gmap string num)
    (defList eqList : list string) : gmap string num :=
  let '(totalDefMove, totalDefAlloc) := totals allocMap rawDelta defList in
  let '(totalEqMove, totalEqAlloc) := totals allocMap rawDelta eqList in
  let netMove := add totalDefMove totalEqMove in
  if gtb (Math_abs netMove) (Fin 0.001) then
    let adjustment := div (neg netMove) (Fin 2) in
    let rawDelta :=
      if gtb totalDefAlloc (Fin 0)
      then V2.bump rawDelta defList (div adjustment totalDefAlloc)
      else rawDelta in
    if gtb totalEqAlloc (Fin 0)
    then V2.bump rawDelta eqList (div adjustment totalEqAlloc)
    else rawDelta
  else rawDelta.

(** Steps 8 and 9: raw new allocations, their sum, and the final change
    of the requested ticker. *)
Definition finalDelta (allocMap rawDelta : gmap string num)
    (tickers : list string) (assetTicker : string) : num :=
  let '(sumRaw, rawAlloc) :=
    foldl (fun '(sumRaw, rawAlloc) t =>
             let r := proposed allocMap rawDelta t in
             (add sumRaw r, <[t := r]> rawAlloc))
          (Fin 0, (∅ : gmap string num)) tickers in
  let oldA := getN allocMap assetTicker in
  let normalized := div (getN rawAlloc assetTicker) sumRaw in
  sub (div normalized oldA) (Fin 1).

(** Steps 4 to 10, once the scores are there and the requested ticker
    has passed the metadata check. *)
Definition signalFor (config : Config) (allocMap : gmap string num)
    (tickers : list string) (md : Metadata) (scores : indicator -> num)
    (assetTicker : string) : string :=
  let rawDelta := rawDeltas config scores md tickers in
  let rawDelta :=
    balance allocMap rawDelta (defList md tickers) (eqList md tickers) in
  let finalD := finalDelta allocMap rawDelta tickers assetTicker in
  let minThreshold := Fin 0.005 in
  formatSignal minThreshold finalD.

(** The market data are computed in step 2, before the metadata are
    loaded and checked: an error of the GDP scorer comes first. *)
Definition GET_REBALANCE_SIGNAL (config : Config) (ss : Sheets)
    (ind : indicator -> option num) (gdp : option cell)
    (historical : option (indicator -> option (list num)))
    (assetTicker : string) : outcome string :=
  let '(allocMap, tickers) := loadAllocations (allocData ss) in
  match getEnhancedMarketData config ind gdp historical with
  | Throws msg => Throws msg
  | Returns scores =>
      let md := loadMetadata (meta ss) in
      if negb (hasProperty (classMap md) assetTicker) then
        Throws ("No metadata for " ++ assetTicker ++ " – check Asset Metadata")
      else Returns (signalFor config allocMap tickers md scores assetTicker)
  end.

(** [determineSignal(score, config)] *)
Definition determineSignal (score : num) : string :=
  let roundedScore := div (Math_round (mul score (Fin 2))) (Fin 2) in
  if geb score (Fin 1.5) then "Strong Growth (" ++ toFixed 1 roundedScore ++ ")"
  else if geb score (Fin 0.5) then "Weak Growth (" ++ toFixed 1 roundedScore ++ ")"
  else if geb score (Fin (-0.5)) then "Neutral (" ++ toFixed 1 roundedScore ++ ")"
  else if geb score (Fin (-1.5)) then
    "Weak Defensive (" ++ toFixed 1 roundedScore ++ ")"
  else "Strong Defensive (" ++ toFixed 1 roundedScore ++ ")".

(** The seven analyses of [GET_SIGNAL_STRENGTH], in its order (GDP comes
    after VIX), each with the prefix of its line of details. *)
Definition analyses (config : Config)
    (ind : indicator -> option num) (gdp : option cell)
    (historical : option (indicator -> option (list num)))
    : outcome (list (ScoreObj * indicator * string)) :=
  let h k := match historical with Some hm => hm k | None => None end in
  match calculateGDPScore gdp (h canGDP) config with
  | Throws msg => Throws msg
  | Returns gdpScore =>
      Returns
        [ (calculateUnemploymentScore (ind unemployment) (h unemployment)
             config,
           unemployment, "Unemployment: ");
          (calculateCPIScore (ind usCPI) (h usCPI) config "US",
           usCPI, "US CPI: ");
          (calculateCPIScore (ind canCPI) (h canCPI) config "CAN",
           canCPI, "Can CPI: ");
          (calculateVIXScore (ind vix) (h vix) config, vix, "VIX: ");
          (gdpScore, canGDP, "GDP: ");
          (calculateYieldScore (ind yieldCurve) (h yieldCurve) config,
           yieldCurve, "Yield: ");
          (calculateCreditScore (ind creditSpread) (h creditSpread) config,
           creditSpread, "Credit: ") ]
  end.

(** [finalScore = totalScore / totalWeight] of [GET_SIGNAL_STRENGTH]:
    the weights are read as they are, and the division is not guarded. *)
Definition finalScore (config : Config)
    (results : list (ScoreObj * indicator * string)) : num :=
  let '(totalScore, totalWeight) :=
    foldl (fun '(totalScore, totalWeight) '(r, k, _) =>
             (add totalScore (mul (score r) (weight config k)),
              add totalWeight (weight config k)))
          (Fin 0, Fin 0) results in
  div totalScore totalWeight.

(** [details.join("; ")] *)
Fixpoint joinDetails (details : list (list frag)) : list frag :=
  match details with
  | [] => []
  | [d] => d
  | d :: rest => (d ++ Txt "; " :: joinDetails rest)%list
  end.

(** [GET_SIGNAL_STRENGTH()]; [showDetails] is [config.showDetails]. *)
Definition GET_SIGNAL_STRENGTH (config : Config) (showDetails : bool)
    (ind : indicator -> option num) (gdp : option cell)
    (historical : option (indicator -> option (list num)))
    : outcome (list frag) :=
  match analyses config ind gdp historical with
  | Throws msg => Throws msg
  | Returns results =>
      let details :=
        map (fun '(r, _, label) =>
               match description r with
               | Some d => Txt label :: d
               | None => [Txt label; Txt "undefined"]
               end)
            results in
      let signal := determineSignal (finalScore config results) in
      Returns (if showDetails
               then (Txt signal :: Txt " | Details: " :: joinDetails details)
               else [Txt signal])
  end.





(** The numeric reading that the scorers receive from a field. *)
Definition reading (v : option cell) : option num :=
  match v with
  | Some (CNum x) => Some x
  | _ => None
  end.

(** [GET_CANADIAN_GDP_TREND()] on the fetched observation values,
    oldest first. *)
Definition GET_CANADIAN_GDP_TREND (obs : list string) : string :=
  if (length obs <? 2)%nat then "Error: Not enough data points"
  else
    let latest := parseFloat (nth (length obs - 1) obs "") in
    let prev := parseFloat (nth (length obs - 2) obs "") in
    if gtb latest prev then "Rising"
    else if ltb latest prev then "Shrinking"
    else "No change".

(** [fetchFredSeries] on the fetched observations [(date, value)]:
    filter, parse, reverse. *)
Definition fetchFredSeries (observations : list (string * string))
    : list (string * num) :=
  rev (map (fun obs => (fst obs, parseFloat (snd obs)))
         (List.filter (fun obs => negb (String.eqb (snd obs) ".")
                                  && negb (isNaN (parseFloat (snd obs))))
            observations)).

End V1.

(* ===================================================================== *)
(** ** src/browser-snippet.js *)
(* ===================================================================== *)

Module Browser.

Inductive res (A : Type) : Type :=
  | Ok (a : A)
  | Err (msg : string).
Arguments Ok {A} a.
Arguments Err {A} msg.

(** [findTableWithMostRows]: a table is given by its list of body rows. *)
Definition findTableWithMostRows {A} (tables : list (list A)) : res (list A) :=
  match tables with
  | [] => Err "No transaction tables found."
  | _ =>
      let '(bestTable, maxRows) :=
        foldl (fun '(bestTable, maxRows) table =>
                 let rowCount := length table in
                 if (maxRows <? rowCount)%nat then (Some table, rowCount)
                 else (bestTable, maxRows))
              (None, 0%nat) tables in
      match bestTable with
      | None => Err "Could not find a suitable transaction table."
      | Some t => Ok t
      end
  end.

End Browser.

(* ===================================================================== *)
(** ** Notions used in the statements *)
(* ===================================================================== *)

Module Notions.

Local Open Scope Q_scope.

(** [classMap[t] === 'Defensive'] *)
Definition isDefensive (md : Metadata) (t : string) : bool :=
  cellIs (classMap md !! t) "Defensive".

(** NaN, or a finite number equal to zero. *)
Definition nanOrZero (x : num) : Prop :=
  x = NaN \/ exists z, x = Fin z /\ z == 0.

(** A character that no part of a decimal literal can start with or
    continue on. *)
Definition inert (c : ascii) : Prop :=
  isWhite c = false /\ isDigit c = false
  /\ Ascii.eqb c "-"%char = false /\ Ascii.eqb c "+"%char = false
  /\ Ascii.eqb c "."%char = false
  /\ Ascii.eqb c "e"%char = false /\ Ascii.eqb c "E"%char = false
  /\ ~ In c (list_ascii_of_string "Infinity"%string).

(** The rational behind a finite entry, and sums of rationals. *)
Definition qv (m : gmap string num) (t : string) : Q :=
  match m !! t with
  | Some (Fin q) => q
  | _ => 0
  end.

Fixpoint qsum (f : string -> Q) (l : list string) : Q :=
  match l with
  | [] => 0
  | t :: r => f t + qsum f r
  end.

(** The rational behind a finite number. *)
Definition qOf (x : num) : Q :=
  match x with
  | Fin q => q
  | _ => 0
  end.

(** Both numbers are finite and [a <= b]. *)
Definition finLe (a b : num) : Prop :=
  exists qa qb, a = Fin qa /\ b = Fin qb /\ qa <= qb.

(** NaN, [+Infinity], or a finite number that is not negative. *)
Definition notNegative (x : num) : Prop :=
  x = NaN \/ x = PInf \/ exists q, x = Fin q /\ 0 <= q.


(** What the metadata loop keeps: the three maps have the same keys and
    no stored sensitivity is 0 or NaN. *)
Definition metadataLoaded (md : Metadata) : Prop :=
  (forall t, is_Some (classMap md !! t) <-> is_Some (sensMap md !! t))
  /\ (forall t, is_Some (classMap md !! t) <-> is_Some (regionMap md !! t))
  /\ (forall t s, sensMap md !! t = Some s -> truthy s = true).

End Notions.

Import Notions.

(* ===================================================================== *)
(** ** Inputs used in the examples below *)
(* ===================================================================== *)

Module Examples.

Definition noHist : indicator -> list num := fun _ => [].

(** No reading at all: every score is 0. *)
Definition calm : indicator -> option num := fun _ => None.

(** High unemployment and a high VIX. *)
Definition stressed : indicator -> option num :=
  fun k =>
    match k with
    | unemployment => Some (Fin 7.0)
    | vix => Some (Fin 35)
    | _ => None
    end.

Definition oneEquity : Metadata :=
  V1.loadMetadata [("XEQT.TO", CStr "Equity", CStr "Global", CNum (Fin 1))].

Definition mixedMeta : Metadata :=
  V1.loadMetadata
    [("CASH.TO", CStr "Defensive", CStr "Canada", CNum (Fin 1));
     ("GLD", CStr "Commodity", CStr "Global", CNum (Fin 1));
     ("XEQT.TO", CStr "Equity", CStr "Global", CNum (Fin 1))].

(** 'XYZ' has an allocation and no metadata row. *)
Definition sheetsUnknown : Sheets := {|
  allocData := [("CASH.TO", CStr "50%"); ("XYZ", CStr "50%")];
  meta := [("CASH.TO", CStr "Defensive", CStr "Canada", CNum (Fin 1))]
|}.

(** 'ZLB.TO' has a metadata row and an allocation of zero. *)
Definition sheetsZero : Sheets := {|
  allocData := [("CASH.TO", CStr "100%"); ("ZLB.TO", CStr "0%")];
  meta := [("CASH.TO", CStr "Defensive", CStr "Canada", CNum (Fin 1));
           ("ZLB.TO", CStr "Equity", CStr "Canada", CNum (Fin 0.9))]
|}.

(** Growth ticker A at 60% with raw delta +0.04, defensive ticker B at 40%
    with raw delta +0.02: a net move of 0.032. *)
Definition allocD : gmap string num :=
  <["A" := Fin 0.6]> (<["B" := Fin 0.4]> ∅).
Definition deltaD : gmap string num :=
  <["A" := Fin 0.04]> (<["B" := Fin 0.02]> ∅).

(** Two tickers at 50% each with raw deltas +0.0016 and 0: a net move of
    0.0008. *)
Definition allocHalf : gmap string num :=
  <["A" := Fin 0.5]> (<["B" := Fin 0.5]> ∅).
Definition deltaSmall : gmap string num :=
  <["A" := Fin 0.0016]> (<["B" := Fin 0]> ∅).

(** 'A' is a U.S. equity, 'B' a Canadian defensive asset. *)
Definition metaAB : Metadata :=
  V2.loadMetadata [("A", CStr "Equity", CStr "U.S.", CNum (Fin 1));
                   ("B", CStr "Defensive", CStr "Canada", CNum (Fin 1))].

(** The configuration of V2 with the balance constraint switched off. *)
Definition noBalance : Config := {|
  THRESHOLDS := THRESHOLDS V2.CONFIG;
  WEIGHTS := WEIGHTS V2.CONFIG;
  TREND_PERIODS := TREND_PERIODS V2.CONFIG;
  REBALANCING :=
    {| minThreshold := Fin 0.005; maxSingleMove := Fin 0.15;
       volatilityAdjustment := true; balanceConstraint := false |}
|}.

(** The ticker 'A' listed twice. *)
Definition rowsTwice : list (string * cell) :=
  [("A", CStr "30%"); ("A", CStr "30%"); ("B", CStr "40%")].

(** 40% defensive, 20% of a commodity, 40% equity. *)
Definition allocMixed : gmap string num :=
  <["CASH.TO" := Fin 0.4]> (<["GLD" := Fin 0.2]> (<["XEQT.TO" := Fin 0.4]> ∅)).

(** A short position of 40% in the defensive asset 'B'. *)
Definition allocShort : gmap string num :=
  <["A" := Fin 1.4]> (<["B" := Fin (-0.4)]> ∅).

(** The raw delta of 'B' is not a number. *)
Definition deltaNaN : gmap string num :=
  <["A" := Fin 0.04]> (<["B" := NaN]> ∅).

End Examples.

Import Examples.

(* ===================================================================== *)
(** ** Facts about the number model *)
(* ===================================================================== *)

Local Open Scope Q_scope.

Section NumFacts.

Lemma Qeq_bool_zero (q : Q) : q == 0 -> Qeq_bool q 0 = true.
Proof. intros H. apply Qeq_bool_iff, H. Qed.

Lemma Qeq_bool_nonzero (q : Q) : ~ q == 0 -> Qeq_bool q 0 = false.
Proof.
  intros H. destruct (Qeq_bool q 0) eqn:E; [|reflexivity].
  apply Qeq_bool_iff in E. contradiction.
Qed.

Lemma Qltb_true (a b : Q) : Qltb a b = true <-> a < b.
Proof.
  unfold Qltb. rewrite negb_true_iff. split.
  - intros H. apply Qnot_le_lt. intros Hle.
    apply Qle_bool_iff in Hle. congruence.
  - intros H. destruct (Qle_bool b a) eqn:E; [|reflexivity].
    apply Qle_bool_iff in E. lra.
Qed.

(** [Math.max(lo, Math.min(hi, x))] is NaN for NaN and inside [lo, hi]
    for every other [x]. *)
Lemma clamp_inRange (lo hi : Q) (x : num) :
  lo <= hi -> x <> NaN ->
  inRange lo hi (Math_max (Fin lo) (Math_min (Fin hi) x)).
Proof.
  intros Hlh Hx. unfold inRange, Math_max, Math_min.
  destruct x as [q| | |]; simpl; try congruence.
  - destruct (Qcompare_spec hi q) as [E|E|E]; simpl.
    + destruct (Qcompare_spec lo hi); eexists; split; eauto; lra.
    + destruct (Qcompare_spec lo hi); eexists; split; eauto; lra.
    + destruct (Qcompare_spec lo q); eexists; split; eauto; lra.
  - destruct (Qcompare_spec lo hi); eexists; split; eauto; lra.
  - exists lo. split; [reflexivity | lra].
Qed.

Lemma clamp_nan_or_inRange (lo hi : Q) (x : num) :
  lo <= hi ->
  let y := Math_max (Fin lo) (Math_min (Fin hi) x) in
  y = NaN \/ inRange lo hi y.
Proof.
  intros Hlh y. subst y. destruct x as [q| | |].
  2-3: right; apply clamp_inRange; [assumption | discriminate].
  - right. apply clamp_inRange; [assumption | discriminate].
  - left. reflexivity.
Qed.

End NumFacts.

(* ===================================================================== *)
(** ** The trend estimator *)
(* ===================================================================== *)

Section Trend.

Lemma V2_trend_shape (historical : list num) (periods : Z) :
  V2.calculateTrend historical periods = NaN
  \/ inRange (-1) 1 (V2.calculateTrend historical periods).
Proof.
  unfold V2.calculateTrend.
  destruct (_ <? _)%Z; [right; exists 0; split; [reflexivity | lra] |].
  destruct (_ =? _)%nat; [right; exists 0; split; [reflexivity | lra] |].
  apply clamp_nan_or_inRange. lra.
Qed.

Lemma slice_neg_length {A} (arr : list A) :
  slice arr 0 (- Z.of_nat (length arr)) = [].
Proof.
  unfold slice, clampIndex. rewrite Z.ltb_irrefl.
  destruct (Z.ltb_spec (- Z.of_nat (length arr)) 0).
  - replace (Z.to_nat _) with 0%nat by lia. reflexivity.
  - replace (Z.to_nat _) with 0%nat by lia. reflexivity.
Qed.

(** C4.  A series shorter than [periods + 1] has trend exactly 0, in the
    estimator of V2/V3 and in that of V1. *)
Theorem calculateTrend_short_series (historical : list num) (periods : Z) :
  (Z.of_nat (length historical) < periods + 1)%Z ->
  V2.calculateTrend historical periods = Fin 0
  /\ V1.calculateTrend (Some historical) periods = Fin 0.
Proof.
  intros Hlen. split.
  - unfold V2.calculateTrend.
    destruct (Z.ltb_spec (Z.of_nat (length historical)) (periods + 1));
      [reflexivity | lia].
  - unfold V1.calculateTrend.
    destruct (Z.ltb_spec (Z.of_nat (length historical)) 2); [reflexivity |].
    replace (Z.min periods (Z.of_nat (length historical)))
      with (Z.of_nat (length historical)) by lia.
    rewrite slice_neg_length. reflexivity.
Qed.

Lemma calculateTrend_short_series_witness :
  V2.calculateTrend [Fin 4.1; Fin 4.2] 3 = Fin 0
  /\ V1.calculateTrend (Some [Fin 4.1; Fin 4.2]) 3 = Fin 0.
Proof.
  apply (calculateTrend_short_series [Fin 4.1; Fin 4.2] 3). simpl. lia.
Defined.

Lemma avg_nil : V2.avg [] = NaN.
Proof. reflexivity. Qed.

Lemma Qcompare_shift (r o : Q) : o == 0 -> (r + - o ?= 0) = (r ?= 0).
Proof.
  intros Ho. assert (E : r + - o == r) by (rewrite Ho; ring).
  rewrite E. reflexivity.
Qed.

(** C3, as the code has it.  There is no guard on [avg(older) == 0]: the
    division by zero is carried out and its result clamped, so the trend
    is 1 or -1 by the sign of [avg(recent)], and NaN when that is zero
    too. *)
Theorem calculateTrend_zero_older
    (historical : list num) (periods : Z) (o r : Q) :
  (Z.of_nat (length historical) >= periods + 1)%Z ->
  V2.avg (V2.olderOf historical periods) = Fin o ->
  o == 0 ->
  V2.avg (V2.recentOf historical periods) = Fin r ->
  V2.calculateTrend historical periods
  = match r ?= 0 with Gt => Fin 1 | Lt => Fin (-1) | Eq => NaN end.
Proof.
  intros Hlen Ho Hz Hr. unfold V2.calculateTrend.
  destruct (Z.ltb_spec (Z.of_nat (length historical)) (periods + 1));
    [lia |].
  destruct (V2.olderOf historical periods) as [|x older] eqn:Eo.
  { rewrite avg_nil in Ho. discriminate. }
  cbn [length Nat.eqb]. rewrite Hr, Ho.
  unfold sub, neg, add, div. rewrite (Qeq_bool_zero o Hz).
  unfold inf_times. rewrite (Qcompare_shift r o Hz).
  destruct (r ?= 0); reflexivity.
Qed.

Lemma calculateTrend_zero_older_witness :
  V2.calculateTrend [Fin 0; Fin (-2); Fin (-1); Fin (-3)] 3 = Fin (-1).
Proof.
  apply (calculateTrend_zero_older
           [Fin 0; Fin (-2); Fin (-1); Fin (-3)] 3 (0 / 1) (-6 / 3)).
  - simpl. lia.
  - reflexivity.
  - reflexivity.
  - reflexivity.
Defined.

(** C3, as stated, fails: the older prefix [[0]] averages 0 and the
    trend is 1, not 0. *)
Lemma calculateTrend_zero_older_counterexample :
  (Z.of_nat (length [Fin 0; Fin 1; Fin 1; Fin 1]) >= 3 + 1)%Z
  /\ num_eq (V2.avg (V2.olderOf [Fin 0; Fin 1; Fin 1; Fin 1] 3)) (Fin 0)
  /\ V2.calculateTrend [Fin 0; Fin 1; Fin 1; Fin 1] 3 = Fin 1
  /\ V2.calculateTrend [Fin 0; Fin 1; Fin 1; Fin 1] 3 <> Fin 0.
Proof.
  repeat split.
  - simpl. lia.
  - vm_compute. discriminate.
Qed.

End Trend.

(* ===================================================================== *)
(** ** The indicator scorers *)
(* ===================================================================== *)

Section Scorers.

Ltac split_ifs :=
  repeat match goal with
         | |- context [if ?c then _ else _] => destruct c
         end.

Ltac clamped :=
  cbn [score V2.result V1.result];
  apply clamp_inRange; [lra | unfold sub, neg, add, mul; discriminate].

Lemma inRange_lit (lo hi q : Q) : lo <= q <= hi -> inRange lo hi (Fin q).
Proof. intros H. exists q. split; [reflexivity | exact H]. Qed.

Lemma V2_unemployment_clamped cfg curr hist :
  inRange (-2) 2 (score (V2.calculateUnemploymentScore cfg curr hist)).
Proof.
  unfold V2.calculateUnemploymentScore.
  destruct curr as [curr|]; [| apply inRange_lit; lra].
  destruct (V2_trend_shape hist (TREND_PERIODS cfg)) as [-> | [t [-> Ht]]];
    cbn [truthy]; split_ifs; clamped.
Qed.

Lemma V2_cpi_clamped cfg curr hist region :
  inRange (-2) 2 (score (V2.calculateCPIScore cfg curr hist region)).
Proof.
  unfold V2.calculateCPIScore.
  destruct curr as [curr|]; [| apply inRange_lit; lra].
  destruct (V2_trend_shape hist (TREND_PERIODS cfg)) as [-> | [t [-> Ht]]];
    cbn [truthy Math_sign]; split_ifs;
    try destruct (t ?= 0); clamped.
Qed.

Lemma V2_vix_clamped cfg curr hist :
  inRange (-2) 2 (score (V2.calculateVIXScore cfg curr hist)).
Proof.
  unfold V2.calculateVIXScore.
  destruct curr as [curr|]; [| apply inRange_lit; lra].
  destruct (V2_trend_shape hist (TREND_PERIODS cfg)) as [-> | [t [-> Ht]]];
    cbn [truthy]; split_ifs; clamped.
Qed.

Lemma V2_gdp_clamped curr :
  inRange (-2) 2 (score (V2.calculateGDPScore curr)).
Proof.
  unfold V2.calculateGDPScore.
  destruct curr as [c|]; [| apply inRange_lit; lra].
  destruct (negb (truthyCell c)); [apply inRange_lit; lra |].
  destruct c; cbn [score]; split_ifs; apply inRange_lit; lra.
Qed.

Lemma V2_yield_clamped cfg curr hist :
  inRange (-2) 2 (score (V2.calculateYieldScore cfg curr hist)).
Proof.
  unfold V2.calculateYieldScore.
  destruct curr as [curr|]; [| apply inRange_lit; lra].
  destruct (V2_trend_shape hist (TREND_PERIODS cfg)) as [-> | [t [-> Ht]]];
    cbn [truthy]; split_ifs; clamped.
Qed.

Lemma V2_credit_clamped cfg curr hist :
  inRange (-2) 2 (score (V2.calculateCreditScore cfg curr hist)).
Proof.
  unfold V2.calculateCreditScore.
  destruct curr as [curr|]; [| apply inRange_lit; lra].
  destruct (V2_trend_shape hist (TREND_PERIODS cfg)) as [-> | [t [-> Ht]]];
    cbn [truthy]; split_ifs; clamped.
Qed.

Lemma V1_unemployment_clamped current historical config :
  inRange (-1) 1 (V1.calculateTrend historical (TREND_PERIODS config)) ->
  inRange (-2) 2 (score (V1.calculateUnemploymentScore current historical config)).
Proof.
  intros [t [Et Ht]]. unfold V1.calculateUnemploymentScore.
  destruct current as [current|]; [| apply inRange_lit; lra].
  rewrite Et. split_ifs; clamped.
Qed.

Lemma V1_cpi_clamped current historical config region :
  inRange (-1) 1 (V1.calculateTrend historical (TREND_PERIODS config)) ->
  inRange (-2) 2 (score (V1.calculateCPIScore current historical config region)).
Proof.
  intros [t [Et Ht]]. unfold V1.calculateCPIScore.
  destruct current as [current|]; [| apply inRange_lit; lra].
  rewrite Et. split_ifs; clamped.
Qed.

Lemma V1_vix_clamped current historical config :
  inRange (-1) 1 (V1.calculateTrend historical (TREND_PERIODS config)) ->
  inRange (-2) 2 (score (V1.calculateVIXScore current historical config)).
Proof.
  intros [t [Et Ht]]. unfold V1.calculateVIXScore.
  destruct current as [current|]; [| apply inRange_lit; lra].
  rewrite Et. split_ifs; clamped.
Qed.

(** The GDP scorer of V1 returns a score in [-2, 2] or throws, and it
    throws exactly on a number other than 0 and NaN. *)
Lemma V1_gdp_clamped current historical config :
  match V1.calculateGDPScore current historical config with
  | Returns r => inRange (-2) 2 (score r)
  | Throws msg =>
      msg = "current.toLowerCase is not a function"%string
      /\ exists x, current = Some (CNum x) /\ truthy x = true
  end.
Proof.
  unfold V1.calculateGDPScore.
  destruct current as [[x | current] |]; [| | apply inRange_lit; lra].
  - destruct (truthy x) eqn:E; cbn [negb].
    + split; [reflexivity |]. exists x. split; [reflexivity | exact E].
    + apply inRange_lit; lra.
  - cbn [score]; split_ifs; apply inRange_lit; lra.
Qed.

Lemma V1_gdp_throws_on_number (x : num) historical config :
  truthy x = true ->
  V1.calculateGDPScore (Some (CNum x)) historical config
  = Throws "current.toLowerCase is not a function".
Proof. intros H. unfold V1.calculateGDPScore. rewrite H. reflexivity. Qed.

Lemma V2_gdp_number_scores_zero (x : num) :
  score (V2.calculateGDPScore (Some (CNum x))) = Fin 0.
Proof.
  unfold V2.calculateGDPScore. cbn [truthyCell].
  destruct (truthy x); reflexivity.
Qed.

Lemma V1_yield_clamped current historical config :
  inRange (-1) 1 (V1.calculateTrend historical (TREND_PERIODS config)) ->
  inRange (-2) 2 (score (V1.calculateYieldScore current historical config)).
Proof.
  intros [t [Et Ht]]. unfold V1.calculateYieldScore.
  destruct current as [current|]; [| apply inRange_lit; lra].
  rewrite Et. split_ifs; clamped.
Qed.

Lemma V1_credit_clamped current historical config :
  inRange (-1) 1 (V1.calculateTrend historical (TREND_PERIODS config)) ->
  inRange (-2) 2 (score (V1.calculateCreditScore current historical config)).
Proof.
  intros [t [Et Ht]]. unfold V1.calculateCreditScore.
  destruct current as [current|]; [| apply inRange_lit; lra].
  rewrite Et. split_ifs; clamped.
Qed.

(** C6.  In V2/V3 every indicator score lies in [-2, 2], whatever the
    thresholds, the current value and the series are (a NaN trend is
    skipped by [if (adj)]), and so do the scores of the five numeric
    scorers of V1 whenever the trend of the series lies in [-1, 1].  The
    GDP scorer of V1 is the exception: on a numeric current value other
    than 0 and NaN it returns no score, it throws a TypeError, where the
    scorer of V2/V3 turns the number into text first and scores it 0.  On
    every other current value it returns a score in [-2, 2]. *)
Theorem indicator_scores_clamped
    (cfg : Config) (curr : option num) (gdp : option cell)
    (region : string)
    (hist : list num) (historical : option (list num)) :
  inRange (-1) 1 (V1.calculateTrend historical (TREND_PERIODS cfg)) ->
  Forall (fun r => inRange (-2) 2 (score r))
    [ V2.calculateUnemploymentScore cfg curr hist;
      V2.calculateCPIScore cfg curr hist region;
      V2.calculateVIXScore cfg curr hist;
      V2.calculateGDPScore gdp;
      V2.calculateYieldScore cfg curr hist;
      V2.calculateCreditScore cfg curr hist;
      V1.calculateUnemploymentScore curr historical cfg;
      V1.calculateCPIScore curr historical cfg region;
      V1.calculateVIXScore curr historical cfg;
      V1.calculateYieldScore curr historical cfg;
      V1.calculateCreditScore curr historical cfg ]
  /\ match V1.calculateGDPScore gdp historical cfg with
     | Returns r => inRange (-2) 2 (score r)
     | Throws msg =>
         msg = "current.toLowerCase is not a function"%string
         /\ exists x, gdp = Some (CNum x) /\ truthy x = true
     end
  /\ (forall x, truthy x = true ->
        V1.calculateGDPScore (Some (CNum x)) historical cfg
        = Throws "current.toLowerCase is not a function"
        /\ score (V2.calculateGDPScore (Some (CNum x))) = Fin 0).
Proof.
  intros Ht. split; [| split].
  - repeat apply List.Forall_cons; try apply List.Forall_nil.
    + apply V2_unemployment_clamped.
    + apply V2_cpi_clamped.
    + apply V2_vix_clamped.
    + apply V2_gdp_clamped.
    + apply V2_yield_clamped.
    + apply V2_credit_clamped.
    + apply V1_unemployment_clamped, Ht.
    + apply V1_cpi_clamped, Ht.
    + apply V1_vix_clamped, Ht.
    + apply V1_yield_clamped, Ht.
    + apply V1_credit_clamped, Ht.
  - apply V1_gdp_clamped.
  - intros x Hx. split.
    + apply V1_gdp_throws_on_number, Hx.
    + apply V2_gdp_number_scores_zero.
Qed.

(** The 'Can GDP' cell holding the number 2.5: the scorer of V1 throws,
    the scorer of V2/V3 scores 0; the other scores are in range. *)
Lemma indicator_scores_clamped_witness :
  Forall (fun r => inRange (-2) 2 (score r))
    [ V2.calculateUnemploymentScore V2.CONFIG (Some (Fin 35))
        [Fin 20; Fin 21; Fin 21; Fin 21];
      V2.calculateCPIScore V2.CONFIG (Some (Fin 35))
        [Fin 20; Fin 21; Fin 21; Fin 21] "US";
      V2.calculateVIXScore V2.CONFIG (Some (Fin 35))
        [Fin 20; Fin 21; Fin 21; Fin 21];
      V2.calculateGDPScore (Some (CNum (Fin 2.5)));
      V2.calculateYieldScore V2.CONFIG (Some (Fin 35))
        [Fin 20; Fin 21; Fin 21; Fin 21];
      V2.calculateCreditScore V2.CONFIG (Some (Fin 35))
        [Fin 20; Fin 21; Fin 21; Fin 21];
      V1.calculateUnemploymentScore (Some (Fin 35))
        (Some [Fin 20; Fin 21; Fin 21; Fin 21]) V2.CONFIG;
      V1.calculateCPIScore (Some (Fin 35))
        (Some [Fin 20; Fin 21; Fin 21; Fin 21]) V2.CONFIG "US";
      V1.calculateVIXScore (Some (Fin 35))
        (Some [Fin 20; Fin 21; Fin 21; Fin 21]) V2.CONFIG;
      V1.calculateYieldScore (Some (Fin 35))
        (Some [Fin 20; Fin 21; Fin 21; Fin 21]) V2.CONFIG;
      V1.calculateCreditScore (Some (Fin 35))
        (Some [Fin 20; Fin 21; Fin 21; Fin 21]) V2.CONFIG ]
  /\ V1.calculateGDPScore (Some (CNum (Fin 2.5)))
       (Some [Fin 20; Fin 21; Fin 21; Fin 21]) V2.CONFIG
     = Throws "current.toLowerCase is not a function"
  /\ score (V2.calculateGDPScore (Some (CNum (Fin 2.5)))) = Fin 0.
Proof.
  destruct (indicator_scores_clamped V2.CONFIG (Some (Fin 35))
              (Some (CNum (Fin 2.5))) "US"
              [Fin 20; Fin 21; Fin 21; Fin 21]
              (Some [Fin 20; Fin 21; Fin 21; Fin 21]))
    as [H1 [_ H3]].
  - exists (30 # 60). split; [reflexivity | lra].
  - split; [exact H1 |]. apply (H3 (Fin 2.5)). reflexivity.
Defined.

(** The trend hypothesis matters for V1 only: on a series of zeros the
    trend is NaN (0/0); V1 tests [trendAdjustment !== 0], which NaN
    passes, and the score becomes NaN, while V2 tests [if (adj)] and
    leaves the base score alone. *)
Example nan_trend_V1_and_V2 :
  V1.calculateTrend (Some [Fin 0; Fin 0; Fin 0; Fin 0]) 3 = NaN
  /\ score (V1.calculateUnemploymentScore (Some (Fin 5))
              (Some [Fin 0; Fin 0; Fin 0; Fin 0]) V1.defaultConfig) = NaN
  /\ score (V2.calculateUnemploymentScore V2.CONFIG (Some (Fin 5))
              [Fin 0; Fin 0; Fin 0; Fin 0]) = Fin 0.
Proof. repeat split. Qed.

Lemma V1_no_data (historical : option (list num)) (config : Config)
    (region : string) :
  Forall (fun r => score r = Fin 0 /\ description r = Some [Txt "No data"])
    [ V1.calculateUnemploymentScore None historical config;
      V1.calculateCPIScore None historical config region;
      V1.calculateVIXScore None historical config;
      V1.calculateYieldScore None historical config;
      V1.calculateCreditScore None historical config ]
  /\ V1.calculateGDPScore None historical config = Returns V1.noData.
Proof.
  split; [| reflexivity].
  repeat apply List.Forall_cons; try apply List.Forall_nil; split; reflexivity.
Qed.

(** C8 on V2/V3.  On a null current value every scorer returns
    [{ score: 0, desc: 'No data' }]: the score is 0, but the text sits
    under the key [desc], so the [description] field, which every other
    return of the same scorers fills, is undefined. *)
Theorem V2_no_data_has_no_description
    (cfg : Config) (hist : list num) (region : string) :
  Forall (fun r => score r = Fin 0
                   /\ desc r = Some [Txt "No data"]
                   /\ description r = None)
    [ V2.calculateUnemploymentScore cfg None hist;
      V2.calculateCPIScore cfg None hist region;
      V2.calculateVIXScore cfg None hist;
      V2.calculateGDPScore None;
      V2.calculateYieldScore cfg None hist;
      V2.calculateCreditScore cfg None hist ].
Proof.
  repeat apply List.Forall_cons; try apply List.Forall_nil; repeat split; reflexivity.
Qed.

End Scorers.

(* ===================================================================== *)
(** ** The delta engine *)
(* ===================================================================== *)

Section Delta.

Lemma geb_fin (a b : Q) : geb (Fin a) (Fin b) = true <-> b <= a.
Proof.
  unfold geb, cmp. destruct (Qcompare_spec a b); split; intros; try lra;
    try reflexivity; discriminate.
Qed.

(** The step function gives a shift of the sign of the score. *)
Lemma baseShift_sign (s : Q) :
  exists b, V2.baseShift (Fin s) = Fin b
            /\ (s < 0 -> b <= 0) /\ (0 <= s -> 0 <= b).
Proof.
  unfold V2.baseShift.
  repeat match goal with
         | |- context [geb (Fin s) (Fin ?c)] =>
             let E := fresh "E" in
             destruct (geb (Fin s) (Fin c)) eqn:E;
             [apply geb_fin in E
             |assert (~ c <= s)
                by (intros Hc; apply geb_fin in Hc; congruence); clear E]
         end;
    eexists; (split; [reflexivity | split; intros; lra]).
Qed.

(** [calcDelta] of V2/V3 negates the scaled shift exactly for class
    'Defensive'. *)
Lemma V2_calcDelta_by_class cfg scores md t :
  V2.calcDelta cfg scores md t
  = if cellIs (classMap md !! t) "Defensive"
    then neg (V2.scaledShift cfg scores md t)
    else V2.scaledShift cfg scores md t.
Proof. reflexivity. Qed.

(** In V2/V3 a growth asset with a positive sensitivity and a negative
    regional score gets a non-positive raw delta. *)
Lemma V2_growth_delta_nonpositive cfg scores md t (s sens : Q) :
  cellIs (classMap md !! t) "Defensive" = false ->
  V2.getRegionalScore cfg scores md t = Fin s -> s < 0 ->
  sensMap md !! t = Some (Fin sens) -> 0 < sens ->
  exists d, V2.calcDelta cfg scores md t = Fin d /\ d <= 0.
Proof.
  intros Hc Hs Hneg Hsens Hpos.
  unfold V2.calcDelta, V2.scaledShift. rewrite Hc, Hs.
  destruct (baseShift_sign s) as [b [-> [Hb _]]]. specialize (Hb Hneg).
  unfold getN. rewrite Hsens. cbn [default mul].
  assert (b * sens <= 0) by nra.
  destruct (volatilityAdjustment _); [destruct (ltb _ _) |];
    eexists; (split; [reflexivity | lra]).
Qed.

(** C5 on V1.  [calculateEnhancedDelta] flips the sign of the shift a
    second time when the regional score is not positive, so an Equity
    asset under a negative regional score gets a positive raw delta
    (here 0.0175), where [calcDelta] of V2/V3 gives the negative one. *)
Theorem V1_growth_delta_sign_flipped :
  exists scores,
    V1.getEnhancedMarketData V1.defaultConfig stressed None None
    = Returns scores
    /\ cellIs (classMap oneEquity !! "XEQT.TO") "Defensive" = false
    /\ ltb (V1.getRegionalScore V1.defaultConfig scores oneEquity "XEQT.TO")
           (Fin 0) = true
    /\ num_eq (V1.calculateEnhancedDelta V1.defaultConfig scores oneEquity
                 "XEQT.TO")
              (Fin 0.0175)
    /\ num_eq (V2.calcDelta V1.defaultConfig scores oneEquity "XEQT.TO")
              (Fin (-0.0175)).
Proof. eexists. split; [reflexivity |]. vm_compute. repeat split. Qed.

End Delta.

(* ===================================================================== *)
(** ** Buckets and the metadata check *)
(* ===================================================================== *)

Section Buckets.

Lemma rawShifts_acc cfg scores md tickers
    (rd0 : gmap string num) (dl0 el0 : list string) :
  exists rd,
    foldl (fun '(rawDelta, defList, eqList) t =>
             let rawDelta := <[t := V2.calcDelta cfg scores md t]> rawDelta in
             if cellIs (classMap md !! t) "Defensive"
             then (rawDelta, (defList ++ [t])%list, eqList)
             else (rawDelta, defList, (eqList ++ [t])%list))
          (rd0, dl0, el0) tickers
    = (rd,
       (dl0 ++ List.filter (isDefensive md) tickers)%list,
       (el0 ++ List.filter (fun t => negb (isDefensive md t)) tickers)%list).
Proof.
  unfold isDefensive.
  revert rd0 dl0 el0. induction tickers as [|t l IH]; intros rd0 dl0 el0.
  - exists rd0. cbn. rewrite !app_nil_r. reflexivity.
  - cbn [foldl List.filter]. cbv beta iota zeta.
    destruct (cellIs (classMap md !! t) "Defensive"); cbn [negb].
    + destruct (IH (<[t := V2.calcDelta cfg scores md t]> rd0)
                  (dl0 ++ [t])%list el0) as [rd Hrd].
      exists rd. rewrite Hrd. rewrite <- app_assoc. reflexivity.
    + destruct (IH (<[t := V2.calcDelta cfg scores md t]> rd0)
                  dl0 (el0 ++ [t])%list) as [rd Hrd].
      exists rd. rewrite Hrd. rewrite <- app_assoc. reflexivity.
Qed.

Lemma rawShifts_lists cfg scores md tickers :
  exists rd,
    V2.rawShifts cfg scores md tickers
    = (rd, List.filter (isDefensive md) tickers,
       List.filter (fun t => negb (isDefensive md t)) tickers).
Proof. apply (rawShifts_acc cfg scores md tickers ∅ [] []). Qed.

(** In V2/V3 the two buckets together hold every ticker. *)
Lemma V2_buckets_cover cfg scores md tickers t :
  In t tickers
  <-> In t ((V2.rawShifts cfg scores md tickers).1.2
            ++ (V2.rawShifts cfg scores md tickers).2)%list.
Proof.
  destruct (rawShifts_lists cfg scores md tickers) as [rd ->]. cbn.
  rewrite in_app_iff, !filter_In.
  destruct (isDefensive md t); cbn; intuition discriminate.
Qed.

(** [t in m] on a table of own entries. *)
Lemma hasProperty_own {A} (m : gmap string A) (t : string) :
  is_Some (m !! t) -> hasProperty m t = true.
Proof.
  intros H. unfold hasProperty. rewrite bool_decide_eq_true_2 by exact H.
  reflexivity.
Qed.

Lemma hasProperty_none {A} (m : gmap string A) (t : string) :
  m !! t = None -> hasProperty m t = inherited t.
Proof.
  intros H. unfold hasProperty. rewrite bool_decide_eq_false_2; [reflexivity |].
  rewrite H. intros [x Hx]. discriminate.
Qed.

(** V2 and V1 reject a requested ticker that has no metadata row and is
    not the name of an inherited member. *)
Lemma V2_unknown_ticker_throws cfg ss ind hist assetTicker :
  classMap (V2.loadMetadata (meta ss)) !! assetTicker = None ->
  inherited assetTicker = false ->
  V2.GET_REBALANCE_SIGNAL cfg ss ind hist assetTicker
  = Throws ("No metadata for " ++ assetTicker).
Proof.
  intros H Hi. unfold V2.GET_REBALANCE_SIGNAL.
  destruct (V2.loadAllocations (allocData ss)) as [allocMap tickers].
  rewrite (hasProperty_none _ _ H), Hi. reflexivity.
Qed.

Lemma V1_unknown_ticker_throws config ss ind gdp historical scores
    assetTicker :
  V1.getEnhancedMarketData config ind gdp historical = Returns scores ->
  classMap (V1.loadMetadata (meta ss)) !! assetTicker = None ->
  inherited assetTicker = false ->
  V1.GET_REBALANCE_SIGNAL config ss ind gdp historical assetTicker
  = Throws ("No metadata for " ++ assetTicker ++ " – check Asset Metadata").
Proof.
  intros Hm H Hi. unfold V1.GET_REBALANCE_SIGNAL.
  destruct (V1.loadAllocations (allocData ss)) as [allocMap tickers].
  rewrite Hm, (hasProperty_none _ _ H), Hi. reflexivity.
Qed.

(** The check looks at the requested ticker only: once it passes, V2
    returns a text whatever the rows of the other tickers are. *)
Lemma V2_known_ticker_returns cfg ss ind hist assetTicker :
  hasProperty (classMap (V2.loadMetadata (meta ss))) assetTicker = true ->
  exists s, V2.GET_REBALANCE_SIGNAL cfg ss ind hist assetTicker = Returns s.
Proof.
  intros H. unfold V2.GET_REBALANCE_SIGNAL.
  destruct (V2.loadAllocations (allocData ss)) as [allocMap tickers].
  rewrite H. eexists. reflexivity.
Qed.

Lemma V1_known_ticker_returns config ss ind gdp historical scores
    assetTicker :
  V1.getEnhancedMarketData config ind gdp historical = Returns scores ->
  hasProperty (classMap (V1.loadMetadata (meta ss))) assetTicker = true ->
  exists s,
    V1.GET_REBALANCE_SIGNAL config ss ind gdp historical assetTicker
    = Returns s.
Proof.
  intros Hm H. unfold V1.GET_REBALANCE_SIGNAL.
  destruct (V1.loadAllocations (allocData ss)) as [allocMap tickers].
  rewrite Hm, H. eexists. reflexivity.
Qed.

(** A numeric 'Can GDP' cell stops V1 before it reaches the metadata. *)
Lemma V1_numeric_gdp_throws config ss ind (x : num) historical assetTicker :
  truthy x = true ->
  V1.GET_REBALANCE_SIGNAL config ss ind (Some (CNum x)) historical assetTicker
  = Throws "current.toLowerCase is not a function".
Proof.
  intros H. unfold V1.GET_REBALANCE_SIGNAL, V1.getEnhancedMarketData.
  destruct (V1.loadAllocations (allocData ss)) as [allocMap tickers].
  rewrite (V1_gdp_throws_on_number x _ _ H). reflexivity.
Qed.

Lemma V3_always_returns cfg ss ind hist assetTicker :
  exists s, V3.GET_REBALANCE_SIGNAL cfg ss ind hist assetTicker = Returns s.
Proof.
  unfold V3.GET_REBALANCE_SIGNAL.
  destruct (V3.loadAllocations (allocData ss)) as [allocMap tickers].
  eexists. reflexivity.
Qed.

(** C7 on V3.  The revision of part_001 loads the metadata and never
    checks it: for a ticker without a metadata row it goes on with an
    undefined sensitivity and returns the text "Decrease NaN%", where
    V2 throws. *)
Theorem V3_unknown_ticker_returns_signal :
  classMap (V2.loadMetadata (meta sheetsUnknown)) !! "XYZ" = None
  /\ V3.GET_REBALANCE_SIGNAL V2.CONFIG sheetsUnknown calm noHist "XYZ"
     = Returns "Decrease NaN%"
  /\ V2.GET_REBALANCE_SIGNAL V2.CONFIG sheetsUnknown calm noHist "XYZ"
     = Throws "No metadata for XYZ".
Proof. vm_compute. repeat split. Qed.

(** C10.  V2 and V3 treat a ticker as the claim says: when its class is
    not exactly 'Defensive' (another class, a misspelling, no class, no
    metadata row) its shift is not negated and it is pushed to [eqList];
    and the metadata check of V2 looks at the requested ticker only.  V1
    does not: its equity list is
    [tickers.filter(t => classMap[t] === "Equity")], so a ticker whose
    class is neither 'Defensive' nor 'Equity' is in neither list and takes
    no part in the reconciliation. *)
Theorem non_defensive_tickers
    (cfg : Config) (scores : indicator -> num) (md : Metadata)
    (tickers : list string) (t : string) :
  In t tickers ->
  cellIs (classMap md !! t) "Defensive" = false ->
  (V2.calcDelta cfg scores md t = V2.scaledShift cfg scores md t
   /\ In t (V2.rawShifts cfg scores md tickers).2
   /\ ~ In t (V2.rawShifts cfg scores md tickers).1.2)
  /\ (forall ss ind hist a,
        hasProperty (classMap (V2.loadMetadata (meta ss))) a = true ->
        exists s, V2.GET_REBALANCE_SIGNAL cfg ss ind hist a = Returns s)
  /\ (cellIs (classMap md !! t) "Equity" = false ->
      ~ In t (V1.eqList md tickers) /\ ~ In t (V1.defList md tickers)).
Proof.
  intros Hin Hc.
  split; [split; [| split] | split].
  - unfold V2.calcDelta. rewrite Hc. reflexivity.
  - destruct (rawShifts_lists cfg scores md tickers) as [rd ->]. cbn.
    apply filter_In. split; [assumption |].
    unfold isDefensive. rewrite Hc. reflexivity.
  - destruct (rawShifts_lists cfg scores md tickers) as [rd ->]. cbn.
    intros Hd. apply filter_In in Hd. destruct Hd as [_ Hd].
    unfold isDefensive in Hd. congruence.
  - intros. apply V2_known_ticker_returns. assumption.
  - intros He. split.
    + unfold V1.eqList. rewrite filter_In. intros [_ H]. congruence.
    + unfold V1.defList. rewrite filter_In. intros [_ H]. congruence.
Qed.

(** 'GLD' has the class 'Commodity': V2 puts it in [eqList], V1 in
    neither list. *)
Lemma non_defensive_tickers_witness :
  In "GLD" (V2.rawShifts V2.CONFIG (fun _ => Fin 1) mixedMeta
              ["CASH.TO"; "GLD"; "XEQT.TO"]).2
  /\ ~ In "GLD" (V1.eqList mixedMeta ["CASH.TO"; "GLD"; "XEQT.TO"])
  /\ ~ In "GLD" (V1.defList mixedMeta ["CASH.TO"; "GLD"; "XEQT.TO"]).
Proof.
  destruct (non_defensive_tickers V2.CONFIG (fun _ => Fin 1) mixedMeta
              ["CASH.TO"; "GLD"; "XEQT.TO"] "GLD") as [[_ [H2 _]] [_ H1]].
  - simpl. tauto.
  - reflexivity.
  - split; [exact H2 |]. apply H1. reflexivity.
Defined.

End Buckets.

(* ===================================================================== *)
(** ** The final delta on a zero or missing allocation *)
(* ===================================================================== *)

Section FinalDelta.

Lemma Qcompare_zero (q : Q) : q == 0 -> (q ?= 0) = Eq.
Proof. intros H. apply Qeq_alt. exact H. Qed.

Lemma getN_some (m : gmap string num) t x : m !! t = Some x -> getN m t = x.
Proof. intros H. unfold getN. rewrite H. reflexivity. Qed.

Lemma getN_none (m : gmap string num) t : m !! t = None -> getN m t = NaN.
Proof. intros H. unfold getN. rewrite H. reflexivity. Qed.

Lemma proposed_zero allocMap rawDelta t q :
  allocMap !! t = Some (Fin q) -> q == 0 ->
  nanOrZero (proposed allocMap rawDelta t).
Proof.
  intros Ha Hq. unfold proposed. rewrite (getN_some allocMap t _ Ha).
  destruct (getN rawDelta t) as [r| | |]; cbn [add mul].
  - unfold Math_max, cmp.
    destruct (Qcompare_spec 0 (q * (1 + r))); right; eexists;
      (split; [reflexivity | nra]).
  - unfold inf_times. rewrite (Qcompare_zero q Hq). left. reflexivity.
  - unfold inf_times. rewrite (Qcompare_zero q Hq). left. reflexivity.
  - left. reflexivity.
Qed.

Lemma div_nanOrZero (x y : num) : nanOrZero x -> nanOrZero (div x y).
Proof.
  intros [-> | [z [-> Hz]]]; [left; reflexivity |].
  destruct y as [s| | |]; cbn [div].
  - destruct (Qeq_bool s 0) eqn:E.
    + unfold inf_times. rewrite (Qcompare_zero z Hz). left. reflexivity.
    + right. eexists. split; [reflexivity |]. rewrite Hz.
      unfold Qdiv. ring.
  - right. exists 0. split; reflexivity.
  - right. exists 0. split; reflexivity.
  - left. reflexivity.
Qed.

Lemma div_by_zero_nan (x : num) (q : Q) :
  nanOrZero x -> q == 0 -> div x (Fin q) = NaN.
Proof.
  intros [-> | [z [-> Hz]]] Hq; [reflexivity |].
  cbn [div]. rewrite (Qeq_bool_zero q Hq).
  unfold inf_times. rewrite (Qcompare_zero z Hz). reflexivity.
Qed.

Lemma div_nan_r (x : num) : div x NaN = NaN.
Proof. destruct x; reflexivity. Qed.

Lemma V2_finalDelta_nan allocMap rawDelta tickers t :
  zeroOrAbsent allocMap t ->
  V2.finalDelta allocMap rawDelta tickers t = NaN.
Proof.
  intros [Ha | [q [Ha Hq]]]; unfold V2.finalDelta.
  - rewrite (getN_none allocMap t Ha), div_nan_r. reflexivity.
  - rewrite (getN_some allocMap t _ Ha).
    rewrite div_by_zero_nan; [reflexivity | | exact Hq].
    apply div_nanOrZero. apply (proposed_zero _ _ _ q Ha Hq).
Qed.

Lemma formatSignal_nan (minThr : num) :
  formatSignal minThr NaN = "Decrease NaN%".
Proof. reflexivity. Qed.

(** C2, as the code has it.  No revision tests the requested ticker's
    allocation: when it is zero or missing the final delta is NaN, which
    fails both [Math.abs(finalD) < minThreshold] and [finalD > 0], and the
    call returns "Decrease NaN%": V2 whenever the ticker passes its
    metadata check, V3 always. *)
Theorem zero_allocation_returns_NaN_signal
    (cfg : Config) (ss : Sheets) (ind : indicator -> option num)
    (hist : indicator -> list num) (assetTicker : string) :
  (zeroOrAbsent (V2.loadAllocations (allocData ss)).1 assetTicker ->
   hasProperty (classMap (V2.loadMetadata (meta ss))) assetTicker = true ->
   V2.GET_REBALANCE_SIGNAL cfg ss ind hist assetTicker
   = Returns "Decrease NaN%")
  /\ (zeroOrAbsent (V3.loadAllocations (allocData ss)).1 assetTicker ->
      V3.GET_REBALANCE_SIGNAL cfg ss ind hist assetTicker
      = Returns "Decrease NaN%").
Proof.
  split.
  - intros H2 Hmeta. unfold V2.GET_REBALANCE_SIGNAL.
    destruct (V2.loadAllocations (allocData ss)) as [allocMap tickers].
    rewrite Hmeta. cbn [negb].
    unfold V2.signalFor.
    destruct (V2.rawShifts _ _ _ _) as [[rawDelta defList] eqList].
    rewrite V2_finalDelta_nan by exact H2. reflexivity.
  - intros H3. unfold V3.GET_REBALANCE_SIGNAL.
    destruct (V3.loadAllocations (allocData ss)) as [allocMap tickers].
    unfold V2.signalFor.
    destruct (V2.rawShifts _ _ _ _) as [[rawDelta defList] eqList].
    rewrite V2_finalDelta_nan by exact H3. reflexivity.
Qed.

(** 'ZLB.TO' at 0% with a metadata row in V2; 'XYZ', which has neither an
    allocation nor a metadata row, in V3. *)
Lemma zero_allocation_returns_NaN_signal_witness :
  V2.GET_REBALANCE_SIGNAL V2.CONFIG sheetsZero stressed noHist "ZLB.TO"
  = Returns "Decrease NaN%"
  /\ V3.GET_REBALANCE_SIGNAL V2.CONFIG sheetsZero stressed noHist "XYZ"
     = Returns "Decrease NaN%".
Proof.
  split.
  - apply (proj1 (zero_allocation_returns_NaN_signal
                    V2.CONFIG sheetsZero stressed noHist "ZLB.TO")).
    + right. exists (0 / 100). split; [vm_compute; reflexivity | reflexivity].
    + vm_compute. reflexivity.
  - apply (proj2 (zero_allocation_returns_NaN_signal
                    V2.CONFIG sheetsZero stressed noHist "XYZ")).
    left. vm_compute. reflexivity.
Defined.

(** C2, as stated, fails: with a metadata row and an allocation of 0%
    the call throws nothing and returns a text. *)
Lemma zero_allocation_no_error :
  num_eq (getN (V2.loadAllocations (allocData sheetsZero)).1 "ZLB.TO") (Fin 0)
  /\ V2.GET_REBALANCE_SIGNAL V2.CONFIG sheetsZero calm noHist "ZLB.TO"
     = Returns "Decrease NaN%"
  /\ V3.GET_REBALANCE_SIGNAL V2.CONFIG sheetsZero calm noHist "ZLB.TO"
     = Returns "Decrease NaN%".
Proof. vm_compute. repeat split. Qed.

End FinalDelta.

(* ===================================================================== *)
(** ** Allocation parsing *)
(* ===================================================================== *)

Section Parsing.

Local Open Scope char_scope.
Local Open Scope list_scope.

Lemma percent_inert : inert "%".
Proof.
  repeat split; try reflexivity.
  cbn. intros H. repeat destruct H as [H | H]; try discriminate H. exact H.
Qed.

Lemma dropWhite_snoc (l : list ascii) (c : ascii) :
  isWhite c = false -> dropWhite (l ++ [c]) = dropWhite l ++ [c].
Proof.
  intros Hc. induction l as [|a l IH]; cbn.
  - rewrite Hc. reflexivity.
  - destruct (isWhite a); [exact IH | reflexivity].
Qed.

Lemma spanDigits_snoc (l : list ascii) (c : ascii) :
  isDigit c = false ->
  spanDigits (l ++ [c]) = ((spanDigits l).1, (spanDigits l).2 ++ [c]).
Proof.
  intros Hc. induction l as [|a l IH]; cbn.
  - rewrite Hc. reflexivity.
  - destruct (isDigit a); [| reflexivity].
    rewrite IH. destruct (spanDigits l). reflexivity.
Qed.

Lemma takeSign_snoc (l : list ascii) (c : ascii) :
  Ascii.eqb c "-" = false -> Ascii.eqb c "+" = false ->
  takeSign (l ++ [c]) = ((takeSign l).1, (takeSign l).2 ++ [c]).
Proof.
  intros Hm Hp. destruct l as [|a l]; cbn.
  - rewrite Hm, Hp. reflexivity.
  - destruct (Ascii.eqb a "-"); [reflexivity |].
    destruct (Ascii.eqb a "+"); reflexivity.
Qed.

Lemma prefixb_snoc (p l : list ascii) (c : ascii) :
  ~ In c p -> prefixb p (l ++ [c]) = prefixb p l.
Proof.
  revert l. induction p as [|a p IH]; intros l Hc; [reflexivity |].
  destruct l as [|b l]; cbn.
  - destruct (Ascii.eqb_spec a c) as [-> |]; [| reflexivity].
    exfalso. apply Hc. left. reflexivity.
  - rewrite IH; [reflexivity |]. intros H. apply Hc. right. exact H.
Qed.

Lemma takeFraction_snoc (l : list ascii) (c : ascii) :
  isDigit c = false -> Ascii.eqb c "." = false ->
  takeFraction (l ++ [c]) = ((takeFraction l).1, (takeFraction l).2 ++ [c]).
Proof.
  intros Hd Hp. destruct l as [|a l]; cbn.
  - rewrite Hp. reflexivity.
  - destruct (Ascii.eqb a "."); [apply spanDigits_snoc, Hd | reflexivity].
Qed.

Lemma takeExponent_snoc (l : list ascii) (c : ascii) :
  inert c -> takeExponent (l ++ [c]) = takeExponent l.
Proof.
  intros (_ & Hd & Hm & Hp & _ & He & HE & _).
  destruct l as [|a l]; cbn.
  - rewrite He, HE. reflexivity.
  - destruct (Ascii.eqb a "e" || Ascii.eqb a "E"); [| reflexivity].
    rewrite (takeSign_snoc l c Hm Hp).
    destruct (takeSign l) as [negative r']. cbn [fst snd].
    rewrite (spanDigits_snoc r' c Hd). reflexivity.
Qed.

(** A trailing inert character does not change what [parseFloat] reads. *)
Lemma parseFloatChars_snoc (l : list ascii) (c : ascii) :
  inert c -> parseFloatChars (l ++ [c]) = parseFloatChars l.
Proof.
  intros Hc. pose proof Hc as (Hw & Hd & Hm & Hp & Hdot & _ & _ & Hinf).
  unfold parseFloatChars.
  rewrite (dropWhite_snoc l c Hw), (takeSign_snoc _ c Hm Hp).
  destruct (takeSign (dropWhite l)) as [negative l0]. cbn [fst snd].
  rewrite (prefixb_snoc _ l0 c Hinf).
  destruct (prefixb _ l0); [reflexivity |].
  rewrite (spanDigits_snoc l0 c Hd).
  destruct (spanDigits l0) as [ip l1]. cbn [fst snd].
  rewrite (takeFraction_snoc l1 c Hd Hdot).
  destruct (takeFraction l1) as [fp l2]. cbn [fst snd].
  rewrite (takeExponent_snoc l2 c Hc). reflexivity.
Qed.

Lemma list_ascii_app (s1 s2 : string) :
  list_ascii_of_string (s1 ++ s2)%string
  = (list_ascii_of_string s1 ++ list_ascii_of_string s2)%list.
Proof.
  induction s1 as [|a s1 IH]; [reflexivity |].
  change (a :: list_ascii_of_string (s1 ++ s2)%string
          = a :: (list_ascii_of_string s1 ++ list_ascii_of_string s2)).
  rewrite IH. reflexivity.
Qed.

Lemma parseFloat_percent (body : string) :
  parseFloat (body ++ "%")%string = parseFloat body.
Proof.
  unfold parseFloat. rewrite list_ascii_app.
  apply parseFloatChars_snoc, percent_inert.
Qed.

Lemma replacePercent_snoc (body : string) :
  includes body "%"%string = false -> replacePercent (body ++ "%")%string = body.
Proof.
  unfold includes. induction body as [|a body IH]; [reflexivity |].
  cbn [list_ascii_of_string includesChars prefixb].
  rewrite andb_true_r, orb_false_iff, Ascii.eqb_sym. intros [Ha Hb].
  change (replacePercent (String a (body ++ "%")%string) = String a body).
  cbn [replacePercent]. rewrite Ha, (IH Hb). reflexivity.
Qed.

Lemma endsWithPercent_trim (body : string) :
  endsWithPercent (trim (body ++ "%")%string) = true.
Proof.
  unfold endsWithPercent, trim.
  rewrite list_ascii_of_string_of_list_ascii, rev_involutive, list_ascii_app.
  cbn [list_ascii_of_string].
  rewrite (dropWhite_snoc _ "%" eq_refl), rev_app_distr. reflexivity.
Qed.

Lemma gtb_fin (a b : Q) : gtb (Fin a) (Fin b) = true <-> b < a.
Proof.
  unfold gtb, cmp. destruct (Qcompare_spec a b); split; intros; try lra;
    try reflexivity; discriminate.
Qed.

Lemma gtb_fin_false (a b : Q) : a <= b -> gtb (Fin a) (Fin b) = false.
Proof.
  intros H. destruct (gtb (Fin a) (Fin b)) eqn:E; [| reflexivity].
  apply gtb_fin in E. lra.
Qed.

(** C9, as the code has it, for a text ["X%"] whose body reads as the
    number [x >= 0] and the numeric cell [x/100]:
    - V2 divides whatever it reads by 100: [x/100] and [x/10000];
    - V3 divides by 100 only what exceeds 1: ["X%"] gives [x/100] for
      [x > 1] and [x] itself otherwise, the cell [x/100] is kept as it is
      up to [x = 100];
    - V1 divides by 100 only a text that ends in ['%']: both give
      [x/100], which lies in [0, 1] when [x <= 100]. *)
Theorem percent_and_fraction_parsing (body : string) (x : Q) :
  parseFloat body = Fin x -> 0 <= x ->
  includes body "%"%string = false ->
  (V2.parseAllocation (CStr (body ++ "%")%string) = Fin (x / 100)
   /\ V2.parseAllocation (CNum (Fin (x / 100))) = Fin (x / 100 / 100))
  /\ ((1 < x -> V3.parseAllocation (CStr (body ++ "%")%string) = Fin (x / 100))
      /\ (x <= 1 -> V3.parseAllocation (CStr (body ++ "%")%string) = Fin x)
      /\ (x <= 100 -> V3.parseAllocation (CNum (Fin (x / 100))) = Fin (x / 100))
      /\ (100 < x ->
          V3.parseAllocation (CNum (Fin (x / 100))) = Fin (x / 100 / 100)))
  /\ (V1.parseAllocation (CStr (body ++ "%")%string) = Fin (x / 100)
      /\ V1.parseAllocation (CNum (Fin (x / 100))) = Fin (x / 100)
      /\ (x <= 100 -> inRange 0 1 (Fin (x / 100)))).
Proof.
  intros Hx Hpos Hpct.
  split; [| split].
  - unfold V2.parseAllocation, parseFloatNoPercent.
    rewrite (replacePercent_snoc body Hpct), Hx. split; reflexivity.
  - unfold V3.parseAllocation, parseFloatNoPercent.
    rewrite (replacePercent_snoc body Hpct), Hx.
    split; [| split; [| split]]; intros H.
    + rewrite (proj2 (gtb_fin x 1) H). reflexivity.
    + rewrite (gtb_fin_false x 1 H). reflexivity.
    + rewrite gtb_fin_false; [reflexivity |].
      apply Qle_shift_div_r; lra.
    + rewrite (proj2 (gtb_fin (x / 100) 1)); [reflexivity |].
      apply Qlt_shift_div_l; lra.
  - unfold V1.parseAllocation.
    rewrite (endsWithPercent_trim body), (parseFloat_percent body), Hx.
    split; [reflexivity | split; [reflexivity |]].
    intros H. exists (x / 100). split; [reflexivity |]. split.
    + apply Qle_shift_div_l; lra.
    + apply Qle_shift_div_r; lra.
Qed.

Lemma percent_and_fraction_parsing_witness :
  V2.parseAllocation (CStr "12.5%") = Fin (12.5 / 100)
  /\ V2.parseAllocation (CNum (Fin (12.5 / 100))) = Fin (12.5 / 100 / 100)
  /\ V3.parseAllocation (CStr "12.5%") = Fin (12.5 / 100)
  /\ V1.parseAllocation (CStr "12.5%") = Fin (12.5 / 100)
  /\ V1.parseAllocation (CNum (Fin (12.5 / 100))) = Fin (12.5 / 100).
Proof.
  destruct (percent_and_fraction_parsing "12.5" 12.5)
    as [[A B] [[C _] [D [E _]]]].
  - reflexivity.
  - vm_compute. discriminate.
  - reflexivity.
  - refine (conj A (conj B (conj (C _) (conj D E)))).
    vm_compute. reflexivity.
Defined.

(** C9, as stated, fails on V2: ["50%"] is read as 0.5 and the bare
    fraction 0.5 as 0.005. *)
Lemma percent_and_fraction_differ_V2 :
  num_eq (V2.parseAllocation (CStr "50%")) (Fin 0.5)
  /\ num_eq (V2.parseAllocation (CNum (Fin 0.5))) (Fin 0.005)
  /\ ~ num_eq (V2.parseAllocation (CStr "50%"))
              (V2.parseAllocation (CNum (Fin 0.5))).
Proof.
  split; [vm_compute; reflexivity |].
  split; [vm_compute; reflexivity |].
  vm_compute. discriminate.
Qed.

End Parsing.

(* ===================================================================== *)
(** ** The balance reconciler *)
(* ===================================================================== *)

Section Balance.

Local Open Scope list_scope.

Lemma qsum_app f l1 l2 : qsum f (l1 ++ l2) == qsum f l1 + qsum f l2.
Proof.
  induction l1 as [|t l1 IH]; cbn [qsum app]; [ring | rewrite IH; ring].
Qed.

Lemma qsum_ext f g l :
  (forall t, In t l -> f t == g t) -> qsum f l == qsum g l.
Proof.
  induction l as [|t l IH]; intros H; cbn [qsum]; [reflexivity |].
  rewrite (H t (or_introl eq_refl)), IH; [reflexivity |].
  intros u Hu. apply H. right. exact Hu.
Qed.

Lemma qsum_shift f g (c : Q) l :
  qsum (fun t => (f t + c) * g t) l
  == qsum (fun t => f t * g t) l + c * qsum g l.
Proof.
  induction l as [|t l IH]; cbn [qsum]; [ring | rewrite IH; ring].
Qed.

Lemma finiteOn_getN m l t : finiteOn m l -> In t l -> getN m t = Fin (qv m t).
Proof.
  intros Hf Hin. destruct (Hf t Hin) as [q Hq].
  unfold getN, qv. rewrite Hq. reflexivity.
Qed.

Lemma finiteOn_app m l1 l2 :
  finiteOn m (l1 ++ l2) <-> finiteOn m l1 /\ finiteOn m l2.
Proof.
  unfold finiteOn. split.
  - intros H. split; intros t Ht; apply H, in_or_app; tauto.
  - intros [H1 H2] t Ht. apply in_app_or in Ht. destruct Ht; eauto.
Qed.

Lemma finiteOn_tail m t l : finiteOn m (t :: l) -> finiteOn m l.
Proof. intros H u Hu. apply H. right. exact Hu. Qed.

Lemma netFold_fin am rd l (n0 : Q) :
  finiteOn am l -> finiteOn rd l ->
  exists n,
    foldl (fun n t => add n (mul (getN rd t) (getN am t))) (Fin n0) l = Fin n
    /\ n == n0 + qsum (fun t => qv rd t * qv am t) l.
Proof.
  revert n0. induction l as [|t l IH]; intros n0 Ha Hr.
  - exists n0. split; [reflexivity | cbn; ring].
  - cbn [foldl qsum].
    rewrite (finiteOn_getN am (t :: l) t Ha (or_introl eq_refl)).
    rewrite (finiteOn_getN rd (t :: l) t Hr (or_introl eq_refl)).
    cbn [mul add].
    destruct (IH (n0 + qv rd t * qv am t)
                (finiteOn_tail _ _ _ Ha) (finiteOn_tail _ _ _ Hr))
      as [n [E Hn]].
    exists n. split; [exact E | rewrite Hn; ring].
Qed.

Lemma totFold_fin am l (a0 : Q) :
  finiteOn am l ->
  exists a,
    foldl (fun a t => add a (getN am t)) (Fin a0) l = Fin a
    /\ a == a0 + qsum (qv am) l.
Proof.
  revert a0. induction l as [|t l IH]; intros a0 Ha.
  - exists a0. split; [reflexivity | cbn; ring].
  - cbn [foldl qsum].
    rewrite (finiteOn_getN am (t :: l) t Ha (or_introl eq_refl)).
    cbn [add].
    destruct (IH (a0 + qv am t) (finiteOn_tail _ _ _ Ha)) as [a [E Hq]].
    exists a. split; [exact E | rewrite Hq; ring].
Qed.

Lemma netMove_fin am rd l :
  finiteOn am l -> finiteOn rd l ->
  exists n, netMove am rd l = Fin n
            /\ n == qsum (fun t => qv rd t * qv am t) l.
Proof.
  intros Ha Hr. destruct (netFold_fin am rd l 0 Ha Hr) as [n [E Hn]].
  exists n. split; [exact E | rewrite Hn; ring].
Qed.

Lemma totalAlloc_sum am l (a : Q) :
  finiteOn am l -> totalAlloc am l = Fin a -> a == qsum (qv am) l.
Proof.
  intros Ha E. destruct (totFold_fin am l 0 Ha) as [a' [E' Hq]].
  unfold totalAlloc in E. rewrite E' in E. injection E as <-.
  rewrite Hq. ring.
Qed.

(** The two accumulators of a [forEach] pass are independent folds. *)
Lemma tally_split am rd l (n0 a0 : num) :
  V2.tally am rd (n0, a0) l
  = (foldl (fun n t => add n (mul (getN rd t) (getN am t))) n0 l,
     foldl (fun a t => add a (getN am t)) a0 l).
Proof.
  unfold V2.tally. revert n0 a0.
  induction l as [|t l IH]; intros n0 a0; [reflexivity |].
  cbn [foldl]. apply IH.
Qed.

Lemma totals_split am rd l :
  V1.totals am rd l = (netMove am rd l, totalAlloc am l).
Proof. apply (tally_split am rd l (Fin 0) (Fin 0)). Qed.

(** [bump] adds [c] to the entry of each listed ticker, once, when the
    list has no duplicate, and leaves every other entry alone. *)
Lemma bump_lookup (rd : gmap string num) (l : list string) (c : Q) :
  NoDup l -> finiteOn rd l ->
  (forall t, In t l -> V2.bump rd l (Fin c) !! t = Some (Fin (qv rd t + c)))
  /\ (forall t, ~ In t l -> V2.bump rd l (Fin c) !! t = rd !! t).
Proof.
  unfold V2.bump. revert rd.
  induction l as [|u l IH]; intros rd Hnd Hf.
  - split; [intros t [] | reflexivity].
  - apply NoDup_cons in Hnd. destruct Hnd as [Hu Hnd].
    rewrite list_elem_of_In in Hu.
    cbn [foldl].
    rewrite (finiteOn_getN rd (u :: l) u Hf (or_introl eq_refl)).
    cbn [add].
    set (rd1 := <[u := Fin (qv rd u + c)]> rd).
    assert (Hf1 : finiteOn rd1 l).
    { intros t Ht. destruct (string_dec u t) as [-> | Hne].
      - contradiction.
      - unfold rd1. rewrite lookup_insert_ne by exact Hne.
        apply Hf. right. exact Ht. }
    destruct (IH rd1 Hnd Hf1) as [Hin Hout]. split.
    + intros t [<- | Ht].
      * rewrite (Hout u Hu). unfold rd1. rewrite lookup_insert_eq.
        reflexivity.
      * rewrite (Hin t Ht). unfold qv at 1, rd1.
        rewrite lookup_insert_ne by (intros ->; contradiction).
        reflexivity.
    + intros t Ht. rewrite Hout by (intros H; apply Ht; right; exact H).
      unfold rd1. rewrite lookup_insert_ne; [reflexivity |].
      intros ->. apply Ht. left. reflexivity.
Qed.

Lemma NoDup_app_disjoint (l1 l2 : list string) :
  NoDup (l1 ++ l2) ->
  NoDup l1 /\ NoDup l2 /\ (forall t, In t l1 -> ~ In t l2).
Proof.
  intros H. apply NoDup_app in H. destruct H as (H1 & Hd & H2).
  split; [exact H1 | split; [exact H2 |]].
  intros t Ht Ht2. apply (Hd t); apply list_elem_of_In; assumption.
Qed.

(** After both buckets have been shifted, by [c1] and [c2], the net move
    has grown by [c1] times the defensive total plus [c2] times the
    equity total. *)
Lemma bumped_net (am rd : gmap string num) (defL eqL : list string)
    (c1 c2 : Q) :
  NoDup (defL ++ eqL) ->
  finiteOn am (defL ++ eqL) -> finiteOn rd (defL ++ eqL) ->
  exists n,
    netMove am (V2.bump (V2.bump rd defL (Fin c1)) eqL (Fin c2)) (defL ++ eqL)
    = Fin n
    /\ n == qsum (fun t => qv rd t * qv am t) (defL ++ eqL)
            + c1 * qsum (qv am) defL + c2 * qsum (qv am) eqL.
Proof.
  intros Hnd Ha Hr.
  destruct (NoDup_app_disjoint _ _ Hnd) as (Hnd1 & Hnd2 & Hdis).
  apply finiteOn_app in Hr. destruct Hr as [Hr1 Hr2].
  destruct (bump_lookup rd defL c1 Hnd1 Hr1) as [Hin1 Hout1].
  set (rd1 := V2.bump rd defL (Fin c1)) in *.
  assert (Hr2' : finiteOn rd1 eqL).
  { intros t Ht. destruct (in_dec string_dec t defL) as [Hd | Hd].
    - eexists. apply (Hin1 t Hd).
    - rewrite (Hout1 t Hd). apply Hr2, Ht. }
  destruct (bump_lookup rd1 eqL c2 Hnd2 Hr2') as [Hin2 Hout2].
  set (rd2 := V2.bump rd1 eqL (Fin c2)) in *.
  assert (Hq1 : forall t, In t defL -> qv rd2 t = qv rd t + c1).
  { intros t Ht. unfold qv at 1.
    rewrite (Hout2 t (Hdis t Ht)), (Hin1 t Ht). reflexivity. }
  assert (Hq2 : forall t, In t eqL -> qv rd2 t = qv rd t + c2).
  { intros t Ht. unfold qv at 1. rewrite (Hin2 t Ht).
    unfold qv at 1. rewrite Hout1; [reflexivity |].
    intros Hd. exact (Hdis t Hd Ht). }
  assert (Hr' : finiteOn rd2 (defL ++ eqL)).
  { apply finiteOn_app. split; intros t Ht.
    - eexists. rewrite (Hout2 t (Hdis t Ht)). apply (Hin1 t Ht).
    - eexists. apply (Hin2 t Ht). }
  destruct (netMove_fin am rd2 (defL ++ eqL) Ha Hr') as [n [E Hn]].
  exists n. split; [exact E |].
  rewrite Hn, !qsum_app.
  rewrite (qsum_ext (fun t => qv rd2 t * qv am t)
             (fun t => (qv rd t + c1) * qv am t) defL)
    by (intros t Ht; rewrite (Hq1 t Ht); reflexivity).
  rewrite (qsum_ext (fun t => qv rd2 t * qv am t)
             (fun t => (qv rd t + c2) * qv am t) eqL)
    by (intros t Ht; rewrite (Hq2 t Ht); reflexivity).
  rewrite !qsum_shift. ring.
Qed.

Lemma V2_balance_eq cfg am rd defL eqL :
  V2.balance cfg am rd defL eqL
  = if balanceConstraint (REBALANCING cfg) then
      let net := netMove am rd (defL ++ eqL) in
      if gtb (Math_abs net) (Fin 0.001) then
        let adj := div (neg net) (Fin 2) in
        let rd1 :=
          if truthy (totalAlloc am defL)
          then V2.bump rd defL (div adj (totalAlloc am defL)) else rd in
        if truthy (totalAlloc am eqL)
        then V2.bump rd1 eqL (div adj (totalAlloc am eqL)) else rd1
      else rd
    else rd.
Proof.
  unfold V2.balance, netMove, totalAlloc.
  rewrite !tally_split, foldl_app. reflexivity.
Qed.

Lemma V1_balance_eq am rd defL eqL :
  V1.balance am rd defL eqL
  = let netMove := add (netMove am rd defL) (netMove am rd eqL) in
    if gtb (Math_abs netMove) (Fin 0.001) then
      let adjustment := div (neg netMove) (Fin 2) in
      let rd1 :=
        if gtb (totalAlloc am defL) (Fin 0)
        then V2.bump rd defL (div adjustment (totalAlloc am defL)) else rd in
      if gtb (totalAlloc am eqL) (Fin 0)
      then V2.bump rd1 eqL (div adjustment (totalAlloc am eqL)) else rd1
    else rd.
Proof. unfold V1.balance. rewrite !totals_split. reflexivity. Qed.

Lemma gtb_fin_inv (a b : Q) : gtb (Fin a) (Fin b) = false -> a <= b.
Proof.
  intros H. destruct (Qlt_le_dec b a) as [Hlt | Hle]; [| exact Hle].
  apply gtb_fin in Hlt. congruence.
Qed.

Lemma cancel_net (n0 ad ae : Q) :
  ~ ad == 0 -> ~ ae == 0 ->
  n0 + (- n0 / 2 / ad) * ad + (- n0 / 2 / ae) * ae == 0.
Proof. intros Hd He. field. split; assumption. Qed.

Lemma V2_balance_reconciled cfg am rd defL eqL (ad ae : Q) :
  balanceConstraint (REBALANCING cfg) = true ->
  NoDup (defL ++ eqL) ->
  finiteOn am (defL ++ eqL) -> finiteOn rd (defL ++ eqL) ->
  totalAlloc am defL = Fin ad -> totalAlloc am eqL = Fin ae ->
  ~ ad == 0 -> ~ ae == 0 ->
  reconciled am rd (V2.balance cfg am rd defL eqL) (defL ++ eqL).
Proof.
  intros Hbc Hnd Ha Hr Ead Eae Hd He.
  destruct (netMove_fin am rd _ Ha Hr) as [n0 [E0 Hn0]].
  pose proof Ha as Ha'. apply finiteOn_app in Ha'. destruct Ha' as [Ha1 Ha2].
  pose proof (totalAlloc_sum am defL ad Ha1 Ead) as Sd.
  pose proof (totalAlloc_sum am eqL ae Ha2 Eae) as Se.
  rewrite V2_balance_eq, Hbc, E0, Ead, Eae. cbn [Math_abs neg truthy].
  rewrite (Qeq_bool_nonzero ad Hd), (Qeq_bool_nonzero ae He).
  cbn [negb div]. change (Qeq_bool 2 0) with false. cbn [div].
  rewrite (Qeq_bool_nonzero ad Hd), (Qeq_bool_nonzero ae He).
  destruct (gtb (Fin (Qabs n0)) (Fin 0.001)) eqn:G.
  - apply gtb_fin in G.
    destruct (bumped_net am rd defL eqL (- n0 / 2 / ad) (- n0 / 2 / ae)
                Hnd Ha Hr) as [n [E Hn]].
    assert (Hz : n == 0).
    { rewrite Hn, <- Hn0, <- Sd, <- Se. apply cancel_net; assumption. }
    exists n0, n.
    split; [exact E0 | split; [exact E | split; [| split]]].
    + rewrite Hz. change (Qabs 0) with 0. lra.
    + intros _. exact Hz.
    + intros Hle. lra.
  - apply gtb_fin_inv in G.
    exists n0, n0.
    split; [exact E0 | split; [exact E0 | split; [exact G | split]]].
    + intros Hlt. lra.
    + reflexivity.
Qed.

Lemma V1_balance_reconciled am rd defL eqL (ad ae : Q) :
  NoDup (defL ++ eqL) ->
  finiteOn am (defL ++ eqL) -> finiteOn rd (defL ++ eqL) ->
  totalAlloc am defL = Fin ad -> totalAlloc am eqL = Fin ae ->
  0 < ad -> 0 < ae ->
  reconciled am rd (V1.balance am rd defL eqL) (defL ++ eqL).
Proof.
  intros Hnd Ha Hr Ead Eae Hd He.
  destruct (netMove_fin am rd _ Ha Hr) as [n0 [E0 Hn0]].
  pose proof Ha as Ha'. apply finiteOn_app in Ha'. destruct Ha' as [Ha1 Ha2].
  pose proof Hr as Hr'. apply finiteOn_app in Hr'. destruct Hr' as [Hr1 Hr2].
  destruct (netMove_fin am rd defL Ha1 Hr1) as [nd [End Hnd']].
  destruct (netMove_fin am rd eqL Ha2 Hr2) as [ne [Ene Hne]].
  pose proof (totalAlloc_sum am defL ad Ha1 Ead) as Sd.
  pose proof (totalAlloc_sum am eqL ae Ha2 Eae) as Se.
  assert (Hsum : nd + ne == n0).
  { rewrite Hn0, qsum_app, Hnd', Hne. reflexivity. }
  rewrite V1_balance_eq, End, Ene, Ead, Eae. cbn [add Math_abs neg].
  rewrite (proj2 (gtb_fin ad 0) Hd), (proj2 (gtb_fin ae 0) He).
  cbn [div]. change (Qeq_bool 2 0) with false. cbn [div].
  rewrite (Qeq_bool_nonzero ad), (Qeq_bool_nonzero ae) by lra.
  destruct (gtb (Fin (Qabs (nd + ne))) (Fin 0.001)) eqn:G.
  - apply gtb_fin in G. rewrite Hsum in G.
    destruct (bumped_net am rd defL eqL
                (- (nd + ne) / 2 / ad) (- (nd + ne) / 2 / ae) Hnd Ha Hr)
      as [n [E Hn]].
    assert (Hz : n == 0).
    { rewrite Hn, <- Hn0, <- Sd, <- Se, Hsum. apply cancel_net; lra. }
    exists n0, n.
    split; [exact E0 | split; [exact E | split; [| split]]].
    + rewrite Hz. change (Qabs 0) with 0. lra.
    + intros _. exact Hz.
    + intros Hle. lra.
  - apply gtb_fin_inv in G. rewrite Hsum in G.
    exists n0, n0.
    split; [exact E0 | split; [exact E0 | split; [exact G | split]]].
    + intros Hlt. lra.
    + reflexivity.
Qed.

(** The sum over a list is the sum over the two parts a test splits it
    into. *)
Lemma qsum_partition f (p : string -> bool) l :
  qsum f l
  == qsum f (List.filter p l) + qsum f (List.filter (fun t => negb (p t)) l).
Proof.
  induction l as [|t l IH]; cbn [qsum List.filter]; [ring |].
  destruct (p t); cbn [negb qsum]; rewrite IH; ring.
Qed.

Lemma NoDup_list_filter (p : string -> bool) l :
  NoDup l -> NoDup (List.filter p l).
Proof.
  induction l as [|t l IH]; intros H; cbn [List.filter]; [exact H |].
  apply NoDup_cons in H. destruct H as [Ht Hl].
  destruct (p t); [| apply IH, Hl].
  apply NoDup_cons. split; [| apply IH, Hl].
  rewrite list_elem_of_In in *. intros Hin. apply Ht.
  apply filter_In in Hin. tauto.
Qed.

Lemma NoDup_partition (p : string -> bool) l :
  NoDup l ->
  NoDup (List.filter p l ++ List.filter (fun t => negb (p t)) l).
Proof.
  intros H. apply NoDup_app. split; [apply NoDup_list_filter, H |].
  split; [| apply NoDup_list_filter, H].
  intros t. rewrite !list_elem_of_In, !filter_In.
  intros [_ Hp] [_ Hn]. rewrite Hp in Hn. discriminate.
Qed.

(** A finite net move has finite terms only: an infinity or NaN met on
    the way would stay in the sum. *)
Lemma add_fin_inv (x y : num) (q : Q) :
  add x y = Fin q -> (exists a, x = Fin a) /\ (exists b, y = Fin b).
Proof.
  destruct x, y; cbn; intros H; try discriminate. split; eauto.
Qed.

Lemma mul_fin_inv (x y : num) (q : Q) :
  mul x y = Fin q -> (exists a, x = Fin a) /\ (exists b, y = Fin b).
Proof.
  destruct x as [a| | |], y as [b| | |]; cbn; unfold inf_times; intros H;
    try discriminate; try (split; eauto; fail);
    repeat match goal with
           | H : context [match ?c with _ => _ end] |- _ => destruct c
           end; discriminate.
Qed.

Lemma netFold_fin_inv am rd l (a : num) (n : Q) :
  foldl (fun n t => add n (mul (getN rd t) (getN am t))) a l = Fin n ->
  finiteOn rd l.
Proof.
  revert a. induction l as [|t l IH]; intros a H; [intros u [] |].
  cbn [foldl] in H. intros u [<- | Hu]; [| exact (IH _ H u Hu)].
  assert (G : forall l' (x : num) (q : Q),
                foldl (fun n t => add n (mul (getN rd t) (getN am t))) x l'
                = Fin q -> exists x', x = Fin x').
  { induction l' as [|v l' IH']; intros x q Hx; [eauto |].
    cbn [foldl] in Hx. destruct (IH' _ _ Hx) as [x' Hx'].
    apply add_fin_inv in Hx'. tauto. }
  destruct (G l _ n H) as [x' Hx'].
  apply add_fin_inv in Hx'. destruct Hx' as [_ [b Hb]].
  apply mul_fin_inv in Hb. destruct Hb as [[d Hd] _].
  exists d. unfold getN in Hd. destruct (rd !! t) as [x|]; cbn in Hd;
    [congruence | discriminate].
Qed.

(** What the balance step achieves on its two lists, it achieves on the
    tickers the lists were split from. *)
Lemma reconciled_over_tickers am rd rd' (p : string -> bool) l :
  finiteOn am l -> finiteOn rd l ->
  reconciled am rd rd'
    (List.filter p l ++ List.filter (fun t => negb (p t)) l) ->
  reconciled am rd rd' l.
Proof.
  intros Ha Hr (n0' & n' & E0 & E & Hle & Hz & Hsame).
  set (l' := List.filter p l ++ List.filter (fun t => negb (p t)) l) in *.
  assert (Hsub : forall t, In t l' -> In t l).
  { intros t Ht. unfold l' in Ht. apply in_app_or in Ht.
    rewrite !filter_In in Ht. tauto. }
  assert (Hcov : forall t, In t l -> In t l').
  { intros t Ht. unfold l'. apply in_or_app. rewrite !filter_In.
    destruct (p t); cbn; tauto. }
  assert (Ha' : finiteOn am l') by (intros t Ht; apply Ha, Hsub, Ht).
  assert (Hr' : finiteOn rd l') by (intros t Ht; apply Hr, Hsub, Ht).
  assert (Hr2' : finiteOn rd' l') by (apply (netFold_fin_inv am rd' l' _ _ E)).
  assert (Hr2 : finiteOn rd' l) by (intros t Ht; apply Hr2', Hcov, Ht).
  destruct (netMove_fin am rd l Ha Hr) as [n0 [F0 Hn0]].
  destruct (netMove_fin am rd' l Ha Hr2) as [n [F Hn]].
  destruct (netMove_fin am rd l' Ha' Hr') as [m0 [G0 Hm0]].
  destruct (netMove_fin am rd' l' Ha' Hr2') as [m [G Hm]].
  rewrite E0 in G0. injection G0 as <-.
  rewrite E in G. injection G as <-.
  assert (Q0 : n0 == n0').
  { rewrite Hn0, Hm0. unfold l'. rewrite qsum_app. apply qsum_partition. }
  assert (Q1 : n == n').
  { rewrite Hn, Hm. unfold l'. rewrite qsum_app. apply qsum_partition. }
  exists n0, n.
  split; [exact F0 | split; [exact F | split; [| split]]].
  - rewrite Q1. exact Hle.
  - rewrite Q0, Q1. exact Hz.
  - rewrite Q0. exact Hsame.
Qed.

(** C1, as the code has it.  Take tickers that are all different, with
    finite allocations and finite raw deltas, split into the two lists as
    the code splits them.  The balance step of V2/V3, when
    [balanceConstraint] is set and neither bucket total is zero, brings
    the net move over all tickers to exactly 0 if it exceeded 0.001 in
    absolute value and leaves the deltas untouched otherwise, so that the
    net move ends within 0.001 of zero.  So does the step of V1 when both
    totals are positive and every ticker has the class 'Defensive' or
    'Equity'. *)
Theorem balance_net_within_threshold
    (cfg : Config) (scores : indicator -> num) (md : Metadata)
    (allocMap rawDelta : gmap string num) (tickers : list string)
    (ad ae : Q) :
  NoDup tickers ->
  finiteOn allocMap tickers ->
  finiteOn rawDelta tickers ->
  (balanceConstraint (REBALANCING cfg) = true ->
   totalAlloc allocMap (V2.rawShifts cfg scores md tickers).1.2 = Fin ad ->
   totalAlloc allocMap (V2.rawShifts cfg scores md tickers).2 = Fin ae ->
   ~ ad == 0 -> ~ ae == 0 ->
   reconciled allocMap rawDelta
     (V2.balance cfg allocMap rawDelta
        (V2.rawShifts cfg scores md tickers).1.2
        (V2.rawShifts cfg scores md tickers).2)
     tickers)
  /\ ((forall t, In t tickers ->
         cellIs (classMap md !! t) "Defensive" = true
         \/ cellIs (classMap md !! t) "Equity" = true) ->
      totalAlloc allocMap (V1.defList md tickers) = Fin ad ->
      totalAlloc allocMap (V1.eqList md tickers) = Fin ae ->
      0 < ad -> 0 < ae ->
      reconciled allocMap rawDelta
        (V1.balance allocMap rawDelta
           (V1.defList md tickers) (V1.eqList md tickers))
        tickers).
Proof.
  intros Hnd Ha Hr.
  assert (Hsub : forall t,
            In t (List.filter (isDefensive md) tickers
                  ++ List.filter (fun t => negb (isDefensive md t)) tickers) ->
            In t tickers).
  { intros t Ht. apply in_app_or in Ht. rewrite !filter_In in Ht. tauto. }
  split.
  - destruct (rawShifts_lists cfg scores md tickers) as [rd ->]. cbn [fst snd].
    intros Hbc Ead Eae Hd He.
    apply (reconciled_over_tickers _ _ _ (isDefensive md)); [exact Ha | exact Hr |].
    apply (V2_balance_reconciled cfg _ _ _ _ ad ae); try assumption.
    + apply NoDup_partition, Hnd.
    + intros t Ht. apply Ha, Hsub, Ht.
    + intros t Ht. apply Hr, Hsub, Ht.
  - intros Hcls.
    assert (Eq : V1.eqList md tickers
                 = List.filter (fun t => negb (isDefensive md t)) tickers).
    { unfold V1.eqList. apply filter_ext_in. intros t Ht. unfold isDefensive.
      destruct (Hcls t Ht) as [H | H]; rewrite H.
      - destruct (classMap md !! t) as [[x | c] |]; cbn in *; try discriminate.
        apply String.eqb_eq in H. subst c. reflexivity.
      - destruct (classMap md !! t) as [[x | c] |]; cbn in *; try discriminate.
        apply String.eqb_eq in H. subst c. reflexivity. }
    rewrite Eq. change (V1.defList md tickers)
      with (List.filter (isDefensive md) tickers).
    intros Ead Eae Hd He.
    apply (reconciled_over_tickers _ _ _ (isDefensive md)); [exact Ha | exact Hr |].
    apply (V1_balance_reconciled _ _ _ _ ad ae); try assumption.
    + apply NoDup_partition, Hnd.
    + intros t Ht. apply Ha, Hsub, Ht.
    + intros t Ht. apply Hr, Hsub, Ht.
Qed.

(** 60% of the equity 'A' with raw delta +0.04 and 40% of the defensive
    'B' with +0.02: the net move 0.032 is brought to 0 by V2 and by V1. *)
Lemma balance_net_within_threshold_witness :
  reconciled allocD deltaD
    (V2.balance V2.CONFIG allocD deltaD
       (V2.rawShifts V2.CONFIG (fun _ => Fin 1) metaAB ["A"; "B"]).1.2
       (V2.rawShifts V2.CONFIG (fun _ => Fin 1) metaAB ["A"; "B"]).2)
    ["A"; "B"]
  /\ reconciled allocD deltaD
       (V1.balance allocD deltaD
          (V1.defList metaAB ["A"; "B"]) (V1.eqList metaAB ["A"; "B"]))
       ["A"; "B"].
Proof.
  destruct (balance_net_within_threshold V2.CONFIG (fun _ => Fin 1) metaAB
              allocD deltaD ["A"; "B"] (0 + 0.4) (0 + 0.6)) as [H2 H1].
  - apply NoDup_cons. split; [| apply NoDup_singleton].
    rewrite list_elem_of_In. intros [H | []]. discriminate.
  - intros t [<- | [<- | []]]; eexists; reflexivity.
  - intros t [<- | [<- | []]]; eexists; reflexivity.
  - split.
    + apply H2.
      * reflexivity.
      * vm_compute. reflexivity.
      * vm_compute. reflexivity.
      * vm_compute. discriminate.
      * vm_compute. discriminate.
    + apply H1.
      * intros t [<- | [<- | []]]; [right | left]; vm_compute; reflexivity.
      * vm_compute. reflexivity.
      * vm_compute. reflexivity.
      * vm_compute. reflexivity.
      * vm_compute. reflexivity.
Defined.

(** C1, as stated, fails, and each condition of the statement above is
    needed; in every case below neither bucket total is zero.
    - The gate: both buckets hold 50%, the net move 0.0008 is under the
      0.001 gate, nothing is adjusted, and the sum stays 0.0008, far more
      than 1e-6 from zero.
    - A ticker listed twice: with the rows A 30%, A 30%, B 40% the
      equity list holds 'A' twice, 'A' is shifted twice, and the net move
      over the assets A and B ends at 0.0105, in V2 and in V1.
    - V1 and a third class: 'GLD' of class 'Commodity' is in neither list
      of V1, so its move is never offset, and the net move over the three
      tickers ends at 0.0035.
    - A raw delta that is no number leaves the net move NaN.
    - With [balanceConstraint] off V2 adjusts nothing: the net move stays
      0.032.
    - V1 tests [totalDefAlloc > 0]: with a defensive total of -0.4 only
      the equity list is shifted and the net move ends at 0.024. *)
Lemma small_net_left_unreconciled :
  (truthy (totalAlloc allocHalf (V1.defList metaAB ["A"; "B"])) = true
   /\ truthy (totalAlloc allocHalf (V1.eqList metaAB ["A"; "B"])) = true
   /\ V2.balance V2.CONFIG allocHalf deltaSmall
        (V2.rawShifts V2.CONFIG (fun _ => Fin 1) metaAB ["A"; "B"]).1.2
        (V2.rawShifts V2.CONFIG (fun _ => Fin 1) metaAB ["A"; "B"]).2
      = deltaSmall
   /\ V1.balance allocHalf deltaSmall
        (V1.defList metaAB ["A"; "B"]) (V1.eqList metaAB ["A"; "B"])
      = deltaSmall
   /\ num_eq (netMove allocHalf deltaSmall ["A"; "B"]) (Fin 0.0008)
   /\ gtb (Math_abs (netMove allocHalf deltaSmall ["A"; "B"]))
          (Fin 0.000001) = true)
  /\ (let '(allocMap, tickers) := V2.loadAllocations rowsTwice in
      let scores := V2.getEnhancedMarketData V2.CONFIG stressed noHist in
      let '(rawDelta, defList, eqList) :=
        V2.rawShifts V2.CONFIG scores metaAB tickers in
      let balanced := V2.balance V2.CONFIG allocMap rawDelta defList eqList in
      tickers = ["A"; "A"; "B"]
      /\ eqList = ["A"; "A"]
      /\ truthy (totalAlloc allocMap defList) = true
      /\ truthy (totalAlloc allocMap eqList) = true
      /\ num_eq (netMove allocMap balanced ["A"; "B"]) (Fin 0.0105)
      /\ gtb (Math_abs (netMove allocMap balanced tickers)) (Fin 0.001)
         = true
      /\ num_eq (netMove allocMap
                   (V1.balance allocMap rawDelta
                      (V1.defList metaAB tickers) (V1.eqList metaAB tickers))
                   ["A"; "B"])
                (Fin 0.0105))
  /\ (exists scores,
        V1.getEnhancedMarketData V1.defaultConfig stressed None None
        = Returns scores
        /\ let tickers := ["CASH.TO"; "GLD"; "XEQT.TO"] in
           let rawDelta :=
             V1.rawDeltas V1.defaultConfig scores mixedMeta tickers in
           let balanced :=
             V1.balance allocMixed rawDelta
               (V1.defList mixedMeta tickers) (V1.eqList mixedMeta tickers) in
           gtb (totalAlloc allocMixed (V1.defList mixedMeta tickers)) (Fin 0)
           = true
           /\ gtb (totalAlloc allocMixed (V1.eqList mixedMeta tickers)) (Fin 0)
              = true
           /\ ~ In "GLD" (V1.defList mixedMeta tickers
                          ++ V1.eqList mixedMeta tickers)
           /\ num_eq (netMove allocMixed balanced tickers) (Fin 0.0035))
  /\ (truthy (totalAlloc allocD ["B"]) = true
      /\ truthy (totalAlloc allocD ["A"]) = true
      /\ netMove allocD
           (V2.balance V2.CONFIG allocD deltaNaN
              (V2.rawShifts V2.CONFIG (fun _ => Fin 1) metaAB ["A"; "B"]).1.2
              (V2.rawShifts V2.CONFIG (fun _ => Fin 1) metaAB ["A"; "B"]).2)
           ["A"; "B"]
         = NaN
      /\ netMove allocD
           (V1.balance allocD deltaNaN
              (V1.defList metaAB ["A"; "B"]) (V1.eqList metaAB ["A"; "B"]))
           ["A"; "B"]
         = NaN)
  /\ num_eq (netMove allocD
               (V2.balance noBalance allocD deltaD
                  (V2.rawShifts noBalance (fun _ => Fin 1) metaAB
                     ["A"; "B"]).1.2
                  (V2.rawShifts noBalance (fun _ => Fin 1) metaAB
                     ["A"; "B"]).2)
               ["A"; "B"])
            (Fin 0.032)
  /\ (num_eq (totalAlloc allocShort (V1.defList metaAB ["A"; "B"]))
             (Fin (-0.4))
      /\ num_eq (totalAlloc allocShort (V1.eqList metaAB ["A"; "B"]))
                (Fin 1.4)
      /\ num_eq (netMove allocShort
                   (V1.balance allocShort deltaD
                      (V1.defList metaAB ["A"; "B"])
                      (V1.eqList metaAB ["A"; "B"]))
                   ["A"; "B"])
                (Fin 0.024)).
Proof.
  split; [| split; [| split; [| split; [| split]]]].
  - vm_compute. repeat split.
  - vm_compute. repeat split.
  - eexists. split; [reflexivity |]. vm_compute.
    split; [reflexivity | split; [reflexivity | split; [| reflexivity]]].
    intros [H | [H | []]]; discriminate.
  - vm_compute. repeat split.
  - vm_compute. reflexivity.
  - vm_compute. repeat split.
Qed.

End Balance.

(* ===================================================================== *)
(** ** The scenarios of the specification, run on the model *)
(* ===================================================================== *)

Section Scenarios.

(** Scenario A: unemployment 3.0 with no trend data scores 2, "(Very
    Low)". *)
Example scenario_A :
  V2.calculateUnemploymentScore V2.CONFIG (Some (Fin 3.0)) []
  = {| score := Fin 2; desc := None;
       description := Some [Num (Fin 3.0); Txt "%"; Txt " (Very Low)"] |}.
Proof. reflexivity. Qed.

(** Scenario B: CPI on target scores 1. *)
Example scenario_B :
  V2.calculateCPIScore V2.CONFIG (Some (Fin 2.0)) [] "US"
  = {| score := Fin 1; desc := None;
       description := Some [Num (Fin 2.0); Txt "%"; Txt " (On Target)"] |}.
Proof. reflexivity. Qed.

(** Scenario C: a VIX of 35 on a rising series stays clamped at -2. *)
Example scenario_C :
  score (V2.calculateVIXScore V2.CONFIG (Some (Fin 35))
           [Fin 20; Fin 21; Fin 21; Fin 21]) = Fin (-2).
Proof. reflexivity. Qed.

(** Scenario D: a net move of 0.032 is offset by -0.016 per bucket. *)
Example scenario_D :
  num_eq (netMove allocD deltaD ["B"; "A"]) (Fin 0.032)
  /\ num_eq (getN (V2.balance V2.CONFIG allocD deltaD ["B"] ["A"]) "A")
            (Fin (0.04 - 0.016 / 0.6))
  /\ num_eq (getN (V2.balance V2.CONFIG allocD deltaD ["B"] ["A"]) "B")
            (Fin (0.02 - 0.016 / 0.4))
  /\ num_eq (netMove allocD (V2.balance V2.CONFIG allocD deltaD ["B"] ["A"])
               ["B"; "A"])
            (Fin 0).
Proof. vm_compute. repeat split. Qed.

(** Scenario E: a final delta of 0.003 under a threshold of 0.005. *)
Example scenario_E : formatSignal (Fin 0.005) (Fin 0.003) = "Hold".
Proof. reflexivity. Qed.

(** A whole call: 60% of a U.S. equity and 40% of a Canadian defensive
    asset under low unemployment and a low VIX. *)
Example whole_call :
  let ss := {| allocData := [("A", CStr "60%"); ("B", CNum (Fin 40))];
               meta := [("A", CStr "Equity", CStr "U.S.", CNum (Fin 1));
                        ("B", CStr "Defensive", CStr "Canada", CStr "")] |} in
  let ind k := match k with
               | unemployment => Some (Fin 3.0)
               | vix => Some (Fin 12)
               | _ => None
               end in
  V2.GET_REBALANCE_SIGNAL V2.CONFIG ss ind noHist "A"
  = Returns "Increase 2.08%"
  /\ V2.GET_REBALANCE_SIGNAL V2.CONFIG ss ind noHist "B"
     = Returns "Decrease 3.13%".
Proof. vm_compute. split; reflexivity. Qed.

End Scenarios.

(* ===================================================================== *)
(** ** More on the trend estimator *)
(* ===================================================================== *)

Section TrendMore.

Local Open Scope list_scope.

Lemma V1_trend_shape (historicalData : option (list num)) (periods : Z) :
  V1.calculateTrend historicalData periods = NaN
  \/ inRange (-1) 1 (V1.calculateTrend historicalData periods).
Proof.
  unfold V1.calculateTrend.
  destruct historicalData as [h|];
    [| right; exists 0; split; [reflexivity | lra]].
  destruct (_ <? _)%Z; [right; exists 0; split; [reflexivity | lra] |].
  destruct (_ =? _)%nat; [right; exists 0; split; [reflexivity | lra] |].
  apply clamp_nan_or_inRange. lra.
Qed.

(** X1.  Whatever the series and the look-back are, the trend is NaN or a
    finite number in [-1, 1]: a division by zero never leaves the
    estimator as an infinity. *)
Theorem trend_is_nan_or_bounded
    (historical : list num) (historicalData : option (list num))
    (periods : Z) :
  (V2.calculateTrend historical periods = NaN
   \/ inRange (-1) 1 (V2.calculateTrend historical periods))
  /\ (V1.calculateTrend historicalData periods = NaN
      \/ inRange (-1) 1 (V1.calculateTrend historicalData periods)).
Proof. split; [apply V2_trend_shape | apply V1_trend_shape]. Qed.

Lemma clampIndex_zero (len : Z) : (0 <= len)%Z -> clampIndex len 0 = 0%Z.
Proof. intros H. unfold clampIndex. rewrite Z.ltb_irrefl. lia. Qed.

Lemma slice_prefix {A} (arr : list A) (n : Z) :
  (0 <= n <= Z.of_nat (length arr))%Z ->
  slice arr 0 n = take (Z.to_nat n) arr.
Proof.
  intros H. unfold slice. rewrite clampIndex_zero by lia.
  unfold clampIndex. destruct (Z.ltb_spec n 0); [lia |].
  rewrite Z.min_l by lia. rewrite Z.sub_0_r. reflexivity.
Qed.

Lemma sliceFrom_suffix {A} (arr : list A) (p : Z) :
  (1 <= p <= Z.of_nat (length arr))%Z ->
  sliceFrom arr (- p) = drop (length arr - Z.to_nat p) arr.
Proof.
  intros H. unfold sliceFrom, slice, clampIndex.
  destruct (Z.ltb_spec (- p) 0); [| lia].
  destruct (Z.ltb_spec (Z.of_nat (length arr)) 0); [lia |].
  rewrite Z.min_id, Z.max_l by lia.
  replace (Z.to_nat (Z.of_nat (length arr) + - p))
    with (length arr - Z.to_nat p)%nat by lia.
  apply take_ge. rewrite length_drop. lia.
Qed.

(** X2.  For a look-back between 1 and the length of the series less one,
    both estimators split the series in two: the older prefix, which is
    not empty, followed by the [periods] most recent values. *)
Theorem trend_split_is_partition (historical : list num) (periods : Z) :
  (1 <= periods)%Z ->
  (periods + 1 <= Z.of_nat (length historical))%Z ->
  V2.olderOf historical periods ++ V2.recentOf historical periods
  = historical
  /\ Z.of_nat (length (V2.recentOf historical periods)) = periods
  /\ V2.olderOf historical periods <> []
  /\ slice historical 0 (- Z.min periods (Z.of_nat (length historical)))
     = V2.olderOf historical periods
  /\ sliceFrom historical (- Z.min periods (Z.of_nat (length historical)))
     = V2.recentOf historical periods.
Proof.
  intros H1 H2. unfold V2.olderOf, V2.recentOf.
  rewrite Z.min_l by lia.
  rewrite slice_prefix by lia. rewrite sliceFrom_suffix by lia.
  replace (Z.to_nat (Z.of_nat (length historical) - periods))
    with (length historical - Z.to_nat periods)%nat by lia.
  split; [apply take_drop |].
  split; [rewrite length_drop; lia |].
  split.
  - intros E. apply (f_equal length) in E.
    rewrite length_take in E. cbn in E. lia.
  - split; [| reflexivity].
    unfold slice. rewrite clampIndex_zero by lia. unfold clampIndex.
    destruct (Z.ltb_spec (- periods) 0); [| lia].
    rewrite Z.max_l by lia. rewrite Z.sub_0_r.
    replace (Z.to_nat (Z.of_nat (length historical) + - periods))
      with (length historical - Z.to_nat periods)%nat by lia.
    reflexivity.
Qed.

Lemma trend_split_is_partition_witness :
  V2.olderOf [Fin 1; Fin 2; Fin 3; Fin 4; Fin 5] 3
  ++ V2.recentOf [Fin 1; Fin 2; Fin 3; Fin 4; Fin 5] 3
  = [Fin 1; Fin 2; Fin 3; Fin 4; Fin 5].
Proof.
  apply (trend_split_is_partition [Fin 1; Fin 2; Fin 3; Fin 4; Fin 5] 3).
  - lia.
  - simpl. lia.
Defined.

Lemma V2_trend_formula (historical : list num) (periods : Z) (o r : Q) :
  (periods + 1 <= Z.of_nat (length historical))%Z ->
  V2.avg (V2.olderOf historical periods) = Fin o -> ~ o == 0 ->
  V2.avg (V2.recentOf historical periods) = Fin r ->
  V2.calculateTrend historical periods
  = Math_max (Fin (-1)) (Math_min (Fin 1) (Fin ((r + - o) / o * 10))).
Proof.
  intros Hlen Ho Hz Hr. unfold V2.calculateTrend.
  destruct (Z.ltb_spec (Z.of_nat (length historical)) (periods + 1));
    [lia |].
  destruct (V2.olderOf historical periods) as [|x older] eqn:Eo.
  { rewrite avg_nil in Ho. discriminate. }
  cbn [length Nat.eqb]. rewrite Hr, Ho.
  unfold sub, neg, add, div. rewrite (Qeq_bool_nonzero o Hz). reflexivity.
Qed.

(** X3.  The trend is the relative change of the recent average [r] over
    the older average [o], times ten and clamped.  With a positive older
    average a rise of 10% or more saturates at 1 and a fall of 10% or
    more at -1.  With a negative older average the sign is inverted: a
    rise ([o < r]) gives a negative trend. *)
Theorem trend_saturates_and_inverts
    (historical : list num) (periods : Z) (o r : Q) :
  (periods + 1 <= Z.of_nat (length historical))%Z ->
  V2.avg (V2.olderOf historical periods) = Fin o -> ~ o == 0 ->
  V2.avg (V2.recentOf historical periods) = Fin r ->
  (0 < o -> 1.1 * o <= r -> V2.calculateTrend historical periods = Fin 1)
  /\ (0 < o -> r <= 0.9 * o ->
      V2.calculateTrend historical periods = Fin (-1))
  /\ (o < 0 -> o < r ->
      exists q, V2.calculateTrend historical periods = Fin q /\ q < 0).
Proof.
  intros Hlen Ho Hz Hr.
  rewrite (V2_trend_formula historical periods o r Hlen Ho Hz Hr).
  set (c := (r + - o) / o).
  split; [| split].
  - intros Hpos Hr1.
    assert (Hc : 0.1 <= c) by (apply Qle_shift_div_l; lra).
    unfold Math_min, cmp.
    destruct (Qcompare_spec 1 (c * 10)); try reflexivity. lra.
  - intros Hpos Hr1.
    assert (Hc : c <= - 0.1) by (apply Qle_shift_div_r; lra).
    unfold Math_min, cmp.
    destruct (Qcompare_spec 1 (c * 10)); try lra.
    unfold Math_max, cmp.
    destruct (Qcompare_spec (-1) (c * 10)); try reflexivity. lra.
  - intros Hneg Hr1.
    assert (Hc : c < 0).
    { assert (Hp : 0 < (r + - o) / (- o)) by (apply Qlt_shift_div_l; lra).
      assert (E : c == - ((r + - o) / (- o))) by (unfold c; field; lra).
      lra. }
    unfold Math_min, cmp.
    destruct (Qcompare_spec 1 (c * 10)); try lra.
    unfold Math_max, cmp.
    destruct (Qcompare_spec (-1) (c * 10)); eexists;
      (split; [reflexivity | lra]).
Qed.

Lemma trend_saturates_and_inverts_witness :
  exists q,
    V2.calculateTrend [Fin (-1); Fin (-0.5); Fin (-0.5); Fin (-0.5)] 3
    = Fin q /\ q < 0.
Proof.
  destruct (trend_saturates_and_inverts
              [Fin (-1); Fin (-0.5); Fin (-0.5); Fin (-0.5)] 3
              ((0 + -1) / 1) ((0 + -0.5 + -0.5 + -0.5) / 3))
    as [_ [_ H]].
  - simpl. lia.
  - reflexivity.
  - vm_compute. discriminate.
  - reflexivity.
  - apply H; vm_compute; reflexivity.
Defined.

End TrendMore.

(* ===================================================================== *)
(** ** More on the indicator scorers *)
(* ===================================================================== *)

Section ScorersMore.

Lemma cmp_fin_l_mono (c1 c2 : Q) (T : num) :
  c1 <= c2 ->
  (ltb (Fin c2) T = true -> ltb (Fin c1) T = true)
  /\ (gtb (Fin c1) T = true -> gtb (Fin c2) T = true).
Proof.
  intros Hle. unfold ltb, gtb, cmp. destruct T as [t| | |]; split; intros H;
    try discriminate; try reflexivity.
  - destruct (Qcompare_spec c2 t); try discriminate.
    destruct (Qcompare_spec c1 t); try reflexivity; lra.
  - destruct (Qcompare_spec c1 t); try discriminate.
    destruct (Qcompare_spec c2 t); try reflexivity; lra.
Qed.

Lemma clamp_mono (lo hi x y : Q) :
  lo <= hi -> x <= y ->
  finLe (Math_max (Fin lo) (Math_min (Fin hi) (Fin x)))
        (Math_max (Fin lo) (Math_min (Fin hi) (Fin y))).
Proof.
  intros Hlh Hxy. unfold finLe, Math_max, Math_min, cmp.
  destruct (Qcompare_spec hi x), (Qcompare_spec hi y);
    cbv beta iota;
    repeat match goal with
           | |- context [(?a ?= ?b)] => destruct (Qcompare_spec a b)
           end;
    do 2 eexists; (split; [reflexivity | split; [reflexivity | lra]]).
Qed.

(** Case analysis on the comparisons of two readings [c1 <= c2] with the
    same thresholds, keeping only the combinations the order allows. *)
Ltac mono_cases c1 c2 Hle :=
  repeat match goal with
         | |- context [ltb (Fin c2) ?T] =>
             let H := fresh "H" in
             destruct (cmp_fin_l_mono c1 c2 T Hle) as [H _];
             destruct (ltb (Fin c2) T), (ltb (Fin c1) T);
             try (specialize (H eq_refl); discriminate H); clear H
         | |- context [gtb (Fin c1) ?T] =>
             let H := fresh "H" in
             destruct (cmp_fin_l_mono c1 c2 T Hle) as [_ H];
             destruct (gtb (Fin c1) T), (gtb (Fin c2) T);
             try (specialize (H eq_refl); discriminate H); clear H
         | |- context [if ?b then _ else _] => destruct b
         end.

Ltac by_clamp :=
  cbn [score V2.result sub neg add mul]; apply clamp_mono; lra.

(** X4.  Lower is better for unemployment, the volatility index and the
    credit spread: with the same thresholds and the same history, a
    lower reading never scores below a higher one, however the
    thresholds are ordered. *)
Theorem lower_reading_scores_no_worse
    (cfg : Config) (hist : list num) (c1 c2 : Q) :
  c1 <= c2 ->
  finLe (score (V2.calculateUnemploymentScore cfg (Some (Fin c2)) hist))
        (score (V2.calculateUnemploymentScore cfg (Some (Fin c1)) hist))
  /\ finLe (score (V2.calculateVIXScore cfg (Some (Fin c2)) hist))
           (score (V2.calculateVIXScore cfg (Some (Fin c1)) hist))
  /\ finLe (score (V2.calculateCreditScore cfg (Some (Fin c2)) hist))
           (score (V2.calculateCreditScore cfg (Some (Fin c1)) hist)).
Proof.
  intros Hle.
  unfold V2.calculateUnemploymentScore, V2.calculateVIXScore,
    V2.calculateCreditScore.
  destruct (V2_trend_shape hist (TREND_PERIODS cfg)) as [-> | [t [-> Ht]]];
    cbn [truthy]; try destruct (negb (Qeq_bool t 0));
    (split; [| split]); mono_cases c1 c2 Hle; by_clamp.
Qed.

Lemma lower_reading_scores_no_worse_witness :
  finLe (score (V2.calculateUnemploymentScore V2.CONFIG (Some (Fin 6)) []))
        (score (V2.calculateUnemploymentScore V2.CONFIG (Some (Fin 4)) [])).
Proof.
  apply (lower_reading_scores_no_worse V2.CONFIG [] 4 6).
  vm_compute. discriminate.
Defined.

(** X5.  Higher is better for the yield-curve spread: with the same
    history a larger spread never scores below a smaller one. *)
Theorem higher_spread_scores_no_worse
    (cfg : Config) (hist : list num) (c1 c2 : Q) :
  c1 <= c2 ->
  finLe (score (V2.calculateYieldScore cfg (Some (Fin c1)) hist))
        (score (V2.calculateYieldScore cfg (Some (Fin c2)) hist)).
Proof.
  intros Hle. unfold V2.calculateYieldScore.
  destruct (V2_trend_shape hist (TREND_PERIODS cfg)) as [-> | [t [-> Ht]]];
    cbn [truthy]; try destruct (negb (Qeq_bool t 0));
    mono_cases c1 c2 Hle; by_clamp.
Qed.

Lemma higher_spread_scores_no_worse_witness :
  finLe (score (V2.calculateYieldScore V2.CONFIG (Some (Fin (-0.7))) []))
        (score (V2.calculateYieldScore V2.CONFIG (Some (Fin 0.6)) [])).
Proof.
  apply (higher_spread_scores_no_worse V2.CONFIG [] (-0.7) 0.6).
  vm_compute. discriminate.
Defined.

(** X6.  Near target is best for the CPI: a reading that is not below
    [veryLow] and lies within the tolerance of the target scores at least
    as high as any other reading with the same history. *)
Theorem cpi_on_target_scores_best
    (cfg : Config) (hist : list num) (region : string) (onTarget other : num) :
  ltb onTarget (cpi_veryLow (th_cpi (THRESHOLDS cfg))) = false ->
  leb (Math_abs (sub onTarget (cpi_target (th_cpi (THRESHOLDS cfg)))))
      (cpi_tolerance (th_cpi (THRESHOLDS cfg))) = true ->
  finLe (score (V2.calculateCPIScore cfg (Some other) hist region))
        (score (V2.calculateCPIScore cfg (Some onTarget) hist region)).
Proof.
  intros Hlow Hon. unfold V2.calculateCPIScore. rewrite Hlow, Hon.
  destruct (V2_trend_shape hist (TREND_PERIODS cfg)) as [-> | [t [-> Ht]]];
    cbn [truthy Math_sign]; try destruct (negb (Qeq_bool t 0));
    try destruct (t ?= 0);
    repeat match goal with
           | |- context [if ?b then _ else _] => destruct b
           end;
    by_clamp.
Qed.

Lemma cpi_on_target_scores_best_witness :
  finLe (score (V2.calculateCPIScore V2.CONFIG (Some (Fin 3.1)) [] "US"))
        (score (V2.calculateCPIScore V2.CONFIG (Some (Fin 2.2)) [] "US")).
Proof.
  apply (cpi_on_target_scores_best V2.CONFIG [] "US" (Fin 2.2) (Fin 3.1));
    reflexivity.
Defined.

End ScorersMore.

(* ===================================================================== *)
(** ** The sheet functions of V1 *)
(* ===================================================================== *)

Section SheetFunctions.

Local Open Scope list_scope.

Lemma gdp_score_of_trend_texts (historical : option (list num))
    (config : Config) :
  V1.calculateGDPScore (Some (CStr "Rising")) historical config
  = Returns {| score := Fin 1; desc := None;
               description := Some [Txt "Rising"] |}
  /\ V1.calculateGDPScore (Some (CStr "Shrinking")) historical config
     = Returns {| score := Fin 0; desc := None;
                  description := Some [Txt "Shrinking"] |}
  /\ V1.calculateGDPScore (Some (CStr "No change")) historical config
     = Returns {| score := Fin 0; desc := None;
                  description := Some [Txt "No change"] |}
  /\ V1.calculateGDPScore (Some (CStr "Error: Not enough data points"))
       historical config
     = Returns {| score := Fin 0; desc := None;
                  description := Some [Txt "Error: Not enough data points"] |}.
Proof. vm_compute. repeat split. Qed.

(** X7.  [GET_CANADIAN_GDP_TREND] answers "Rising", "Shrinking",
    "No change" or its error text; the GDP scorer knows "rising" but has
    no word for "Shrinking".  So the scorer returns for the trend text,
    and the score is 1 when the latest observation exceeds the previous
    one and 0 in every other case: a shrinking GDP is never scored
    negative. *)
Theorem gdp_trend_text_never_scores_negative
    (obs : list string) (historical : option (list num)) (config : Config) :
  exists r,
    V1.calculateGDPScore (Some (CStr (V1.GET_CANADIAN_GDP_TREND obs)))
      historical config
    = Returns r
    /\ (score r = Fin 1 \/ score r = Fin 0)
    /\ (score r = Fin 1 <->
        (2 <= length obs)%nat
        /\ gtb (parseFloat (nth (length obs - 1) obs ""%string))
               (parseFloat (nth (length obs - 2) obs ""%string)) = true).
Proof.
  destruct (gdp_score_of_trend_texts historical config)
    as (Hr & Hs & Hn & He).
  unfold V1.GET_CANADIAN_GDP_TREND.
  destruct (Nat.ltb_spec (length obs) 2) as [Hlt | Hge].
  - rewrite He. eexists. split; [reflexivity |]. cbn [score].
    split; [right; reflexivity |]. split.
    + discriminate.
    + intros [H _]. lia.
  - destruct (gtb _ _) eqn:G.
    + rewrite Hr. eexists. split; [reflexivity |]. cbn [score].
      split; [left; reflexivity |].
      split; [intros _; split; [lia | reflexivity] | intros _; reflexivity].
    + destruct (ltb _ _); rewrite ?Hs, ?Hn;
        (eexists; split; [reflexivity |]); cbn [score];
        (split; [right; reflexivity |]); split;
        try discriminate; intros [_ H]; discriminate.
Qed.



(** X9.  [fetchFredSeries] keeps no observation whose value is "." or
    does not parse: every value of the series it returns is a number
    other than NaN, and the series is no longer than the input. *)
Theorem fetched_series_has_no_nan (observations : list (string * string)) :
  Forall (fun p => isNaN (snd p) = false) (V1.fetchFredSeries observations)
  /\ (length (V1.fetchFredSeries observations) <= length observations)%nat.
Proof.
  unfold V1.fetchFredSeries. split.
  - apply Forall_rev. apply List.Forall_forall. intros p Hp.
    apply in_map_iff in Hp. destruct Hp as [ob [<- Hob]].
    apply filter_In in Hob. destruct Hob as [_ Hc].
    apply andb_true_iff in Hc. destruct Hc as [_ Hn].
    apply negb_true_iff in Hn. exact Hn.
  - rewrite length_rev, length_map. apply List.filter_length_le.
Qed.

Lemma geb_fin_false (a b : Q) : a < b -> geb (Fin a) (Fin b) = false.
Proof.
  intros H. destruct (geb (Fin a) (Fin b)) eqn:E; [| reflexivity].
  apply geb_fin in E. lra.
Qed.

Lemma determineSignal_zero (x : Q) :
  x == 0 -> V1.determineSignal (Fin x) = "Neutral (0.0)"%string.
Proof.
  intros Hx. unfold V1.determineSignal.
  rewrite (geb_fin_false x 1.5), (geb_fin_false x 0.5) by lra.
  rewrite (proj2 (geb_fin x (-0.5))) by lra.
  cbn [mul Math_round].
  rewrite (Qfloor_comp (x * 2 + (1 # 2)) (1 # 2)) by (rewrite Hx; ring).
  vm_compute. reflexivity.
Qed.

(** X10.  With no reading at all every analysis of [GET_SIGNAL_STRENGTH]
    scores 0, and the answer is "Neutral (0.0)" for any finite weights
    whose sum is not zero, whatever the history. *)
Theorem no_data_signal_strength_is_neutral
    (config : Config) (w : indicator -> Q)
    (historical : option (indicator -> option (list num))) :
  (forall k, WEIGHTS config k = Some (Fin (w k))) ->
  ~ 0 + w unemployment + w usCPI + w canCPI + w vix + w canGDP
      + w yieldCurve + w creditSpread == 0 ->
  V1.GET_SIGNAL_STRENGTH config false (fun _ => None) None historical
  = Returns [Txt "Neutral (0.0)"].
Proof.
  intros Hw Hsum. unfold V1.GET_SIGNAL_STRENGTH, V1.finalScore, V1.analyses.
  cbn [foldl V1.calculateUnemploymentScore V1.calculateCPIScore
         V1.calculateVIXScore V1.calculateGDPScore V1.calculateYieldScore
         V1.calculateCreditScore].
  unfold weight. rewrite !Hw.
  cbn [default from_option id score V1.noData mul add div].
  rewrite (Qeq_bool_nonzero _ Hsum).
  rewrite determineSignal_zero; [reflexivity |].
  field. intros H. apply Hsum. lra.
Qed.

Lemma no_data_signal_strength_is_neutral_witness :
  V1.GET_SIGNAL_STRENGTH V1.defaultConfig false (fun _ => None) None None
  = Returns [Txt "Neutral (0.0)"].
Proof.
  apply (no_data_signal_strength_is_neutral V1.defaultConfig
           (fun k => match k with
                     | unemployment => 1.5
                     | usCPI => 1.2
                     | canCPI => 0.8
                     | canGDP => 1.0
                     | vix => 1.3
                     | yieldCurve => 1.4
                     | creditSpread => 1.1
                     end)).
  - intros k. destruct k; reflexivity.
  - vm_compute. discriminate.
Defined.

End SheetFunctions.

(* ===================================================================== *)
(** ** The composite score and the raw delta *)
(* ===================================================================== *)

Section Composite.

Local Open Scope list_scope.

Variable cfg : Config.
Variable scores : indicator -> num.
Variable w : indicator -> Q.
Hypothesis weights_finite : forall k, WEIGHTS cfg k = Some (Fin (w k)).
Hypothesis weights_positive : forall k, 0 < w k.
Hypothesis scores_bounded : forall k, inRange (-2) 2 (scores k).

Lemma weight_finite (k : indicator) : weight cfg k = Fin (w k).
Proof. unfold weight. rewrite (weights_finite k). reflexivity. Qed.

Lemma boosted_step_bound (l : list (indicator * num)) (T0 W0 : Q) :
  Forall (fun km => exists m, snd km = Fin m /\ 0 < m) l ->
  exists T W,
    foldl (fun '(total, wsum) '(k, m) =>
             (add total (mul (mul (scores k) (weight cfg k)) m),
              add wsum (mul (weight cfg k) m)))
          (Fin T0, Fin W0) l
    = (Fin T, Fin W)
    /\ -2 * (W - W0) <= T - T0 <= 2 * (W - W0)
    /\ W0 <= W /\ (l <> [] -> W0 < W).
Proof.
  revert T0 W0. induction l as [|[k m] l IH]; intros T0 W0 Hl.
  - exists T0, W0. split; [reflexivity |]. split; [lra |].
    split; [lra | congruence].
  - apply List.Forall_cons_iff in Hl. destruct Hl as [[mq [Em Hm]] Hl].
    cbn [snd] in Em. subst m. cbn [foldl]. cbv beta iota.
    destruct (scores_bounded k) as [s [Es Hs]].
    rewrite Es, (weight_finite k). cbn [mul add].
    pose proof (weights_positive k) as Hw.
    destruct (IH (T0 + s * w k * mq) (W0 + w k * mq) Hl)
      as (T & W & E & HT & HW & _).
    exists T, W. split; [exact E |].
    assert (Hp : 0 < w k * mq) by nra.
    assert (Hsp : s * w k * mq == s * (w k * mq)) by ring.
    split; [| split].
    + split; nra.
    + lra.
    + intros _. lra.
Qed.

Lemma global_step_bound (l : list indicator) (T0 W0 : Q) :
  exists T W,
    foldl (fun '(total, wsum) k =>
             match WEIGHTS cfg k with
             | Some wk => (add total (mul (scores k) wk), add wsum wk)
             | None => (total, wsum)
             end)
          (Fin T0, Fin W0) l
    = (Fin T, Fin W)
    /\ -2 * (W - W0) <= T - T0 <= 2 * (W - W0)
    /\ W0 <= W /\ (l <> [] -> W0 < W).
Proof.
  revert T0 W0. induction l as [|k l IH]; intros T0 W0.
  - exists T0, W0. split; [reflexivity |]. split; [lra |].
    split; [lra | congruence].
  - cbn [foldl]. cbv beta iota. destruct (scores_bounded k) as [s [Es Hs]].
    rewrite Es, (weights_finite k). cbn [mul add].
    pose proof (weights_positive k) as Hw.
    destruct (IH (T0 + s * w k) (W0 + w k)) as (T & W & E & HT & HW & _).
    exists T, W. split; [exact E |].
    split; [| split].
    + split; nra.
    + lra.
    + intros _. lra.
Qed.

Lemma ratio_bounded (T W : Q) :
  0 < W -> -2 * W <= T <= 2 * W ->
  inRange (-2) 2 (if truthy (Fin W) then div (Fin T) (Fin W) else Fin 0).
Proof.
  intros HW HT. cbn [truthy div].
  rewrite (Qeq_bool_nonzero W) by lra. cbn [negb].
  exists (T / W). split; [reflexivity |]. split.
  - apply Qle_shift_div_l; lra.
  - apply Qle_shift_div_r; lra.
Qed.

Lemma V2_regional_score_bounded (md : Metadata) (t : string) :
  inRange (-2) 2 (V2.getRegionalScore cfg scores md t).
Proof.
  unfold V2.getRegionalScore, V2.boosted.
  destruct (cellIs (Some (V2.regionOf md t)) "U.S.");
    [| destruct (cellIs (Some (V2.regionOf md t)) "Canada")].
  - match goal with
    | |- context [foldl ?f (Fin 0, Fin 0) ?l] =>
        destruct (boosted_step_bound l 0 0) as (T & W & E & HT & _ & HW)
    end.
    { repeat apply List.Forall_cons; try apply List.Forall_nil;
        eexists; (split; [reflexivity | reflexivity]). }
    rewrite E. apply ratio_bounded; [apply HW; discriminate | lra].
  - match goal with
    | |- context [foldl ?f (Fin 0, Fin 0) ?l] =>
        destruct (boosted_step_bound l 0 0) as (T & W & E & HT & _ & HW)
    end.
    { repeat apply List.Forall_cons; try apply List.Forall_nil;
        eexists; (split; [reflexivity | reflexivity]). }
    rewrite E. apply ratio_bounded; [apply HW; discriminate | lra].
  - destruct (global_step_bound indicators 0 0) as (T & W & E & HT & _ & HW).
    rewrite E. apply ratio_bounded; [apply HW; discriminate | lra].
Qed.

End Composite.

Section DeltaMore.

(** X11.  With finite positive weights the composite score of any
    ticker, computed from the scores of [getEnhancedMarketData], lies in
    [-2, 2] whatever the readings, the histories, the thresholds and the
    region are: the division by the weight sum never yields NaN or an
    infinity. *)
Theorem regional_score_bounded
    (cfg : Config) (w : indicator -> Q)
    (ind : indicator -> option num) (hist : indicator -> list num)
    (md : Metadata) (t : string) :
  (forall k, WEIGHTS cfg k = Some (Fin (w k))) ->
  (forall k, 0 < w k) ->
  inRange (-2) 2
    (V2.getRegionalScore cfg (V2.getEnhancedMarketData cfg ind hist) md t).
Proof.
  intros Hw Hpos.
  apply (V2_regional_score_bounded cfg _ w Hw Hpos).
  intros k. destruct k; cbn [V2.getEnhancedMarketData].
  - apply V2_unemployment_clamped.
  - apply V2_cpi_clamped.
  - apply V2_cpi_clamped.
  - apply V2_gdp_clamped.
  - apply V2_vix_clamped.
  - apply V2_yield_clamped.
  - apply V2_credit_clamped.
Qed.

Lemma regional_score_bounded_witness :
  inRange (-2) 2
    (V2.getRegionalScore V2.CONFIG
       (V2.getEnhancedMarketData V2.CONFIG stressed noHist)
       oneEquity "XEQT.TO").
Proof.
  apply (regional_score_bounded V2.CONFIG
           (fun k => match k with
                     | unemployment => 1.2
                     | usCPI => 1.2
                     | canCPI => 0.8
                     | canGDP => 1.0
                     | vix => 1.5
                     | yieldCurve => 1.7
                     | creditSpread => 1.4
                     end)).
  - intros k. destruct k; reflexivity.
  - intros k. destruct k; vm_compute; reflexivity.
Defined.

(** The step function answers one of its seven values for every input,
    NaN included (every comparison fails and the last branch, -0.08, is
    taken). *)
Lemma baseShift_bounded (r : num) :
  exists b, V2.baseShift r = Fin b /\ -0.08 <= b <= 0.08.
Proof.
  unfold V2.baseShift.
  repeat match goal with
         | |- context [if ?c then _ else _] => destruct c
         end;
    eexists; (split; [reflexivity | lra]).
Qed.

(** X12.  For a ticker with a finite, non-negative sensitivity the raw
    delta of V2/V3 is finite and at most 0.08 times the sensitivity in
    absolute value, whatever the scores are (a NaN composite score takes
    the last branch of the step function). *)
Theorem raw_delta_bounded_by_sensitivity
    (cfg : Config) (scores : indicator -> num) (md : Metadata)
    (t : string) (sens : Q) :
  sensMap md !! t = Some (Fin sens) -> 0 <= sens ->
  exists d, V2.calcDelta cfg scores md t = Fin d
            /\ Qabs d <= 0.08 * sens.
Proof.
  intros Hs Hpos. unfold V2.calcDelta, V2.scaledShift.
  destruct (baseShift_bounded (V2.getRegionalScore cfg scores md t))
    as [b [-> Hb]].
  rewrite (getN_some _ _ _ Hs). cbn [mul].
  assert (H1 : - (0.08 * sens) <= b * sens <= 0.08 * sens) by nra.
  destruct (volatilityAdjustment _); [destruct (ltb _ _) |];
    destruct (cellIs _ _); cbn [mul neg];
    eexists; (split; [reflexivity |]);
    apply Qabs_Qle_condition; lra.
Qed.

Lemma raw_delta_bounded_by_sensitivity_witness :
  exists d,
    V2.calcDelta V2.CONFIG
      (V2.getEnhancedMarketData V2.CONFIG stressed noHist)
      oneEquity "XEQT.TO" = Fin d
    /\ Qabs d <= 0.08 * 1.
Proof.
  apply (raw_delta_bounded_by_sensitivity V2.CONFIG _ oneEquity "XEQT.TO" 1).
  - vm_compute. reflexivity.
  - vm_compute. discriminate.
Defined.

Lemma baseShift_by_sign (r : num) :
  exists b, V2.baseShift r = Fin b
            /\ (gtb r (Fin 0) = true -> 0 <= b)
            /\ (gtb r (Fin 0) = false -> b <= 0).
Proof.
  destruct r as [s| | |].
  - unfold V2.baseShift.
    repeat match goal with
           | |- context [geb (Fin s) (Fin ?c)] =>
               let E := fresh "E" in
               destruct (geb (Fin s) (Fin c)) eqn:E;
               [apply geb_fin in E
               |assert (~ c <= s)
                  by (intros Hc; apply geb_fin in Hc; congruence); clear E]
           end;
      eexists; (split; [reflexivity |]); split; intros G;
      try (apply gtb_fin in G); try (apply gtb_fin_inv in G); lra.
  - exists 0.08. split; [reflexivity |]. split; intros; [lra | discriminate].
  - exists (-0.08). split; [reflexivity |]. split; intros; [discriminate | lra].
  - exists (-0.08). split; [reflexivity |]. split; intros; [discriminate | lra].
Qed.

(** X13.  In V1 the sign of the raw delta depends on the class alone:
    with a positive sensitivity (1 when the sheet gives none) an asset of
    class 'Defensive' never gets a positive raw delta and any other asset
    never a negative one, whatever the market scores are. *)
Theorem V1_delta_sign_follows_class_only
    (config : Config) (scores : indicator -> num) (md : Metadata)
    (ticker : string) (sens : Q) :
  V1.sensitivityOf md ticker = Fin sens -> 0 < sens ->
  exists d,
    V1.calculateEnhancedDelta config scores md ticker = Fin d
    /\ (if cellIs (classMap md !! ticker) "Defensive"
        then d <= 0 else 0 <= d).
Proof.
  intros Hs Hpos. unfold V1.calculateEnhancedDelta. rewrite Hs.
  destruct (baseShift_by_sign (V1.getRegionalScore config scores md ticker))
    as [b [-> [Hp Hn]]].
  cbn [mul].
  destruct (gtb (V1.getRegionalScore config scores md ticker) (Fin 0));
    [specialize (Hp eq_refl); clear Hn | specialize (Hn eq_refl); clear Hp];
    destruct (ltb _ _); destruct (cellIs _ _); cbn [mul neg];
    eexists; (split; [reflexivity | nra]).
Qed.

Lemma V1_delta_sign_follows_class_only_witness :
  exists d,
    V1.calculateEnhancedDelta V1.defaultConfig (fun _ => Fin (-2))
      oneEquity "XEQT.TO" = Fin d
    /\ 0 <= d.
Proof.
  apply (V1_delta_sign_follows_class_only V1.defaultConfig _ oneEquity
           "XEQT.TO" 1).
  - vm_compute. reflexivity.
  - vm_compute. reflexivity.
Defined.

End DeltaMore.

(* ===================================================================== *)
(** ** More on reconciliation and renormalisation *)
(* ===================================================================== *)

Section BalanceMore.

Local Open Scope list_scope.




(** X15.  Reconciling twice is reconciling once (V2/V3): after the step
    the net move is within the 0.001 gate, so a second pass changes
    nothing. *)
Theorem balance_is_idempotent
    (cfg : Config) (allocMap rawDelta : gmap string num)
    (defList eqList : list string) (ad ae : Q) :
  balanceConstraint (REBALANCING cfg) = true ->
  NoDup (defList ++ eqList) ->
  finiteOn allocMap (defList ++ eqList) ->
  finiteOn rawDelta (defList ++ eqList) ->
  totalAlloc allocMap defList = Fin ad ->
  totalAlloc allocMap eqList = Fin ae ->
  ~ ad == 0 -> ~ ae == 0 ->
  V2.balance cfg allocMap
    (V2.balance cfg allocMap rawDelta defList eqList) defList eqList
  = V2.balance cfg allocMap rawDelta defList eqList.
Proof.
  intros Hbc Hnd Ha Hr Ead Eae Hd He.
  destruct (V2_balance_reconciled cfg allocMap rawDelta defList eqList ad ae
              Hbc Hnd Ha Hr Ead Eae Hd He)
    as (n0 & n & _ & E & Hn & _).
  set (rd' := V2.balance cfg allocMap rawDelta defList eqList) in *.
  rewrite (V2_balance_eq cfg allocMap rd' defList eqList), Hbc, E.
  cbn [Math_abs]. rewrite (gtb_fin_false (Qabs n) 0.001 Hn). reflexivity.
Qed.

Lemma balance_is_idempotent_witness :
  V2.balance V2.CONFIG allocD
    (V2.balance V2.CONFIG allocD deltaD ["B"] ["A"]) ["B"] ["A"]
  = V2.balance V2.CONFIG allocD deltaD ["B"] ["A"].
Proof.
  apply (balance_is_idempotent V2.CONFIG allocD deltaD
           ["B"] ["A"] (0 + 0.4) (0 + 0.6)).
  - reflexivity.
  - apply NoDup_cons. split; [| apply NoDup_singleton].
    rewrite list_elem_of_In. intros [H | []]. discriminate.
  - intros t [<- | [<- | []]]; eexists; reflexivity.
  - intros t [<- | [<- | []]]; eexists; reflexivity.
  - reflexivity.
  - reflexivity.
  - vm_compute. discriminate.
  - vm_compute. discriminate.
Defined.

Lemma notNegative_max (y : num) : notNegative (Math_max (Fin 0) y).
Proof.
  unfold notNegative, Math_max, cmp. destruct y as [q| | |].
  - destruct (Qcompare_spec 0 q); right; right; eexists;
      (split; [reflexivity | lra]).
  - right. left. reflexivity.
  - right. right. exists 0. split; [reflexivity | lra].
  - left. reflexivity.
Qed.

Lemma notNegative_add (x y : num) :
  notNegative x -> notNegative y -> notNegative (add x y).
Proof.
  intros [-> | [-> | [a [-> Ha]]]] [-> | [-> | [b [-> Hb]]]]; cbn;
    try (left; reflexivity); try (right; left; reflexivity).
  right. right. eexists. split; [reflexivity | lra].
Qed.

Lemma notNegative_ltb (x : num) : notNegative x -> ltb x (Fin 0) = false.
Proof.
  intros [-> | [-> | [a [-> Ha]]]]; try reflexivity.
  unfold ltb, cmp. destruct (Qcompare_spec a 0); try reflexivity. lra.
Qed.

(** X16.  Renormalisation never sees a negative allocation: the proposed
    allocation of a ticker is never below zero, and neither is the sum
    of the proposed allocations, whatever the deltas are. *)
Theorem proposed_allocation_never_negative
    (allocMap rawDelta : gmap string num) (tickers : list string)
    (t : string) :
  ltb (proposed allocMap rawDelta t) (Fin 0) = false
  /\ ltb (foldl (fun s t => add s (proposed allocMap rawDelta t))
            (Fin 0) tickers) (Fin 0) = false.
Proof.
  split; apply notNegative_ltb.
  - apply notNegative_max.
  - assert (H : forall a, notNegative a ->
                 notNegative (foldl (fun s t => add s (proposed allocMap rawDelta t))
                                a tickers)).
    { induction tickers as [|u l IH]; intros a Ha; [exact Ha |].
      cbn [foldl]. apply IH, notNegative_add; [exact Ha |].
      apply notNegative_max. }
    apply H. right. right. exists 0. split; [reflexivity | lra].
Qed.

End BalanceMore.

(* ===================================================================== *)
(** ** Loading the sheets *)
(* ===================================================================== *)

Section Loading.

Local Open Scope list_scope.




Lemma or_else_truthy (x y : num) : truthy y = true -> truthy (or_else x y) = true.
Proof. intros H. unfold or_else. destruct (truthy x) eqn:E; assumption. Qed.

Lemma metadata_loop (one : num) (rows : list (string * cell * cell * cell))
    (md0 : Metadata) :
  truthy one = true ->
  metadataLoaded md0 ->
  metadataLoaded
    (foldl (fun md '(r0, r1, r2, r3) =>
              {| classMap := <[r0 := r1]> (classMap md);
                 regionMap := <[r0 := r2]> (regionMap md);
                 sensMap := <[r0 := or_else (parseFloatCell r3) one]> (sensMap md) |})
           md0 rows)
  /\ (forall t,
        is_Some (classMap
                   (foldl (fun md '(r0, r1, r2, r3) =>
                             {| classMap := <[r0 := r1]> (classMap md);
                                regionMap := <[r0 := r2]> (regionMap md);
                                sensMap := <[r0 := or_else (parseFloatCell r3) one]>
                                             (sensMap md) |})
                          md0 rows) !! t)
        <-> is_Some (classMap md0 !! t)
            \/ exists r1 r2 r3, In (t, r1, r2, r3) rows).
Proof.
  intros Hone. revert md0.
  induction rows as [|[[[r0 r1] r2] r3] rows IH]; intros md0 Hinv.
  - cbn. split; [exact Hinv |]. intros t. split; [tauto |].
    intros [H | (a & b & c & [])]. exact H.
  - cbn [foldl]. cbv beta iota.
    set (md1 := {| classMap := <[r0 := r1]> (classMap md0);
                   regionMap := <[r0 := r2]> (regionMap md0);
                   sensMap := <[r0 := or_else (parseFloatCell r3) one]>
                                (sensMap md0) |}).
    assert (Hinv1 : metadataLoaded md1).
    { destruct Hinv as (H1 & H2 & H3). unfold md1.
      split; [| split]; cbn [classMap regionMap sensMap].
      - intros t. destruct (string_dec r0 t) as [-> | Hne].
        + rewrite !lookup_insert_eq. split; eauto.
        + rewrite !lookup_insert_ne by exact Hne. apply H1.
      - intros t. destruct (string_dec r0 t) as [-> | Hne].
        + rewrite !lookup_insert_eq. split; eauto.
        + rewrite !lookup_insert_ne by exact Hne. apply H2.
      - intros t s. destruct (string_dec r0 t) as [-> | Hne].
        + rewrite lookup_insert_eq. intros [= <-].
          apply or_else_truthy, Hone.
        + rewrite lookup_insert_ne by exact Hne. apply H3. }
    destruct (IH md1 Hinv1) as [IH1 IH2]. split; [exact IH1 |].
    intros t. rewrite (IH2 t). unfold md1 at 1. cbn [classMap In].
    destruct (string_dec r0 t) as [-> | Hne].
    + rewrite lookup_insert_eq. split.
      * intros _. right. exists r1, r2, r3. left. reflexivity.
      * intros _. left. eauto.
    + rewrite lookup_insert_ne by exact Hne. split.
      * intros [H | (a & b & c & H)]; [tauto |].
        right. exists a, b, c. right. exact H.
      * intros [H | (a & b & c & [[= E _ _ _] | H])]; [tauto | congruence |].
        right. exists a, b, c. exact H.
Qed.

Lemma metadataLoaded_empty :
  metadataLoaded {| classMap := ∅; regionMap := ∅; sensMap := ∅ |}.
Proof.
  split; [| split]; cbn.
  - intros t. split; intros [x Hx]; rewrite lookup_empty in Hx; discriminate.
  - intros t. split; intros [x Hx]; rewrite lookup_empty in Hx; discriminate.
  - intros t s H. rewrite lookup_empty in H. discriminate.
Qed.

(** X18.  After the metadata loop (all revisions) the test
    [t in classMap] holds exactly when some row names [t] or [t] is the
    name of a member inherited from [Object.prototype]; the three tables
    have entries of their own for the same tickers; and no stored
    sensitivity is 0 or NaN, since a blank, zero or non-numeric cell is
    replaced by 1. *)
Theorem loaded_metadata_is_complete
    (rows : list (string * cell * cell * cell)) :
  (metadataLoaded (V2.loadMetadata rows)
   /\ forall t, hasProperty (classMap (V2.loadMetadata rows)) t = true
                <-> (exists r1 r2 r3, In (t, r1, r2, r3) rows)
                    \/ inherited t = true)
  /\ (metadataLoaded (V1.loadMetadata rows)
      /\ forall t, hasProperty (classMap (V1.loadMetadata rows)) t = true
                   <-> (exists r1 r2 r3, In (t, r1, r2, r3) rows)
                       \/ inherited t = true).
Proof.
  split.
  - destruct (metadata_loop (Fin 1) rows _ eq_refl metadataLoaded_empty)
      as [H1 H2].
    split; [exact H1 |]. intros t. unfold hasProperty.
    rewrite orb_true_iff, bool_decide_eq_true.
    unfold V2.loadMetadata. rewrite (H2 t).
    cbn [classMap]. rewrite lookup_empty. split; [| tauto].
    intros [[[x Hx] | H] | H]; [discriminate | tauto | tauto].
  - destruct (metadata_loop (Fin 1.0) rows _ eq_refl metadataLoaded_empty)
      as [H1 H2].
    split; [exact H1 |]. intros t. unfold hasProperty.
    rewrite orb_true_iff, bool_decide_eq_true.
    unfold V1.loadMetadata. rewrite (H2 t).
    cbn [classMap]. rewrite lookup_empty. split; [| tauto].
    intros [[[x Hx] | H] | H]; [discriminate | tauto | tauto].
Qed.

(** X19.  The code comment "now a is in [0..1]" of V3 is right for a
    parsed value between 0 and 100 only: a value above 100 is still
    divided by 100 once and stays above 1, and a negative value is kept
    as it is. *)
Theorem V3_allocation_range (raw : cell) (x : Q) :
  parseFloatNoPercent raw = Fin x ->
  (0 <= x <= 100 -> inRange 0 1 (V3.parseAllocation raw))
  /\ (100 < x -> V3.parseAllocation raw = Fin (x / 100) /\ 1 < x / 100)
  /\ (x < 0 -> V3.parseAllocation raw = Fin x).
Proof.
  intros Hx. unfold V3.parseAllocation. rewrite Hx. split; [| split].
  - intros [H0 H1]. destruct (gtb (Fin x) (Fin 1)) eqn:G.
    + apply gtb_fin in G. cbn [div]. change (Qeq_bool 100 0) with false.
      cbv iota. exists (x / 100). split; [reflexivity |]. split.
      * apply Qle_shift_div_l; lra.
      * apply Qle_shift_div_r; lra.
    + apply gtb_fin_inv in G. exists x. split; [reflexivity | lra].
  - intros H. rewrite (proj2 (gtb_fin x 1)) by lra.
    split; [reflexivity |]. apply Qlt_shift_div_l; lra.
  - intros H. rewrite gtb_fin_false by lra. reflexivity.
Qed.

Lemma V3_allocation_range_witness :
  V3.parseAllocation (CStr "150%") = Fin (150 / 100) /\ 1 < 150 / 100.
Proof.
  destruct (V3_allocation_range (CStr "150%") 150) as [_ [H _]].
  - reflexivity.
  - apply H. vm_compute. reflexivity.
Defined.

End Loading.

(* ===================================================================== *)
(** ** How one bad row spreads *)
(* ===================================================================== *)

Section Poison.

Local Open Scope list_scope.

Lemma add_nan_r (x : num) : add x NaN = NaN.
Proof. destruct x; reflexivity. Qed.

Lemma mul_nan_r (x : num) : mul x NaN = NaN.
Proof. destruct x; reflexivity. Qed.

Lemma foldl_add_from_nan {A} (f : A -> num) (l : list A) :
  foldl (fun s t => add s (f t)) NaN l = NaN.
Proof. induction l as [|t l IH]; [reflexivity | exact IH]. Qed.

Lemma foldl_add_nan {A} (f : A -> num) (l : list A) (a : num) (t0 : A) :
  In t0 l -> f t0 = NaN -> foldl (fun s t => add s (f t)) a l = NaN.
Proof.
  revert a. induction l as [|t l IH]; intros a Hin Hf; [destruct Hin |].
  cbn [foldl]. destruct Hin as [-> | Hin].
  - rewrite Hf, add_nan_r. apply foldl_add_from_nan.
  - apply IH; assumption.
Qed.

Lemma rawShifts_full_acc cfg scores md tickers
    (rd0 : gmap string num) (dl0 el0 : list string) :
  foldl (fun '(rawDelta, defList, eqList) t =>
           let rawDelta := <[t := V2.calcDelta cfg scores md t]> rawDelta in
           if cellIs (classMap md !! t) "Defensive"
           then (rawDelta, defList ++ [t], eqList)
           else (rawDelta, defList, eqList ++ [t]))
        (rd0, dl0, el0) tickers
  = (foldl (fun rd t => <[t := V2.calcDelta cfg scores md t]> rd) rd0 tickers,
     dl0 ++ List.filter (isDefensive md) tickers,
     el0 ++ List.filter (fun t => negb (isDefensive md t)) tickers).
Proof.
  unfold isDefensive. revert rd0 dl0 el0.
  induction tickers as [|t l IH]; intros rd0 dl0 el0.
  - cbn. rewrite !app_nil_r. reflexivity.
  - cbn [foldl List.filter]. cbv beta iota zeta.
    destruct (cellIs (classMap md !! t) "Defensive"); cbn [negb];
      rewrite IH, <- app_assoc; reflexivity.
Qed.

Lemma inserted_lookup (f : string -> num) (l : list string)
    (rd0 : gmap string num) (t : string) :
  In t l -> foldl (fun rd t => <[t := f t]> rd) rd0 l !! t = Some (f t).
Proof.
  revert rd0. induction l as [|u l IH]; intros rd0 Hin; [destruct Hin |].
  cbn [foldl]. destruct (in_dec string_dec t l) as [Hl | Hl].
  - apply IH, Hl.
  - destruct Hin as [-> | Hin]; [| contradiction].
    assert (G : forall l' (rd : gmap string num), ~ In t l' ->
                  foldl (fun rd t => <[t := f t]> rd) rd l' !! t = rd !! t).
    { induction l' as [|v l' IH']; intros rd Hn; [reflexivity |].
      cbn [foldl]. rewrite IH' by (intros H; apply Hn; right; exact H).
      apply lookup_insert_ne. intros ->. apply Hn. left. reflexivity. }
    rewrite (G l _ Hl). apply lookup_insert_eq.
Qed.

Lemma calcDelta_nan cfg scores md t :
  getN (sensMap md) t = NaN -> V2.calcDelta cfg scores md t = NaN.
Proof.
  intros H. unfold V2.calcDelta, V2.scaledShift. rewrite H, mul_nan_r.
  destruct (volatilityAdjustment _); [destruct (ltb _ _) |];
    destruct (cellIs _ _); reflexivity.
Qed.

Lemma signalFor_poisoned cfg allocMap tickers md ind hist t0 assetTicker :
  In t0 tickers ->
  getN (sensMap md) t0 = NaN \/ getN allocMap t0 = NaN ->
  V2.signalFor cfg allocMap tickers md ind hist assetTicker
  = "Decrease NaN%"%string.
Proof.
  intros Hin Hbad. unfold V2.signalFor, V2.rawShifts.
  rewrite rawShifts_full_acc. cbn [app].
  set (scores := V2.getEnhancedMarketData cfg ind hist).
  set (rd := foldl (fun rd t => <[t := V2.calcDelta cfg scores md t]> rd) ∅ tickers).
  set (defL := List.filter (isDefensive md) tickers).
  set (eqL := List.filter (fun t => negb (isDefensive md t)) tickers).
  assert (Hrd : getN rd t0 = V2.calcDelta cfg scores md t0).
  { unfold getN, rd. rewrite (inserted_lookup _ tickers ∅ t0 Hin). reflexivity. }
  assert (Hterm : mul (getN rd t0) (getN allocMap t0) = NaN).
  { destruct Hbad as [Hs | Ha].
    - rewrite Hrd, (calcDelta_nan cfg scores md t0 Hs). reflexivity.
    - rewrite Ha. apply mul_nan_r. }
  assert (Hcover : In t0 (defL ++ eqL)).
  { apply in_or_app. unfold defL, eqL. rewrite !filter_In.
    destruct (isDefensive md t0); cbn; tauto. }
  assert (Hnet : netMove allocMap rd (defL ++ eqL) = NaN).
  { unfold netMove.
    apply (foldl_add_nan (fun t => mul (getN rd t) (getN allocMap t))
             (defL ++ eqL) (Fin 0) t0 Hcover Hterm). }
  assert (Hbal : V2.balance cfg allocMap rd defL eqL = rd).
  { rewrite V2_balance_eq, Hnet.
    destruct (balanceConstraint _); reflexivity. }
  rewrite Hbal.
  assert (Hprop : proposed allocMap rd t0 = NaN).
  { unfold proposed. destruct Hbad as [Hs | Ha].
    - rewrite Hrd, (calcDelta_nan cfg scores md t0 Hs).
      cbn [add]. rewrite mul_nan_r. reflexivity.
    - rewrite Ha. reflexivity. }
  unfold V2.finalDelta.
  rewrite (foldl_add_nan (fun t => proposed allocMap rd t) tickers (Fin 0) t0
             Hin Hprop).
  rewrite div_nan_r. reflexivity.
Qed.

(** X20.  One allocation row whose ticker has no metadata row spoils
    every answer of V2 and V3: its sensitivity is undefined, its raw
    delta NaN, the sum of the proposed allocations NaN, and the call
    returns "Decrease NaN%": in V2 for every requested ticker that passes
    the metadata check, in V3 for every requested ticker. *)
Theorem row_without_metadata_spoils_every_signal
    (cfg : Config) (ss : Sheets) (ind : indicator -> option num)
    (hist : indicator -> list num) (t0 assetTicker : string) :
  sensMap (V2.loadMetadata (meta ss)) !! t0 = None ->
  (In t0 (V2.loadAllocations (allocData ss)).2 ->
   hasProperty (classMap (V2.loadMetadata (meta ss))) assetTicker = true ->
   V2.GET_REBALANCE_SIGNAL cfg ss ind hist assetTicker
   = Returns "Decrease NaN%")
  /\ (In t0 (V3.loadAllocations (allocData ss)).2 ->
      V3.GET_REBALANCE_SIGNAL cfg ss ind hist assetTicker
      = Returns "Decrease NaN%").
Proof.
  intros Hs. split.
  - intros H2 Hmeta. unfold V2.GET_REBALANCE_SIGNAL.
    destruct (V2.loadAllocations (allocData ss)) as [allocMap tickers].
    rewrite Hmeta. cbn [negb].
    rewrite (signalFor_poisoned _ _ _ _ _ _ t0); [reflexivity | exact H2 |].
    left. apply getN_none, Hs.
  - intros H3. unfold V3.GET_REBALANCE_SIGNAL.
    destruct (V3.loadAllocations (allocData ss)) as [allocMap tickers].
    rewrite (signalFor_poisoned _ _ _ _ _ _ t0); [reflexivity | exact H3 |].
    left. apply getN_none, Hs.
Qed.

(** 'XYZ' has an allocation and no metadata row: V2 asked for 'CASH.TO',
    V3 asked for 'XYZ' itself. *)
Lemma row_without_metadata_spoils_every_signal_witness :
  V2.GET_REBALANCE_SIGNAL V2.CONFIG sheetsUnknown stressed noHist "CASH.TO"
  = Returns "Decrease NaN%"
  /\ V3.GET_REBALANCE_SIGNAL V2.CONFIG sheetsUnknown stressed noHist "XYZ"
     = Returns "Decrease NaN%".
Proof.
  split.
  - destruct (row_without_metadata_spoils_every_signal V2.CONFIG
                sheetsUnknown stressed noHist "XYZ" "CASH.TO") as [H _].
    + vm_compute. reflexivity.
    + apply H; [vm_compute; tauto | vm_compute; reflexivity].
  - destruct (row_without_metadata_spoils_every_signal V2.CONFIG
                sheetsUnknown stressed noHist "XYZ" "XYZ") as [_ H].
    + vm_compute. reflexivity.
    + apply H. vm_compute. tauto.
Defined.



End Poison.

(* ===================================================================== *)
(** ** A call without any reading *)
(* ===================================================================== *)

Section NoData.

Local Open Scope list_scope.

Variable cfg : Config.
Variable w : indicator -> Q.
Hypothesis weights_finite : forall k, WEIGHTS cfg k = Some (Fin (w k)).
Variable scores : indicator -> num.
Hypothesis scores_zero : forall k, scores k = Fin 0.

Lemma boosted_zero (l : list (indicator * num)) (T0 W0 : Q) :
  Forall (fun km => exists m, snd km = Fin m) l ->
  exists T W,
    foldl (fun '(total, wsum) '(k, m) =>
             (add total (mul (mul (scores k) (weight cfg k)) m),
              add wsum (mul (weight cfg k) m)))
          (Fin T0, Fin W0) l
    = (Fin T, Fin W) /\ T == T0.
Proof.
  revert T0 W0. induction l as [|[k m] l IH]; intros T0 W0 Hl.
  - exists T0, W0. split; reflexivity.
  - apply List.Forall_cons_iff in Hl. destruct Hl as [[mq Em] Hl].
    cbn [snd] in Em. subst m. cbn [foldl]. cbv beta iota.
    rewrite (scores_zero k), (weight_finite cfg w weights_finite k).
    cbn [mul add].
    destruct (IH (T0 + 0 * w k * mq) (W0 + w k * mq) Hl) as (T & W & E & HT).
    exists T, W. split; [exact E | rewrite HT; ring].
Qed.

Lemma global_zero (l : list indicator) (T0 W0 : Q) :
  exists T W,
    foldl (fun '(total, wsum) k =>
             match WEIGHTS cfg k with
             | Some wk => (add total (mul (scores k) wk), add wsum wk)
             | None => (total, wsum)
             end)
          (Fin T0, Fin W0) l
    = (Fin T, Fin W) /\ T == T0.
Proof.
  revert T0 W0. induction l as [|k l IH]; intros T0 W0.
  - exists T0, W0. split; reflexivity.
  - cbn [foldl]. cbv beta iota.
    rewrite (scores_zero k), (weights_finite k). cbn [mul add].
    destruct (IH (T0 + 0 * w k) (W0 + w k)) as (T & W & E & HT).
    exists T, W. split; [exact E | rewrite HT; ring].
Qed.

Lemma ratio_zero (T W : Q) :
  T == 0 ->
  exists q, (if truthy (Fin W) then div (Fin T) (Fin W) else Fin 0) = Fin q
            /\ q == 0.
Proof.
  intros HT. cbn [truthy div]. destruct (Qeq_bool W 0); cbn [negb].
  - exists 0. split; reflexivity.
  - exists (T / W). split; [reflexivity |]. rewrite HT. unfold Qdiv. ring.
Qed.

Lemma regional_zero (md : Metadata) (t : string) :
  exists q, V2.getRegionalScore cfg scores md t = Fin q /\ q == 0.
Proof.
  unfold V2.getRegionalScore, V2.boosted.
  destruct (cellIs (Some (V2.regionOf md t)) "U.S.");
    [| destruct (cellIs (Some (V2.regionOf md t)) "Canada")].
  - match goal with
    | |- context [foldl ?f (Fin 0, Fin 0) ?l] =>
        destruct (boosted_zero l 0 0) as (T & W & E & HT)
    end.
    { repeat apply List.Forall_cons; try apply List.Forall_nil;
        eexists; reflexivity. }
    rewrite E. apply ratio_zero, HT.
  - match goal with
    | |- context [foldl ?f (Fin 0, Fin 0) ?l] =>
        destruct (boosted_zero l 0 0) as (T & W & E & HT)
    end.
    { repeat apply List.Forall_cons; try apply List.Forall_nil;
        eexists; reflexivity. }
    rewrite E. apply ratio_zero, HT.
  - destruct (global_zero indicators 0 0) as (T & W & E & HT).
    rewrite E. apply ratio_zero, HT.
Qed.

Lemma baseShift_zero (q : Q) : q == 0 -> V2.baseShift (Fin q) = Fin 0.
Proof.
  intros Hq. unfold V2.baseShift.
  rewrite (geb_fin_false q 1.5), (geb_fin_false q 0.75),
    (geb_fin_false q 0.25) by lra.
  rewrite (proj2 (geb_fin q (-0.25))) by lra. reflexivity.
Qed.

Lemma calcDelta_zero (md : Metadata) (t : string) (s : Q) :
  sensMap md !! t = Some (Fin s) ->
  exists d, V2.calcDelta cfg scores md t = Fin d /\ d == 0.
Proof.
  intros Hs. unfold V2.calcDelta, V2.scaledShift.
  destruct (regional_zero md t) as [q [-> Hq]].
  rewrite (baseShift_zero q Hq), (getN_some _ _ _ Hs), (scores_zero vix).
  cbn [mul]. change (ltb (Fin 0) (Fin (-1))) with false.
  destruct (volatilityAdjustment _); destruct (cellIs _ _); cbn [neg];
    eexists; (split; [reflexivity | ring]).
Qed.

End NoData.

Section NoDataSignal.

Local Open Scope list_scope.

Lemma no_data_scores cfg hist k :
  V2.getEnhancedMarketData cfg (fun _ => None) hist k = Fin 0.
Proof. destruct k; reflexivity. Qed.

Lemma qsum_zero f l : (forall t, In t l -> f t == 0) -> qsum f l == 0.
Proof.
  induction l as [|t l IH]; intros H; cbn [qsum]; [reflexivity |].
  rewrite (H t (or_introl eq_refl)), IH; [ring |].
  intros u Hu. apply H. right. exact Hu.
Qed.

Lemma ltb_fin (a b : Q) : ltb (Fin a) (Fin b) = true <-> a < b.
Proof.
  unfold ltb, cmp. rewrite Qlt_alt.
  destruct (a ?= b); split; intros H; congruence.
Qed.

Lemma foldl_add_fin (f : string -> num) (g : string -> Q) (l : list string)
    (a0 : Q) :
  (forall t, In t l -> exists p, f t = Fin p /\ p == g t) ->
  exists s, foldl (fun s t => add s (f t)) (Fin a0) l = Fin s
            /\ s == a0 + qsum g l.
Proof.
  revert a0. induction l as [|t l IH]; intros a0 H.
  - exists a0. split; [reflexivity | cbn; ring].
  - cbn [foldl qsum]. destruct (H t (or_introl eq_refl)) as [p [-> Hp]].
    cbn [add].
    destruct (IH (a0 + p) (fun u Hu => H u (or_intror Hu))) as [s [E Hs]].
    exists s. split; [exact E | rewrite Hs, Hp; ring].
Qed.

Lemma max_zero_nonneg (q : Q) : 0 <= q -> exists p, Math_max (Fin 0) (Fin q) = Fin p /\ p == q.
Proof.
  intros Hq. unfold Math_max, cmp.
  destruct (Qcompare_spec 0 q) as [E | L | G].
  - exists 0. split; [reflexivity | exact E].
  - exists q. split; reflexivity.
  - lra.
Qed.

(** With every score 0, the final delta of a ticker with a positive
    allocation is [1/S - 1], where [S] is the sum of the allocations. *)
Lemma finalDelta_no_data cfg (w : indicator -> Q) allocMap tickers md hist
    assetTicker (S : Q) :
  (forall k, WEIGHTS cfg k = Some (Fin (w k))) ->
  (forall t, In t tickers -> exists s, sensMap md !! t = Some (Fin s)) ->
  (forall t, In t tickers ->
             exists a, allocMap !! t = Some (Fin a) /\ 0 <= a) ->
  In assetTicker tickers ->
  0 < qv allocMap assetTicker ->
  totalAlloc allocMap tickers = Fin S ->
  ~ S == 0 ->
  exists fd,
    V2.signalFor cfg allocMap tickers md (fun _ => None) hist assetTicker
    = formatSignal (minThreshold (REBALANCING cfg)) (Fin fd)
    /\ fd == 1 / S - 1.
Proof.
  intros Hw Hsens Halloc Hin Hpos Htot HS.
  unfold V2.signalFor, V2.rawShifts.
  rewrite rawShifts_full_acc. cbn [app].
  set (scores := V2.getEnhancedMarketData cfg (fun _ => None) hist).
  set (rd := foldl (fun rd t => <[t := V2.calcDelta cfg scores md t]> rd)
               ∅ tickers).
  set (defL := List.filter (isDefensive md) tickers).
  set (eqL := List.filter (fun t => negb (isDefensive md t)) tickers).
  assert (Hsc : forall k, scores k = Fin 0) by apply no_data_scores.
  assert (Hrd : forall t, In t tickers ->
                  exists d, rd !! t = Some (Fin d) /\ d == 0).
  { intros t Ht. destruct (Hsens t Ht) as [s Hs].
    destruct (calcDelta_zero cfg w Hw scores Hsc md t s Hs) as [d [Ed Hd]].
    exists d. split; [| exact Hd].
    unfold rd. rewrite (inserted_lookup _ tickers ∅ t Ht). f_equal. exact Ed. }
  assert (Hfa : finiteOn allocMap tickers).
  { intros t Ht. destruct (Halloc t Ht) as [a [Ea _]]. eauto. }
  assert (Hfr : finiteOn rd tickers).
  { intros t Ht. destruct (Hrd t Ht) as [d [Ed _]]. eauto. }
  assert (Hsub : forall t, In t (defL ++ eqL) -> In t tickers).
  { intros t Ht. apply in_app_or in Ht. unfold defL, eqL in Ht.
    rewrite !filter_In in Ht. tauto. }
  assert (Hqrd : forall t, In t tickers -> qv rd t == 0).
  { intros t Ht. destruct (Hrd t Ht) as [d [Ed Hd]].
    unfold qv. rewrite Ed. exact Hd. }
  assert (Hbal : V2.balance cfg allocMap rd defL eqL = rd).
  { rewrite V2_balance_eq.
    destruct (netMove_fin allocMap rd (defL ++ eqL)) as [n [En Hn]].
    { intros t Ht. apply Hfa, Hsub, Ht. }
    { intros t Ht. apply Hfr, Hsub, Ht. }
    assert (Hn0 : n == 0).
    { rewrite Hn. apply qsum_zero. intros t Ht.
      rewrite (Hqrd t (Hsub t Ht)). ring. }
    rewrite En. cbn [Math_abs]. cbv zeta.
    rewrite gtb_fin_false.
    - destruct (balanceConstraint _); reflexivity.
    - rewrite Hn0. change (Qabs 0) with 0. lra. }
  rewrite Hbal.
  assert (Hprop : forall t, In t tickers ->
            exists p, proposed allocMap rd t = Fin p /\ p == qv allocMap t).
  { intros t Ht. destruct (Halloc t Ht) as [a [Ea Ha]].
    destruct (Hrd t Ht) as [d [Ed Hd]].
    unfold proposed, qv. rewrite (getN_some _ _ _ Ea), (getN_some _ _ _ Ed), Ea.
    cbn [add mul].
    destruct (max_zero_nonneg (a * (1 + d))) as [p [Ep Hp]].
    { rewrite Hd. lra. }
    exists p. split; [exact Ep |]. rewrite Hp, Hd. ring. }
  destruct (foldl_add_fin (proposed allocMap rd) (qv allocMap) tickers 0 Hprop)
    as [s' [Es Hs']].
  pose proof (totalAlloc_sum allocMap tickers S Hfa Htot) as HSq.
  assert (Hs1 : s' == S) by (rewrite Hs', HSq; ring).
  destruct (Hprop assetTicker Hin) as [p [Ep Hp]].
  unfold V2.finalDelta. rewrite Es, Ep.
  rewrite (finiteOn_getN allocMap tickers assetTicker Hfa Hin).
  cbn [div].
  rewrite (Qeq_bool_nonzero s') by (rewrite Hs1; exact HS).
  cbn [div].
  rewrite (Qeq_bool_nonzero (qv allocMap assetTicker)) by lra.
  cbn [sub neg add].
  eexists. split; [reflexivity |].
  rewrite Hp, Hs1. field. split; [exact HS | lra].
Qed.

(** X22.  A call of V2 or V3 for which no indicator has a reading, on a
    portfolio whose allocations are finite and not negative and whose
    sensitivities are finite: the final change of a ticker with a positive
    allocation is [1/S - 1], where [S] is the sum of all allocations, so
    the answer is "Hold" exactly when [|1/S - 1|] is below the minimum
    threshold; in particular when the allocations sum to 1. *)
Theorem no_readings_hold_iff_allocations_sum_to_one
    cfg (w : indicator -> Q) (m : Q) allocMap tickers md hist
    assetTicker (S : Q) :
  (forall k, WEIGHTS cfg k = Some (Fin (w k))) ->
  minThreshold (REBALANCING cfg) = Fin m ->
  (forall t, In t tickers -> exists s, sensMap md !! t = Some (Fin s)) ->
  (forall t, In t tickers ->
             exists a, allocMap !! t = Some (Fin a) /\ 0 <= a) ->
  In assetTicker tickers ->
  0 < qv allocMap assetTicker ->
  totalAlloc allocMap tickers = Fin S ->
  ~ S == 0 ->
  (V2.signalFor cfg allocMap tickers md (fun _ => None) hist assetTicker
   = "Hold"%string
   <-> Qabs (1 / S - 1) < m)
  /\ (S == 1 -> 0 < m ->
      V2.signalFor cfg allocMap tickers md (fun _ => None) hist assetTicker
      = "Hold"%string).
Proof.
  intros Hw Hm Hsens Halloc Hin Hpos Htot HS.
  destruct (finalDelta_no_data cfg w allocMap tickers md hist assetTicker S
              Hw Hsens Halloc Hin Hpos Htot HS) as [fd [E Hfd]].
  rewrite E, Hm. unfold formatSignal. cbn [Math_abs].
  assert (Hiff : ltb (Fin (Qabs fd)) (Fin m) = true <-> Qabs (1 / S - 1) < m).
  { rewrite ltb_fin, Hfd. reflexivity. }
  split.
  - split.
    + intros H. apply Hiff.
      destruct (ltb (Fin (Qabs fd)) (Fin m)); [reflexivity |].
      destruct (gtb (Fin fd) (Fin 0)); cbn in H; discriminate.
    + intros H. apply Hiff in H. rewrite H. reflexivity.
  - intros H1 Hmpos.
    assert (H : Qabs (1 / S - 1) < m).
    { assert (Hz : 1 / S - 1 == 0) by (rewrite H1; reflexivity).
      rewrite Hz. change (Qabs 0) with 0. exact Hmpos. }
    apply Hiff in H. rewrite H. reflexivity.
Qed.

Lemma no_readings_hold_iff_allocations_sum_to_one_witness :
  V2.signalFor V2.CONFIG allocD ["A"; "B"]%string
    (V2.loadMetadata
       [("A"%string, CStr "Equity", CStr "Global", CNum (Fin 1));
        ("B"%string, CStr "Defensive", CStr "Canada", CNum (Fin 0.5))])
    (fun _ => None) noHist "A"
  = "Hold"%string.
Proof.
  refine (proj2 (no_readings_hold_iff_allocations_sum_to_one V2.CONFIG
                   (fun k => match k with
                             | unemployment => 1.2
                             | usCPI => 1.2
                             | canCPI => 0.8
                             | canGDP => 1.0
                             | vix => 1.5
                             | yieldCurve => 1.7
                             | creditSpread => 1.4
                             end)
                   0.005 allocD ["A"; "B"]%string _ noHist "A" (100 # 100)
                   _ _ _ _ _ _ _ _) _ _).
  - intros k. destruct k; reflexivity.
  - reflexivity.
  - intros t [<- | [<- | []]]; eexists; vm_compute; reflexivity.
  - intros t [<- | [<- | []]]; eexists; (split; [vm_compute; reflexivity |]);
      vm_compute; discriminate.
  - left. reflexivity.
  - vm_compute. reflexivity.
  - vm_compute. reflexivity.
  - vm_compute. discriminate.
  - vm_compute. reflexivity.
  - vm_compute. reflexivity.
Defined.

End NoDataSignal.

(* ===================================================================== *)
(** ** The table chosen by the browser snippet *)
(* ===================================================================== *)

Section Tables.

Local Open Scope list_scope.
Local Open Scope nat_scope.

Lemma best_table_loop {A} (tables : list (list A))
    (bestTable : option (list A)) (maxRows : nat) :
  let '(bestTable', maxRows') :=
    foldl (fun '(bestTable, maxRows) table =>
             let rowCount := length table in
             if (maxRows <? rowCount)%nat then (Some table, rowCount)
             else (bestTable, maxRows))
          (bestTable, maxRows) tables in
  (bestTable' = bestTable /\ maxRows' = maxRows
   /\ forall u, In u tables -> length u <= maxRows)
  \/ exists l1 t l2,
       tables = l1 ++ t :: l2
       /\ bestTable' = Some t /\ maxRows' = length t
       /\ maxRows < length t
       /\ (forall u, In u l1 -> length u < length t)
       /\ (forall u, In u l2 -> length u <= length t).
Proof.
  revert bestTable maxRows.
  induction tables as [|t0 l IH]; intros b m.
  - left. cbn. repeat split. intros u [].
  - cbn [foldl]. cbv beta iota zeta.
    destruct (Nat.ltb_spec m (length t0)) as [Hlt | Hge].
    + specialize (IH (Some t0) (length t0)).
      destruct (foldl _ (Some t0, length t0) l) as [b' m'].
      destruct IH as [(-> & -> & Hall) | (l1 & t & l2 & -> & -> & -> & H1 & H2 & H3)].
      * right. exists [], t0, l. repeat split; try assumption.
        intros u [].
      * right. exists (t0 :: l1), t, l2. repeat split; try assumption.
        -- lia.
        -- intros u [<- | Hu]; [exact H1 | apply H2, Hu].
    + specialize (IH b m).
      destruct (foldl _ (b, m) l) as [b' m'].
      destruct IH as [(-> & -> & Hall) | (l1 & t & l2 & -> & -> & -> & H1 & H2 & H3)].
      * left. repeat split. intros u [<- | Hu]; [exact Hge | apply Hall, Hu].
      * right. exists (t0 :: l1), t, l2. repeat split; try assumption.
        intros u [<- | Hu]; [lia | apply H2, Hu].
Qed.

(** X23.  [findTableWithMostRows] of the browser snippet returns the
    first table with the largest number of body rows: every table before
    it has fewer rows, none after it has more, and it has at least one
    row.  It raises an error exactly when no table has a row (in
    particular when there is no table). *)
Theorem most_rows_table_is_first_largest {A} (tables : list (list A)) :
  match Browser.findTableWithMostRows tables with
  | Browser.Ok t =>
      0 < length t
      /\ exists l1 l2,
           tables = l1 ++ t :: l2
           /\ (forall u, In u l1 -> length u < length t)
           /\ (forall u, In u l2 -> length u <= length t)
  | Browser.Err _ => forall u, In u tables -> u = []
  end.
Proof.
  unfold Browser.findTableWithMostRows.
  destruct tables as [|t0 l]; [intros u [] |].
  pose proof (best_table_loop (t0 :: l) None 0) as H.
  destruct (foldl _ (None, 0) (t0 :: l)) as [b' m'].
  destruct H as [(-> & -> & Hall) | (l1 & t & l2 & E & -> & -> & H1 & H2 & H3)].
  - intros u Hu. apply Hall in Hu. destruct u; [reflexivity | cbn in Hu; lia].
  - split; [lia |]. exists l1, l2. repeat split; assumption.
Qed.

End Tables.

(* ===================================================================== *)
(** ** Renormalisation *)
(* ===================================================================== *)

Section Renormalisation.

Local Open Scope list_scope.

Lemma qsum_scale f (c : Q) l :
  qsum (fun t => f t / c) l == qsum f l / c.
Proof.
  induction l as [|t l IH]; cbn [qsum].
  - unfold Qdiv. ring.
  - rewrite IH. unfold Qdiv. ring.
Qed.

Lemma qsum_nonneg f l : (forall t, In t l -> 0 <= f t) -> 0 <= qsum f l.
Proof.
  induction l as [|t l IH]; intros H; cbn [qsum]; [lra |].
  pose proof (H t (or_introl eq_refl)).
  pose proof (IH (fun u Hu => H u (or_intror Hu))). lra.
Qed.

Lemma qsum_pos f l t0 :
  (forall t, In t l -> 0 <= f t) -> In t0 l -> 0 < f t0 -> 0 < qsum f l.
Proof.
  induction l as [|t l IH]; intros H Hin Hpos; [destruct Hin |].
  cbn [qsum]. pose proof (H t (or_introl eq_refl)) as Ht.
  pose proof (qsum_nonneg f l (fun u Hu => H u (or_intror Hu))) as Hl.
  destruct Hin as [-> | Hin]; [lra |].
  pose proof (IH (fun u Hu => H u (or_intror Hu)) Hin Hpos). lra.
Qed.

Lemma proposed_finite allocMap rawDelta t (a d : Q) :
  allocMap !! t = Some (Fin a) -> rawDelta !! t = Some (Fin d) -> 0 < a ->
  exists p, proposed allocMap rawDelta t = Fin p
            /\ 0 <= p /\ (-1 < d -> 0 < p).
Proof.
  intros Ea Ed Ha. unfold proposed.
  rewrite (getN_some _ _ _ Ea), (getN_some _ _ _ Ed). cbn [add mul].
  unfold Math_max, cmp.
  destruct (Qcompare_spec 0 (a * (1 + d))) as [E | L | G].
  - exists 0. split; [reflexivity |]. split; [lra |]. intros Hd. nra.
  - exists (a * (1 + d)). split; [reflexivity |]. split; [lra |]. intros _. lra.
  - exists 0. split; [reflexivity |]. split; [lra |]. intros Hd. nra.
Qed.

(** X24.  The final changes of V2 and V3 describe a whole portfolio: with
    positive finite allocations and finite deltas, of which at least one
    is above -100%, the final change of every ticker is a finite number,
    and the allocations changed by them, [(1 + finalD[t]) * alloc[t]],
    sum to exactly 1 over the tickers, whatever the current allocations
    sum to. *)
Theorem final_changes_sum_to_one
    (allocMap rawDelta : gmap string num) (tickers : list string)
    (t0 : string) :
  (forall t, In t tickers ->
             exists a, allocMap !! t = Some (Fin a) /\ 0 < a) ->
  finiteOn rawDelta tickers ->
  In t0 tickers ->
  -1 < qv rawDelta t0 ->
  (forall t, In t tickers ->
             is_fin (V2.finalDelta allocMap rawDelta tickers t))
  /\ qsum (fun t => (1 + qOf (V2.finalDelta allocMap rawDelta tickers t))
                    * qv allocMap t) tickers
     == 1.
Proof.
  intros Halloc Hrd Hin0 Hd0.
  set (g := fun t => qOf (proposed allocMap rawDelta t)).
  assert (Hprop : forall t, In t tickers ->
            exists p, proposed allocMap rawDelta t = Fin p /\ p == g t).
  { intros t Ht. destruct (Halloc t Ht) as [a [Ea Ha]].
    destruct (Hrd t Ht) as [d Ed].
    destruct (proposed_finite allocMap rawDelta t a d Ea Ed Ha) as [p [Ep _]].
    exists p. split; [exact Ep |]. unfold g. rewrite Ep. reflexivity. }
  assert (Hg : forall t, In t tickers -> 0 <= g t).
  { intros t Ht. destruct (Halloc t Ht) as [a [Ea Ha]].
    destruct (Hrd t Ht) as [d Ed].
    destruct (proposed_finite allocMap rawDelta t a d Ea Ed Ha)
      as [p [Ep [Hp _]]].
    unfold g. rewrite Ep. exact Hp. }
  assert (Hg0 : 0 < g t0).
  { destruct (Halloc t0 Hin0) as [a [Ea Ha]].
    destruct (Hrd t0 Hin0) as [d Ed].
    destruct (proposed_finite allocMap rawDelta t0 a d Ea Ed Ha)
      as [p [Ep [_ Hp]]].
    unfold g. rewrite Ep. apply Hp.
    unfold qv in Hd0. rewrite Ed in Hd0. exact Hd0. }
  destruct (foldl_add_fin (proposed allocMap rawDelta) g tickers 0 Hprop)
    as [s [Es Hs]].
  assert (Hsum : s == qsum g tickers) by (rewrite Hs; ring).
  pose proof (qsum_pos g tickers t0 Hg Hin0 Hg0) as Hpos.
  assert (Hfd : forall t, In t tickers ->
            exists fd, V2.finalDelta allocMap rawDelta tickers t = Fin fd
                       /\ (1 + fd) * qv allocMap t == g t / s).
  { intros t Ht. destruct (Halloc t Ht) as [a [Ea Ha]].
    destruct (Hprop t Ht) as [p [Ep Hp]].
    unfold V2.finalDelta. rewrite Es, Ep, (getN_some _ _ _ Ea).
    cbn [div]. rewrite (Qeq_bool_nonzero s) by lra.
    cbn [div]. rewrite (Qeq_bool_nonzero a) by lra.
    cbn [sub neg add]. eexists. split; [reflexivity |].
    unfold qv. rewrite Ea, <- Hp. field. split; lra. }
  split.
  - intros t Ht. destruct (Hfd t Ht) as [fd [-> _]]. exact I.
  - rewrite (qsum_ext _ (fun t => g t / s)).
    + rewrite qsum_scale, <- Hsum. field. lra.
    + intros t Ht. destruct (Hfd t Ht) as [fd [-> E]]. exact E.
Qed.

Lemma final_changes_sum_to_one_witness :
  (forall t, In t ["A"; "B"]%string ->
             is_fin (V2.finalDelta allocHalf deltaD ["A"; "B"]%string t))
  /\ qsum (fun t => (1 + qOf (V2.finalDelta allocHalf deltaD
                                ["A"; "B"]%string t))
                    * qv allocHalf t) ["A"; "B"]%string
     == 1.
Proof.
  apply (final_changes_sum_to_one allocHalf deltaD ["A"; "B"]%string "A").
  - intros t [<- | [<- | []]]; eexists; (split; [vm_compute; reflexivity |]);
      vm_compute; reflexivity.
  - intros t [<- | [<- | []]]; eexists; vm_compute; reflexivity.
  - left. reflexivity.
  - vm_compute. reflexivity.
Defined.

End Renormalisation.
